(** * REE Atlas India: scoring, target extraction and evidence

    A shallow embedding of the prospectivity pipeline of
    [apps/api/app/pipeline] ([scoring.py], [features.py], [targets.py],
    [run.py]) and the properties its specification states about it.

    Numbers.  Python and numpy floats are modelled by [fval]: the IEEE
    special values (NaN, the two infinities) together with exact rationals
    for the finite values.  Arithmetic on finite values is exact (no
    rounding, one zero), and every special-value rule of IEEE 754 that the
    code can observe (NaN absorbs, [inf - inf], [0 * inf], [x / 0], ordered
    comparisons false on NaN) is written out.

    Rasters.  An [xarray.DataArray] is its row-major pixel buffer together
    with its grid (shape, affine transform, CRS).  Rasters used together
    share a grid, so pixel-wise operators pair pixels by position. *)

From Stdlib Require Import QArith Qround Qabs Lqa ZArith Lia.
From Stdlib Require Import Permutation Sorted Ascii.
From stdpp Require Import base option list gmap strings pretty.

Local Open Scope Q_scope.

(** ** Python errors *)

Module Py.

Inductive PyError : Type :=
  | KeyError (key : string)
  | ValueError
  | ZeroDivisionError
  | OverflowError
  | AttributeError.

Inductive result (A : Type) : Type :=
  | Ok (a : A)
  | Raise (e : PyError).
Arguments Ok {A} a.
Arguments Raise {A} e.

#[global] Instance result_ret : MRet result := fun A a => Ok a.
#[global] Instance result_bind : MBind result := fun A B f m =>
  match m with
  | Ok a => f a
  | Raise e => Raise e
  end.

Definition is_ok {A} (r : result A) : bool :=
  match r with Ok _ => true | Raise _ => false end.

(** [d[key]] on a dict. *)
Definition getitem {V} (d : gmap string V) (key : string) : result V :=
  match d !! key with
  | Some v => Ok v
  | None => Raise (KeyError key)
  end.

(** [key in d] on a dict. *)
Definition has_key {V} (d : gmap string V) (key : string) : bool :=
  match d !! key with Some _ => true | None => false end.

(** [x is not None] *)
Definition not_none {A} (x : option A) : bool :=
  match x with Some _ => true | None => false end.

(** [d.get(key, dflt)] on a dict. *)
Definition get {V} (d : gmap string V) (key : string) (dflt : V) : V :=
  default dflt (d !! key).

End Py.
Export Py.

(** ** Floating-point values *)

Module Float.

Inductive fval : Type :=
  | NaN
  | Inf (neg : bool)
  | Fin (q : Q).

Abbreviation PInf := (Inf false).
Abbreviation NInf := (Inf true).

Definition is_nan (x : fval) : bool :=
  match x with NaN => true | _ => false end.

Definition is_finite (x : fval) : bool :=
  match x with Fin _ => true | _ => false end.

Definition Qneg_bool (q : Q) : bool := QMicromega.Qlt_bool q 0.

Definition fneg (x : fval) : fval :=
  match x with
  | NaN => NaN
  | Inf s => Inf (negb s)
  | Fin q => Fin (Qred (- q))
  end.

Definition fadd (x y : fval) : fval :=
  match x, y with
  | NaN, _ | _, NaN => NaN
  | Inf s, Inf t => if Bool.eqb s t then Inf s else NaN
  | Inf s, Fin _ | Fin _, Inf s => Inf s
  | Fin a, Fin b => Fin (Qred (a + b))
  end.

Definition fsub (x y : fval) : fval :=
  match x, y with
  | NaN, _ | _, NaN => NaN
  | Inf s, Inf t => if Bool.eqb s t then NaN else Inf s
  | Inf s, Fin _ => Inf s
  | Fin _, Inf t => Inf (negb t)
  | Fin a, Fin b => Fin (Qred (a - b))
  end.

(** An infinity times a finite value: the sign rule, and NaN at zero. *)
Definition inf_times (s : bool) (q : Q) : fval :=
  match q ?= 0 with
  | Eq => NaN
  | Gt => Inf s
  | Lt => Inf (negb s)
  end.

Definition fmul (x y : fval) : fval :=
  match x, y with
  | NaN, _ | _, NaN => NaN
  | Inf s, Inf t => Inf (xorb s t)
  | Inf s, Fin q | Fin q, Inf s => inf_times s q
  | Fin a, Fin b => Fin (Qred (a * b))
  end.

(** numpy's [true_divide]: division by zero yields an infinity or NaN
    (a warning, never an exception). *)
Definition fdiv (x y : fval) : fval :=
  match x, y with
  | NaN, _ | _, NaN => NaN
  | Inf _, Inf _ => NaN
  | Inf s, Fin b => Inf (xorb s (Qneg_bool b))
  | Fin _, Inf _ => Fin 0
  | Fin a, Fin b =>
      if Qeq_bool b 0 then
        match a ?= 0 with
        | Eq => NaN
        | Gt => PInf
        | Lt => NInf
        end
      else Fin (Qred (a / b))
  end.

(** Python's [/] on two floats raises on a zero divisor. *)
Definition py_div (x y : fval) : result fval :=
  match y with
  | Fin b => if Qeq_bool b 0 then Raise ZeroDivisionError else Ok (fdiv x y)
  | _ => Ok (fdiv x y)
  end.

(** Ordered comparisons: false as soon as one side is NaN. *)
Definition flt (x y : fval) : bool :=
  match x, y with
  | NaN, _ | _, NaN => false
  | Inf s, Inf t => s && negb t
  | Inf s, Fin _ => s
  | Fin _, Inf t => negb t
  | Fin a, Fin b => QMicromega.Qlt_bool a b
  end.

Definition fle (x y : fval) : bool :=
  match x, y with
  | NaN, _ | _, NaN => false
  | Inf s, Inf t => s || negb t
  | Inf s, Fin _ => s
  | Fin _, Inf t => negb t
  | Fin a, Fin b => Qle_bool a b
  end.

Definition fgt (x y : fval) : bool := flt y x.
Definition fge (x y : fval) : bool := fle y x.

Definition feqb (x y : fval) : bool :=
  match x, y with
  | Inf s, Inf t => Bool.eqb s t
  | Fin a, Fin b => Qeq_bool a b
  | _, _ => false
  end.

(** [bool.astype("float32")]. *)
Definition of_bool (b : bool) : fval := if b then Fin 1 else Fin 0.

(** [np.clip(x, lo, hi)] for finite bounds: NaN stays NaN. *)
Definition clip (x : fval) (lo hi : Q) : fval :=
  match x with
  | NaN => NaN
  | Inf s => if s then Fin lo else Fin hi
  | Fin q =>
      if QMicromega.Qlt_bool q lo then Fin lo
      else if QMicromega.Qlt_bool hi q then Fin hi
      else Fin q
  end.

(** The value is a number in the closed interval [[lo, hi]]. *)
Definition in_range (lo hi : Q) (x : fval) : Prop :=
  match x with
  | Fin q => lo <= q /\ q <= hi
  | _ => False
  end.

(** The value is a number that is not negative. *)
Definition nonneg (x : fval) : Prop := exists q, x = Fin q /\ 0 <= q.

(** The value is numerically zero. *)
Definition is_zero (x : fval) : Prop :=
  match x with
  | Fin q => q == 0
  | _ => False
  end.

End Float.
Export Float.

(** ** numpy and xarray *)

Module Np.

Definition not_nan (x : fval) : bool := negb (is_nan x).

(** [arr[mask]]: the values where the boolean mask holds. *)
Fixpoint select (mask : list bool) (vals : list fval) : list fval :=
  match mask, vals with
  | m :: mask', v :: vals' =>
      if m then v :: select mask' vals' else select mask' vals'
  | _, _ => []
  end.

Fixpoint insert_sorted (x : fval) (l : list fval) : list fval :=
  match l with
  | [] => [x]
  | y :: l' => if fle x y then x :: l else y :: insert_sorted x l'
  end.

(** Ascending order of the values (used on NaN-free data only). *)
Definition sort_values (l : list fval) : list fval :=
  foldr insert_sorted [] l.

(** Linear interpolation as numpy's quantile code writes it. *)
Definition _lerp (a b : fval) (t : Q) : fval :=
  let diff_b_a := fsub b a in
  if Qle_bool (1 # 2) t then fsub b (fmul diff_b_a (Fin (1 - t)))
  else fadd a (fmul diff_b_a (Fin t)).

(** [np.nanpercentile(data, p)] with the default linear method: NaN
    values are dropped, the rest sorted, and the value at the virtual
    index [p/100 * (n-1)] is interpolated between its two neighbours.
    A percentile outside [[0, 100]] raises [ValueError]; data without
    any number gives NaN (with a warning). *)
Definition nanpercentile (data : list fval) (p : fval) : result fval :=
  match p with
  | Fin q =>
      if Qle_bool 0 q && Qle_bool q 100 then
        let arr := sort_values (List.filter not_nan data) in
        match arr with
        | [] => Ok NaN
        | _ :: _ =>
            let n := length arr in
            let virtual := q / 100 * inject_Z (Z.of_nat (n - 1)) in
            let previous := Z.to_nat (Qfloor virtual) in
            let next := Nat.min (previous + 1) (n - 1) in
            let gamma := virtual - inject_Z (Qfloor virtual) in
            Ok (_lerp (nth previous arr NaN) (nth next arr NaN) gamma)
        end
      else Raise ValueError
  | _ => Raise ValueError
  end.

Definition fsum (l : list fval) : fval := foldl fadd (Fin 0) l.

Definition of_nat (n : nat) : fval := Fin (inject_Z (Z.of_nat n)).

(** [np.nanmean]: the mean of the numbers; NaN when there is none. *)
Definition nanmean (l : list fval) : fval :=
  let xs := List.filter not_nan l in
  fdiv (fsum xs) (of_nat (length xs)).

Definition fmax (x y : fval) : fval := if flt x y then y else x.

(** [np.nanmax]: raises on an empty array; NaN when every value is NaN. *)
Definition nanmax (l : list fval) : result fval :=
  match l with
  | [] => Raise ValueError
  | _ :: _ =>
      match List.filter not_nan l with
      | [] => Ok NaN
      | x :: xs => Ok (foldl fmax x xs)
      end
  end.


(** The values are in ascending order. *)
Definition ascending (l : list fval) : Prop :=
  StronglySorted (fun x y => fle x y = true) l.

(** [np.mean] of a boolean array: the fraction of true entries. *)
Definition mean_bool (l : list bool) : fval :=
  fdiv (of_nat (length (List.filter id l))) (of_nat (length l)).

End Np.
Export Np.

(** ** Georeferenced rasters *)

Record Affine : Type := mkAffine {
  aff_a : Q; aff_b : Q; aff_c : Q;
  aff_d : Q; aff_e : Q; aff_f : Q
}.

(** [transform * (col, row)]. *)
Definition affine_apply (t : Affine) (col row : Q) : Q * Q :=
  (aff_a t * col + aff_b t * row + aff_c t,
   aff_d t * col + aff_e t * row + aff_f t).

Record Grid : Type := mkGrid {
  height : nat;
  width : nat;
  transform : Affine;
  crs : option string
}.

Record DataArray : Type := mkDA {
  values : list fval;
  rio : Grid
}.

(** [da.copy(data=vs)]. *)
Definition copy_data (da : DataArray) (vs : list fval) : DataArray :=
  {| values := vs; rio := rio da |}.

(** A raster combined with a scalar, pixel by pixel. *)
Definition da_map (op : fval -> fval) (da : DataArray) : DataArray :=
  copy_data da (op <$> values da).

(** Two rasters of one grid combined pixel by pixel. *)
Definition da_zip (op : fval -> fval -> fval) (x y : DataArray) : DataArray :=
  copy_data x (zip_with op (values x) (values y)).

(** [rio.resolution()]. *)
Definition resolution (g : Grid) : Q * Q :=
  (aff_a (transform g), aff_e (transform g)).

(** ** scoring.py *)

Module Scoring.

Local Open Scope string_scope.

(** The [params] dict: its numeric entries, its string entries, and the
    optional nested ["weights"] mapping. *)
Record Params : Type := mkParams {
  numeric : gmap string fval;
  textual : gmap string string;
  weights_entry : option (gmap string fval)
}.

Record Meta : Type := mkMeta {
  mode : string;
  weights : gmap string fval;
  thresholds : gmap string fval
}.

(** The second component of a scorer's result: the metadata, and the
    intermediate layers by name ([None] for a layer stored as Python
    [None]). *)
Record ScoreInfo : Type := mkInfo {
  meta : Meta;
  layers : gmap string (option DataArray)
}.

Definition _percentile_scale (arr : DataArray) (p_low p_high : fval)
  : result DataArray :=
  let data := values arr in
  lo ← nanpercentile data p_low;
  hi ← nanpercentile data p_high;
  let scaled :=
    if feqb (fsub hi lo) (Fin 0) then (fun _ => Fin 0) <$> data
    else (fun x => fdiv (fsub x lo) (fsub hi lo)) <$> data in
  let scaled := (fun x => clip x 0 1) <$> scaled in
  Ok (copy_data arr scaled).


(** [1.0 - (layer / maximum)], clipped to [[0, 1]]. *)
Definition proximity (maximum : fval) (layer : DataArray) : DataArray :=
  let s := da_map (fun x => fsub (Fin 1) (fdiv x maximum)) layer in
  da_map (fun x => clip x 0 1) s.

(** [(ndwi < ndwi_water_max).astype("float32")]. *)
Definition water_mask_of (ndwi : DataArray) (ndwi_water_max : fval)
  : DataArray :=
  da_map (fun x => of_bool (flt x ndwi_water_max)) ndwi.


Definition hardrock_default_weights : gmap string fval :=
  list_to_map
    [("lineaments", Fin 0.45); ("relief", Fin 0.20);
     ("exposure", Fin 0.20); ("geology_boost", Fin 0.15)].

(** The weights applied by [hardrock_score], in the order lineaments,
    relief, exposure, geology boost (lines 120-132 of scoring.py). *)
Definition hardrock_weights (weights : gmap string fval)
    (geology_present : bool) : result (fval * fval * fval * fval) :=
  if negb geology_present then
    wl ← getitem weights "lineaments";
    wr ← getitem weights "relief";
    we ← getitem weights "exposure";
    let total := fadd (fadd wl wr) we in
    w_line ← py_div wl total;
    w_relief ← py_div wr total;
    w_exposure ← py_div we total;
    Ok (w_line, w_relief, w_exposure, Fin 0)
  else
    w_line ← getitem weights "lineaments";
    w_relief ← getitem weights "relief";
    w_exposure ← getitem weights "exposure";
    w_geo ← getitem weights "geology_boost";
    Ok (w_line, w_relief, w_exposure, w_geo).

Definition hardrock_score
    (ndvi ndwi slope lineaments : DataArray)
    (geology_mask : option DataArray)
    (params : Params) : result (DataArray * ScoreInfo) :=
  let th_lineament_percentile :=
    get (numeric params) "lineament_percentile" (Fin 70) in
  let th_slope_min := get (numeric params) "slope_min" (Fin 2) in
  let th_slope_max := get (numeric params) "slope_max" (Fin 25) in
  let th_ndvi_max := get (numeric params) "ndvi_max" (Fin 0.4) in
  let th_ndwi_water_max := get (numeric params) "ndwi_water_max" (Fin 0.1) in
  let thresholds : gmap string fval :=
    list_to_map
      [("lineament_percentile", th_lineament_percentile);
       ("slope_min", th_slope_min); ("slope_max", th_slope_max);
       ("ndvi_max", th_ndvi_max);
       ("ndwi_water_max", th_ndwi_water_max)] in
  let weights := default hardrock_default_weights (weights_entry params) in
  lineament_score ←
    _percentile_scale lineaments th_lineament_percentile (Fin 98);
  let relief_score :=
    da_map (fun x => of_bool (fge x th_slope_min && fle x th_slope_max))
      slope in
  let exposure_score := proximity th_ndvi_max ndvi in
  let geology_score := geology_mask in
  '(w_line, w_relief, w_exposure, w_geo) ←
    hardrock_weights weights (not_none geology_score);
  let score :=
    da_zip fadd
      (da_zip fadd
         (da_map (fun x => fmul x w_line) lineament_score)
         (da_map (fun x => fmul x w_relief) relief_score))
      (da_map (fun x => fmul x w_exposure) exposure_score) in
  let score :=
    match geology_score with
    | Some g => da_zip fadd score (da_map (fun x => fmul x w_geo) g)
    | None => score
    end in
  let water_mask := water_mask_of ndwi th_ndwi_water_max in
  let score := da_zip fmul score water_mask in
  let score := da_map (fun x => clip x 0 1) score in
  let meta :=
    {| mode := "hardrock";
       weights :=
         list_to_map
           [("lineaments", w_line); ("relief", w_relief);
            ("exposure", w_exposure); ("geology_boost", w_geo)];
       thresholds := thresholds |} in
  let layers : gmap string (option DataArray) :=
    list_to_map
      [("lineament_score", Some lineament_score);
       ("relief_score", Some relief_score);
       ("exposure_score", Some exposure_score);
       ("geology_score", geology_score);
       ("water_mask", Some water_mask)] in
  Ok (score, {| meta := meta; layers := layers |}).

(** The pixel buffer of the score a scorer returned. *)
Definition score_values (r : result (DataArray * ScoreInfo))
  : result (list fval) :=
  '(score, _) ← r; Ok (values score).

End Scoring.
Export Scoring.

(** ** The geospatial libraries

    shapely, pyproj, geopandas, rasterio, scipy and scikit-image are not
    part of the repository.  The pipeline is written against the
    interface below, and everything proved about it holds for every
    implementation of that interface (where a property needs a contract
    of a library, the contract is a stated hypothesis). *)

Class GeoLib : Type := {
  (** a shapely geometry *)
  geom : Type;
  (** [geom.is_empty] *)
  is_empty : geom -> bool;
  (** [shapely.geometry.Polygon(ring)] *)
  Polygon : list (Q * Q) -> geom;
  (** [geom.centroid], as [(x, y)] *)
  centroid : geom -> Q * Q;
  (** [a.distance(b)], planar *)
  distance : geom -> geom -> fval;
  (** [a.intersects(b)] *)
  intersects : geom -> geom -> bool;
  (** [unary_union] of a geometry column (missing rows are skipped) *)
  unary_union : list (option geom) -> geom;
  (** a pyproj transformer from one CRS to another, applied to a geometry *)
  reproject : string -> string -> geom -> geom;
  (** the signed area in square metres of
      [pyproj.Geod(ellps="WGS84").geometry_area_perimeter] *)
  geod_area : geom -> Q;
  (** [rasterio.features.rasterize] of shapes burnt with value 1 over a
      fill of 0: true where a shape is burnt *)
  rasterize : list geom -> Grid -> list bool;
  (** [rasterio.features.geometry_mask(..., invert=True)] *)
  geometry_mask : geom -> Grid -> list bool;
  (** [rasterio.features.shapes(mask, mask=mask, transform)], each
      geometry already passed through [shapely.geometry.shape] *)
  shapes : list bool -> Grid -> list (geom * Z);
  (** [skimage.morphology.remove_small_objects(mask, min_size)] *)
  remove_small_objects : list bool -> Grid -> Z -> list bool;
  (** [scipy.ndimage.distance_transform_edt] of an array given by its
      non-zero pixels: the distance, in pixels, to the nearest zero *)
  distance_transform_edt : list bool -> Grid -> list fval
}.

(** A [geopandas.GeoDataFrame]: its CRS and its geometry column. *)
Record GeoDataFrame `{GeoLib} : Type := mkGDF {
  gdf_crs : option string;
  gdf_geometry : list (option geom)
}.

Section Geopandas.
Context `{GeoLib}.

(** [gdf.empty] *)
Definition gdf_empty (gdf : GeoDataFrame) : bool :=
  match gdf_geometry gdf with [] => true | _ :: _ => false end.

(** [gdf.to_crs(dst)]: a frame without CRS cannot be transformed. *)
Definition to_crs (gdf : GeoDataFrame) (dst : string) : result GeoDataFrame :=
  match gdf_crs gdf with
  | None => Raise ValueError
  | Some src =>
      Ok {| gdf_crs := Some dst;
            gdf_geometry := option_map (reproject src dst) <$> gdf_geometry gdf |}
  end.

(** [[geom for geom in gdf.geometry
       if geom is not None and not geom.is_empty]] *)
Definition present_geometries (gdf : GeoDataFrame) : list geom :=
  List.filter (fun g => negb (is_empty g)) (omap id (gdf_geometry gdf)).

End Geopandas.

(** ** features.py *)

Module Features.
Section Features.
Context `{GeoLib}.

Definition sentinel_raster (ref_da : DataArray) : DataArray :=
  let g := rio ref_da in
  copy_data ref_da (replicate (height g * width g) (Fin 1000000)).

Definition distance_raster (lines_gdf : option GeoDataFrame)
    (ref_da : DataArray) : result DataArray :=
  let grid := rio ref_da in
  match crs grid with
  | None => Ok (sentinel_raster ref_da)
  | Some crs =>
      match lines_gdf with
      | None => Ok (sentinel_raster ref_da)
      | Some lines_gdf =>
          if gdf_empty lines_gdf then Ok (sentinel_raster ref_da)
          else
            gdf_proj ← to_crs lines_gdf crs;
            match present_geometries gdf_proj with
            | [] => Ok (sentinel_raster ref_da)
            | shapes =>
                let raster := rasterize shapes grid in
                let dist_px := distance_transform_edt (negb <$> raster) grid in
                let '(xres, yres) := resolution grid in
                let dist_m := (fun d => fmul d (Fin (Qabs xres))) <$> dist_px in
                Ok (copy_data ref_da dist_m)
            end
      end
  end.

End Features.
End Features.
Export Features.

(** ** The standard library pieces used by targets.py *)

Module PyStd.

(** [int(x)] on a float: truncation toward zero; NaN and the infinities
    raise. *)
Definition py_int (x : fval) : result Z :=
  match x with
  | NaN => Raise ValueError
  | Inf _ => Raise OverflowError
  | Fin q => Ok (Z.quot (Qnum q) (Z.pos (Qden q)))
  end.

(** The format specification [{z:02d}]. *)
Definition format_02d (z : Z) : string :=
  if ((0 <=? z) && (z <? 10))%Z then "0" +:+ pretty z else pretty z.

(** The operating system's randomness, as the sequence of the 16-byte
    draws still to come (each draw read as an integer). *)
Definition entropy : Type := nat -> Z.

(** [uuid.uuid4()]: sixteen random bytes with the variant and version
    bits forced. *)
Definition uuid4 (rng : entropy) : Z * entropy :=
  let int := Z.land (rng 0%nat) (Z.ones 128) in
  let int := Z.ldiff int (Z.shiftl 0xc000 48) in
  let int := Z.lor int (Z.shiftl 0x8000 48) in
  let int := Z.ldiff int (Z.shiftl 0xf000 64) in
  let int := Z.lor int (Z.shiftl 4 76) in
  (int, fun n => rng (S n)).

Section Sort.
Context {A : Type} (lt : A -> A -> bool).

Fixpoint insert_desc (x : A) (l : list A) : list A :=
  match l with
  | [] => [x]
  | y :: l' => if lt x y then y :: insert_desc x l' else x :: l
  end.

(** [l.sort(key=..., reverse=True)], with [lt] the order of the keys.
    Python's sort is stable also in reverse: the result is descending
    and elements with equal keys keep their original order.  Whenever
    [lt] is a strict weak order this determines the result, and the
    insertion sort below computes it. *)
Definition sort_reverse (l : list A) : list A := foldr insert_desc [] l.

End Sort.

End PyStd.
Export PyStd.

(** ** targets.py *)

Module Targets.

Local Open Scope string_scope.

Record Target `{GeoLib} : Type := mkTarget {
  id : Z;
  geometry : geom;
  area_km2 : Q;
  target_centroid : Q * Q;
  mean_score : fval;
  max_score : fval;
  distance_to_road_m : option fval;
  distance_to_river_m : option fval;
  evidence : gmap string fval;
  evidence_summary : list string
}.

Section Targets.
Context `{GeoLib}.

Definition _geom_mask (g : geom) (ref_da : DataArray) : list bool :=
  geometry_mask g (rio ref_da).

Definition _area_km2 (g : geom) : Q := Qabs (geod_area g) / 1000000.

Definition _utm_crs_from_lonlat (lon lat : Q) : string :=
  let zone := (Z.quot (Qnum ((lon + 180) / 6)) (Z.pos (Qden ((lon + 180) / 6))) + 1)%Z in
  let hemisphere := if Qle_bool 0 lat then "326" else "327" in
  "EPSG:" +:+ hemisphere +:+ format_02d zone.

(** The result is [None] for Python's [None]. *)
Definition _distance_to_lines (g : geom) (gdf : option GeoDataFrame)
  : result (option fval) :=
  match gdf with
  | None => Ok None
  | Some gdf =>
      if gdf_empty gdf then Ok None
      else
        let '(cx, cy) := centroid g in
        let utm_crs := _utm_crs_from_lonlat cx cy in
        let geom_proj := reproject "EPSG:4326" utm_crs g in
        gdf_proj ← to_crs gdf utm_crs;
        let union := unary_union (gdf_geometry gdf_proj) in
        Ok (Some (distance geom_proj union))
  end.

Definition _mean (layers : gmap string DataArray) (poly_mask : list bool)
    (name : string) : result fval :=
  arr ← getitem layers name;
  Ok (nanmean (select poly_mask (values arr))).

Definition _pct (layers : gmap string DataArray) (poly_mask : list bool)
    (name op : string) (thr : fval) : result fval :=
  arr ← getitem layers name;
  let vals := select poly_mask (values arr) in
  match vals with
  | [] => Ok (Fin 0)
  | _ :: _ =>
      if String.eqb op "<" then Ok (mean_bool ((fun v => flt v thr) <$> vals))
      else if String.eqb op "<=" then Ok (mean_bool ((fun v => fle v thr) <$> vals))
      else if String.eqb op ">" then Ok (mean_bool ((fun v => fgt v thr) <$> vals))
      else if String.eqb op ">=" then Ok (mean_bool ((fun v => fge v thr) <$> vals))
      else Ok (Fin 0)
  end.

Definition compute_evidence (poly_mask : list bool)
    (layers : gmap string DataArray) (thresholds : gmap string fval)
    (mode : string) : result (gmap string fval) :=
  if String.eqb mode "coastal" then
    ndvi_mean ← _mean layers poly_mask "ndvi";
    ndwi_mean ← _mean layers poly_mask "ndwi";
    bsi_mean ← _mean layers poly_mask "bsi";
    slope_mean ← _mean layers poly_mask "slope";
    dist_coast_mean_m ← _mean layers poly_mask "dist_coast";
    dist_river_mean_m ← _mean layers poly_mask "dist_river";
    slope_max ← getitem thresholds "slope_max";
    pct_low_slope ← _pct layers poly_mask "slope" "<=" slope_max;
    ndvi_max ← getitem thresholds "ndvi_max";
    pct_low_ndvi ← _pct layers poly_mask "ndvi" "<=" ndvi_max;
    bsi_threshold_value ← getitem thresholds "bsi_threshold_value";
    pct_high_bsi ← _pct layers poly_mask "bsi" ">=" bsi_threshold_value;
    coast_max_m ← getitem thresholds "coast_max_m";
    pct_near_coast ← _pct layers poly_mask "dist_coast" "<=" coast_max_m;
    river_max_m ← getitem thresholds "river_max_m";
    pct_near_river ← _pct layers poly_mask "dist_river" "<=" river_max_m;
    Ok (list_to_map
          [("ndvi_mean", ndvi_mean); ("ndwi_mean", ndwi_mean);
           ("bsi_mean", bsi_mean); ("slope_mean", slope_mean);
           ("dist_coast_mean_m", dist_coast_mean_m);
           ("dist_river_mean_m", dist_river_mean_m);
           ("pct_low_slope", pct_low_slope);
           ("pct_low_ndvi", pct_low_ndvi);
           ("pct_high_bsi", pct_high_bsi);
           ("pct_near_coast", pct_near_coast);
           ("pct_near_river", pct_near_river)])
  else
    slope ← getitem layers "slope";
    let vals := select poly_mask (values slope) in
    pct_relief ←
      match vals with
      | [] => Ok (Fin 0)
      | _ :: _ =>
          slope_min ← getitem thresholds "slope_min";
          slope_max ← getitem thresholds "slope_max";
          Ok (mean_bool
                ((fun v => fge v slope_min && fle v slope_max) <$> vals))
      end;
    ndvi_mean ← _mean layers poly_mask "ndvi";
    ndwi_mean ← _mean layers poly_mask "ndwi";
    slope_mean ← _mean layers poly_mask "slope";
    lineament_mean ← _mean layers poly_mask "lineaments";
    geology_mask_mean ←
      (if has_key layers "geology_mask"
       then _mean layers poly_mask "geology_mask" else Ok (Fin 0));
    lineament_threshold_value ← getitem thresholds "lineament_threshold_value";
    pct_lineament_high ←
      _pct layers poly_mask "lineaments" ">=" lineament_threshold_value;
    ndvi_max ← getitem thresholds "ndvi_max";
    pct_low_ndvi ← _pct layers poly_mask "ndvi" "<=" ndvi_max;
    pct_geology_match ←
      (if has_key layers "geology_mask"
       then _pct layers poly_mask "geology_mask" ">=" (Fin 0.5)
       else Ok (Fin 0));
    Ok (list_to_map
          [("ndvi_mean", ndvi_mean); ("ndwi_mean", ndwi_mean);
           ("slope_mean", slope_mean); ("lineament_mean", lineament_mean);
           ("geology_mask_mean", geology_mask_mean);
           ("pct_lineament_high", pct_lineament_high);
           ("pct_relief", pct_relief);
           ("pct_low_ndvi", pct_low_ndvi);
           ("pct_geology_match", pct_geology_match)]).

(** The ordered candidate list of [evidence_chips], before sorting. *)
Definition chip_candidates (evidence : gmap string fval) (mode : string)
  : list (string * fval) :=
  if String.eqb mode "coastal" then
    [("Near coastline (<30 km)", get evidence "pct_near_coast" (Fin 0));
     ("Low slope (<=5°)", get evidence "pct_low_slope" (Fin 0));
     ("Low vegetation (NDVI<=0.2)", get evidence "pct_low_ndvi" (Fin 0));
     ("High sandiness (BSI top 30%)", get evidence "pct_high_bsi" (Fin 0));
     ("Near rivers", get evidence "pct_near_river" (Fin 0))]
  else
    [("High lineament density", get evidence "pct_lineament_high" (Fin 0));
     ("Moderate relief (2–25°)", get evidence "pct_relief" (Fin 0));
     ("Low vegetation (NDVI<=0.4)", get evidence "pct_low_ndvi" (Fin 0))]
    ++ (if fgt (get evidence "pct_geology_match" (Fin 0)) (Fin 0)
        then [("Favorable lithology match",
               get evidence "pct_geology_match" (Fin 0))]
        else []).

Definition metric_lt (x y : string * fval) : bool := flt (snd x) (snd y).

Definition evidence_chips (evidence : gmap string fval) (mode : string)
  : list string :=
  let candidates := chip_candidates evidence mode in
  let candidates := sort_reverse metric_lt candidates in
  fst <$> List.filter (fun c => fgt (snd c) (Fin 0)) (take 3 candidates).

(** Python's [<] on the sort keys [(mean_score, area_km2)]. *)
Definition target_key_lt (s t : Target) : bool :=
  if feqb (mean_score s) (mean_score t)
  then QMicromega.Qlt_bool (area_km2 s) (area_km2 t)
  else flt (mean_score s) (mean_score t).

Section Loop.
Variables (score_da : DataArray) (min_area_km2 : fval) (mode : string)
  (evidence_layers : gmap string DataArray) (thresholds : gmap string fval)
  (roads_gdf rivers_gdf : option GeoDataFrame).

(** The body of the [for geom, val in shapes] loop, threading the
    randomness consumed by [uuid.uuid4()]. *)
Fixpoint targets_loop (shapes : list (geom * Z)) (rng : entropy)
  : result (list Target * entropy) :=
  match shapes with
  | [] => Ok ([], rng)
  | (poly, val) :: shapes' =>
      if negb (val =? 1)%Z then targets_loop shapes' rng
      else
        let area_km2 := _area_km2 poly in
        if flt (Fin area_km2) min_area_km2 then targets_loop shapes' rng
        else
          let poly_mask := _geom_mask poly score_da in
          let poly_scores := select poly_mask (values score_da) in
          let mean_score := nanmean poly_scores in
          max_score ← nanmax poly_scores;
          evidence ← compute_evidence poly_mask evidence_layers thresholds mode;
          let chips := evidence_chips evidence mode in
          let '(uuid, rng) := uuid4 rng in
          d_road ← _distance_to_lines poly roads_gdf;
          d_river ← _distance_to_lines poly rivers_gdf;
          let target :=
            {| id := uuid; geometry := poly; area_km2 := area_km2;
               target_centroid := centroid poly;
               mean_score := mean_score; max_score := max_score;
               distance_to_road_m := d_road;
               distance_to_river_m := d_river;
               evidence := evidence; evidence_summary := chips |} in
          '(targets, rng) ← targets_loop shapes' rng;
          Ok (target :: targets, rng)
  end.

End Loop.

(** The pixel area in km² estimated by [extract_targets]. *)
Definition pixel_area_km2 (grid : Grid) : Q :=
  let '(xres, yres) := resolution grid in
  if bool_decide (crs grid = Some "EPSG:4326") then
    let '(x0, y0) := affine_apply (transform grid) 0 0 in
    let '(x1, y1) := affine_apply (transform grid) 1 1 in
    _area_km2 (Polygon [(x0, y0); (x1, y0); (x1, y1); (x0, y1); (x0, y0)])
  else Qabs (xres * yres) / 1000000.

(** The mask handed to the vectorizer: the thresholded score with the
    small objects removed. *)
Definition cleaned_mask (score_da : DataArray) (threshold min_area_km2 : fval)
  : result (list bool) :=
  let score := values score_da in
  let mask := (fun s => fge s threshold) <$> score in
  ratio ← py_div min_area_km2 (Fin (pixel_area_km2 (rio score_da)));
  n ← py_int ratio;
  let min_size_px := Z.max n 1 in
  Ok (remove_small_objects mask (rio score_da) min_size_px).

Definition extract_targets (score_da : DataArray)
    (threshold min_area_km2 : fval) (mode : string)
    (evidence_layers : gmap string DataArray)
    (thresholds : gmap string fval)
    (roads_gdf rivers_gdf : option GeoDataFrame)
    (rng : entropy) : result (list Target * entropy) :=
  mask ← cleaned_mask score_da threshold min_area_km2;
  let shapes := shapes mask (rio score_da) in
  '(targets, rng) ←
    targets_loop score_da min_area_km2 mode evidence_layers thresholds
      roads_gdf rivers_gdf shapes rng;
  Ok (sort_reverse target_key_lt targets, rng).

End Targets.
End Targets.
Export Targets.

(** ** run.py *)

Module Run.

Local Open Scope string_scope.

(** [str.lower], [" ".join] and [in] on (ASCII) strings. *)
Definition lower_char (c : ascii) : ascii :=
  let n := nat_of_ascii c in
  if ((65 <=? n) && (n <=? 90))%nat then ascii_of_nat (n + 32) else c.

Fixpoint lower (s : string) : string :=
  match s with
  | EmptyString => EmptyString
  | String c s' => String (lower_char c) (lower s')
  end.

Fixpoint join (sep : string) (l : list string) : string :=
  match l with
  | [] => ""
  | [x] => x
  | x :: l' => x +:+ sep +:+ join sep l'
  end.

(** [k in text] *)
Fixpoint contains (k text : string) : bool :=
  String.prefix k text ||
  match text with
  | EmptyString => false
  | String _ text' => contains k text'
  end.

Definition keywords : list string :=
  ["carbonatite"; "alkaline"; "syenite"; "ijolite"; "nepheline";
   "granite pegmatite"; "ree"; "monazite"; "bastnaesite"].

(** The ["properties"] member of a GeoJSON feature: missing, JSON
    [null], or an object, given by its values in order, each value by
    its [str()] text. *)
Inductive Properties : Type :=
  | PropsMissing
  | PropsNull
  | PropsDict (vals : list string).

(** A GeoJSON feature; [feat_geometry] is [None] when the member is
    missing or [null]. *)
Record Feature `{GeoLib} : Type := mkFeature {
  properties : Properties;
  feat_geometry : option geom
}.

Section Run.
Context `{GeoLib}.

(** [text] of a feature, as the loop of [_rasterize_geology] builds it:
    [feat.get("properties", {})] is [None] for a JSON [null], and
    [None.values()] raises. *)
Definition feature_text (feat : Feature) : result string :=
  match properties feat with
  | PropsMissing => Ok (lower (join " " []))
  | PropsNull => Raise AttributeError
  | PropsDict vals => Ok (lower (join " " vals))
  end.

Definition matches_keyword (text : string) : bool :=
  existsb (fun k => contains k text) keywords.

Fixpoint geology_records (features : list Feature) : result (list geom) :=
  match features with
  | [] => Ok []
  | feat :: features' =>
      text ← feature_text feat;
      records ← geology_records features';
      if matches_keyword text then
        match feat_geometry feat with
        | Some g => Ok (g :: records)
        | None => Ok records
        end
      else Ok records
  end.

(** [geology_geojson] is the uploaded dict, given by its ["features"]
    list (empty when the key is missing or the dict is empty), or [None]. *)
Definition _rasterize_geology (geology_geojson : option (list Feature))
    (ref_da : DataArray) : result (option DataArray) :=
  match geology_geojson with
  | None => Ok None
  | Some features =>
      records ← geology_records features;
      match records with
      | [] => Ok None
      | _ :: _ =>
          let gdf :=
            {| gdf_crs := Some "EPSG:4326";
               gdf_geometry := Some <$> records |} in
          gdf ←
            match crs (rio ref_da) with
            | Some c => to_crs gdf c
            | None => Ok gdf
            end;
          match present_geometries gdf with
          | [] => Ok None
          | shapes =>
              let mask := rasterize shapes (rio ref_da) in
              Ok (Some (copy_data ref_da (of_bool <$> mask)))
          end
      end
  end.

Record RunResult : Type := mkRunResult {
  targets : list Target;
  score_meta : Meta
}.

(** The hardrock path of [run_pipeline] from the geology mask to the
    targets (lines 198, 223-233 and 240-258 of run.py); the rasters
    are the layers computed earlier in the run. *)
Definition run_hardrock (ndvi ndwi slope lineaments ref_da : DataArray)
    (geology_geojson : option (list Feature)) (params : Params)
    (roads rivers : option GeoDataFrame) (rng : entropy)
  : result (RunResult * entropy) :=
  geology_mask ← _rasterize_geology geology_geojson ref_da;
  '(score, info) ←
    hardrock_score ndvi ndwi slope lineaments geology_mask params;
  let thresholds := thresholds (meta info) in
  lineament_percentile ← getitem thresholds "lineament_percentile";
  lineament_threshold_value ←
    nanpercentile (values lineaments) lineament_percentile;
  let thresholds :=
    <["lineament_threshold_value" := lineament_threshold_value]> thresholds in
  let evidence_layers : gmap string DataArray :=
    list_to_map
      [("ndvi", ndvi); ("ndwi", ndwi); ("slope", slope);
       ("lineaments", lineaments)] in
  let evidence_layers :=
    match geology_mask with
    | Some g => <["geology_mask" := g]> evidence_layers
    | None => evidence_layers
    end in
  threshold_value ←
    (if String.eqb (get (textual params) "threshold_method" "percentile")
          "fixed"
     then Ok (get (numeric params) "fixed_threshold" (Fin 0.7))
     else nanpercentile (values score)
            (get (numeric params) "target_percentile" (Fin 95)));
  let min_area_km2 := get (numeric params) "min_area_km2" (Fin 0.1) in
  '(targets, rng) ←
    extract_targets score threshold_value min_area_km2 "hardrock"
      evidence_layers thresholds roads rivers rng;
  let score_meta_clean :=
    {| mode := mode (meta info); weights := weights (meta info);
       thresholds := thresholds |} in
  Ok ({| targets := targets; score_meta := score_meta_clean |}, rng).

End Run.
End Run.
Export Run.

(** ** A small implementation of the geospatial libraries

    Geometries are finite unions of axis-parallel boxes, all coordinate
    systems share their coordinates, distances are Chebyshev distances
    (no square roots) and areas are planar, at 111 km per unit.  On
    unions of pixel cells, which is what the vectorizer produces, this
    behaves as the real libraries do up to those simplifications.  It
    serves to run the pipeline on concrete inputs; the properties
    below do not depend on it. *)

Module GridWorld.

Record Box : Type := mkBox { xmin : Q; ymin : Q; xmax : Q; ymax : Q }.

Definition qmin (a b : Q) : Q := if Qle_bool a b then a else b.
Definition qmax (a b : Q) : Q := if Qle_bool a b then b else a.

Definition box_of_points (p q : Q * Q) : Box :=
  {| xmin := qmin (fst p) (fst q); ymin := qmin (snd p) (snd q);
     xmax := qmax (fst p) (fst q); ymax := qmax (snd p) (snd q) |}.

Definition box_extend (b : Box) (p : Q * Q) : Box :=
  {| xmin := qmin (xmin b) (fst p); ymin := qmin (ymin b) (snd p);
     xmax := qmax (xmax b) (fst p); ymax := qmax (ymax b) (snd p) |}.

Definition box_join (a b : Box) : Box :=
  {| xmin := qmin (xmin a) (xmin b); ymin := qmin (ymin a) (ymin b);
     xmax := qmax (xmax a) (xmax b); ymax := qmax (ymax a) (ymax b) |}.

(** The polygon of a ring: its bounding box. *)
Definition gw_polygon (ring : list (Q * Q)) : list Box :=
  match ring with
  | [] => []
  | p :: ring' => [foldl box_extend (box_of_points p p) ring']
  end.

Definition gw_centroid (g : list Box) : Q * Q :=
  match g with
  | [] => (0, 0)
  | b :: g' =>
      let bb := foldl box_join b g' in
      ((xmin bb + xmax bb) / 2, (ymin bb + ymax bb) / 2)
  end.

(** The gap between two intervals (0 when they meet). *)
Definition gap (lo1 hi1 lo2 hi2 : Q) : Q :=
  qmax 0 (qmax (lo2 - hi1) (lo1 - hi2)).

Definition box_distance (a b : Box) : Q :=
  qmax (gap (xmin a) (xmax a) (xmin b) (xmax b))
       (gap (ymin a) (ymax a) (ymin b) (ymax b)).

Definition box_meets (a b : Box) : bool :=
  Qeq_bool (box_distance a b) 0.

Definition gw_distance (g h : list Box) : fval :=
  match list_prod g h with
  | [] => NaN
  | (a, b) :: pairs =>
      Fin (Qred (foldl (fun d ab => qmin d (box_distance (fst ab) (snd ab)))
                   (box_distance a b) pairs))
  end.

Definition gw_intersects (g h : list Box) : bool :=
  existsb (fun ab => box_meets (fst ab) (snd ab)) (list_prod g h).

Definition gw_union (col : list (option (list Box))) : list Box :=
  concat (omap (fun g => g) col).

(** Planar area in square metres, at 111 km per unit. *)
Definition gw_area (g : list Box) : Q :=
  foldr (fun b acc =>
           (xmax b - xmin b) * (ymax b - ymin b) * 12321000000 + acc)
    0 g.

(** The pixels of a grid, as [(row, col)] in raster order. *)
Definition pixels (grid : Grid) : list (nat * nat) :=
  r ← seq 0 (height grid); (fun c => (r, c)) <$> seq 0 (width grid).

Definition nat_q (n : nat) : Q := inject_Z (Z.of_nat n).

Definition cell (grid : Grid) (p : nat * nat) : Box :=
  box_of_points
    (affine_apply (transform grid) (nat_q (snd p)) (nat_q (fst p)))
    (affine_apply (transform grid) (nat_q (snd p) + 1) (nat_q (fst p) + 1)).

Definition cell_center (grid : Grid) (p : nat * nat) : Box :=
  let c := affine_apply (transform grid)
             (nat_q (snd p) + (1 # 2)) (nat_q (fst p) + (1 # 2)) in
  box_of_points c c.

(** A shape is burnt into every pixel whose cell it meets. *)
Definition gw_rasterize (shapes : list (list Box)) (grid : Grid)
  : list bool :=
  (fun p => existsb (fun g => gw_intersects g [cell grid p]) shapes)
  <$> pixels grid.

(** A pixel is inside a geometry when its center is. *)
Definition gw_geometry_mask (g : list Box) (grid : Grid) : list bool :=
  (fun p => gw_intersects g [cell_center grid p]) <$> pixels grid.

(** Two pixels share an edge. *)
Definition adjacent (p q : nat * nat) : bool :=
  ((fst p =? fst q) && ((snd p =? S (snd q)) || (snd q =? S (snd p))))%nat
  || ((snd p =? snd q) && ((fst p =? S (fst q)) || (fst q =? S (fst p))))%nat.

(** Grow a component by the pixels adjacent to it until none is left. *)
Fixpoint grow (fuel : nat) (comp rest : list (nat * nat))
  : list (nat * nat) * list (nat * nat) :=
  match fuel with
  | O => (comp, rest)
  | S fuel' =>
      let near := List.filter (fun p => existsb (adjacent p) comp) rest in
      let far :=
        List.filter (fun p => negb (existsb (adjacent p) comp)) rest in
      match near with
      | [] => (comp, rest)
      | _ :: _ => grow fuel' (comp ++ near) far
      end
  end.

(** The edge-connected components of a set of pixels. *)
Fixpoint components (fuel : nat) (pxs : list (nat * nat))
  : list (list (nat * nat)) :=
  match fuel, pxs with
  | S fuel', p :: rest =>
      let '(comp, rest') := grow (length rest) [p] rest in
      comp :: components fuel' rest'
  | _, _ => []
  end.

(** The pixels where the mask holds. *)
Definition true_pixels (mask : list bool) (grid : Grid) : list (nat * nat) :=
  snd <$> List.filter fst (zip mask (pixels grid)).

Definition mask_components (mask : list bool) (grid : Grid)
  : list (list (nat * nat)) :=
  let pxs := true_pixels mask grid in
  components (length pxs) pxs.

(** One polygon per component: the union of its pixel cells. *)
Definition gw_shapes (mask : list bool) (grid : Grid)
  : list (list Box * Z) :=
  (fun comp : list (nat * nat) => (cell grid <$> comp, 1%Z))
  <$> mask_components mask grid.

Definition pixel_eqb (p q : nat * nat) : bool :=
  ((fst p =? fst q) && (snd p =? snd q))%nat.

Definition gw_remove_small_objects (mask : list bool) (grid : Grid)
    (min_size : Z) : list bool :=
  let kept :=
    concat (List.filter (fun comp => (min_size <=? Z.of_nat (length comp))%Z)
              (mask_components mask grid)) in
  (fun bp => fst bp && existsb (pixel_eqb (snd bp)) kept)
  <$> zip mask (pixels grid).

(** The square root rounded down to six decimals. *)
Definition sqrt_down (n : Z) : Q :=
  Qred (Qmake (Z.sqrt (n * 1000000000000)) 1000000).

Definition sq_dist (p q : nat * nat) : Z :=
  let dr := (Z.of_nat (fst p) - Z.of_nat (fst q))%Z in
  let dc := (Z.of_nat (snd p) - Z.of_nat (snd q))%Z in
  (dr * dr + dc * dc)%Z.

(** The pixel with the given index in raster order. *)
Definition pixel_at (grid : Grid) (i : nat) : nat * nat :=
  ((i / width grid)%nat, (i mod width grid)%nat).

(** The distance from each non-zero pixel to the nearest zero pixel; a
    raster without any zero pixel gets [height + width] everywhere. *)
Definition gw_edt (nonzero : list bool) (grid : Grid) : list fval :=
  let zeros :=
    (fun ib : nat * bool => pixel_at grid (fst ib))
    <$> List.filter (fun ib : nat * bool => negb (snd ib))
          (imap (fun i b => (i, b)) nonzero) in
  imap
    (fun i (b : bool) =>
       if negb b then Fin 0
       else match zeros with
            | [] => Fin (nat_q (height grid + width grid))
            | z :: zs =>
                Fin (sqrt_down
                       (foldl (fun d q => Z.min d (sq_dist (pixel_at grid i) q))
                          (sq_dist (pixel_at grid i) z) zs))
            end)
    nonzero.

#[export] Instance grid_world : GeoLib := {|
  geom := list Box;
  is_empty := fun g => match g with [] => true | _ :: _ => false end;
  Polygon := gw_polygon;
  centroid := gw_centroid;
  distance := gw_distance;
  intersects := gw_intersects;
  unary_union := gw_union;
  reproject := fun _ _ g => g;
  geod_area := gw_area;
  rasterize := gw_rasterize;
  geometry_mask := gw_geometry_mask;
  shapes := gw_shapes;
  remove_small_objects := gw_remove_small_objects;
  distance_transform_edt := gw_edt
|}.

End GridWorld.

(** ** The UTM zone as the specification writes it *)

Module UtmSpec.

Local Open Scope string_scope.




End UtmSpec.
Export UtmSpec.

(** ** Notions used to state the properties of the extractor *)

Module ExtractSpec.

Local Open Scope string_scope.

Section ExtractSpec.
Context `{GeoLib}.

(** The vectorized shapes that pass both tests of the loop: value 1,
    and an exact area that is not below the minimum. *)
Definition qualifying (min_area_km2 : fval) (shapes : list (geom * Z))
  : list (geom * Z) :=
  List.filter
    (fun pv => (snd pv =? 1)%Z
               && negb (flt (Fin (_area_km2 (fst pv))) min_area_km2))
    shapes.

(** The layers and thresholds that [compute_evidence] reads are there. *)
Definition evidence_ready (mode : string)
    (layers : gmap string DataArray) (thresholds : gmap string fval)
  : bool :=
  if String.eqb mode "coastal" then
    forallb (has_key layers)
      ["ndvi"; "ndwi"; "bsi"; "slope"; "dist_coast"; "dist_river"]
    && forallb (has_key thresholds)
         ["slope_max"; "ndvi_max"; "bsi_threshold_value"; "coast_max_m";
          "river_max_m"]
  else
    forallb (has_key layers) ["slope"; "ndvi"; "ndwi"; "lineaments"]
    && forallb (has_key thresholds)
         ["slope_min"; "slope_max"; "lineament_threshold_value"; "ndvi_max"].

(** The feature set is absent, empty, or carries a CRS. *)
Definition lines_ready (gdf : option GeoDataFrame) : bool :=
  match gdf with
  | None => true
  | Some d => gdf_empty d || not_none (gdf_crs d)
  end.

(** The body of the loop for a shape that passes both tests, with the
    rest of the loop as a continuation. *)
Definition emit (score_da : DataArray) (mode : string)
    (evidence_layers : gmap string DataArray)
    (thresholds : gmap string fval)
    (roads_gdf rivers_gdf : option GeoDataFrame)
    (poly : geom) (rng : entropy)
    (rest : entropy -> result (list Target * entropy))
  : result (list Target * entropy) :=
  let poly_mask := _geom_mask poly score_da in
  let poly_scores := select poly_mask (values score_da) in
  max_score ← nanmax poly_scores;
  evidence ← compute_evidence poly_mask evidence_layers thresholds mode;
  d_road ← _distance_to_lines poly roads_gdf;
  d_river ← _distance_to_lines poly rivers_gdf;
  '(targets, rng') ← rest (snd (uuid4 rng));
  Ok ({| id := fst (uuid4 rng); geometry := poly;
         area_km2 := _area_km2 poly;
         target_centroid := centroid poly;
         mean_score := nanmean poly_scores; max_score := max_score;
         distance_to_road_m := d_road;
         distance_to_river_m := d_river;
         evidence := evidence;
         evidence_summary := evidence_chips evidence mode |} :: targets,
      rng').

(** What a target records besides its identifier and area: each field
    is the value the loop computes from the target's own polygon. *)
Definition recorded (score_da : DataArray) (mode : string)
    (evidence_layers : gmap string DataArray)
    (thresholds : gmap string fval)
    (roads_gdf rivers_gdf : option GeoDataFrame) (t : Target) : Prop :=
  let poly_mask := _geom_mask (geometry t) score_da in
  let poly_scores := select poly_mask (values score_da) in
  compute_evidence poly_mask evidence_layers thresholds mode
    = Ok (evidence t) /\
  evidence_summary t = evidence_chips (evidence t) mode /\
  mean_score t = nanmean poly_scores /\
  nanmax poly_scores = Ok (max_score t) /\
  _distance_to_lines (geometry t) roads_gdf = Ok (distance_to_road_m t) /\
  _distance_to_lines (geometry t) rivers_gdf = Ok (distance_to_river_m t) /\
  target_centroid t = centroid (geometry t).


(** A target with its identifier blanked. *)
Definition erase_id (t : Target) : Target :=
  {| id := 0; geometry := geometry t; area_km2 := area_km2 t;
     target_centroid := target_centroid t;
     mean_score := mean_score t; max_score := max_score t;
     distance_to_road_m := distance_to_road_m t;
     distance_to_river_m := distance_to_river_m t;
     evidence := evidence t; evidence_summary := evidence_summary t |}.

(** Two runs agree up to the identifiers: the same error, or the same
    targets in the same order except for their [id]. *)
Definition same_up_to_ids (r1 r2 : result (list Target * entropy)) : Prop :=
  match r1, r2 with
  | Ok (ts1, _), Ok (ts2, _) => erase_id <$> ts1 = erase_id <$> ts2
  | Raise e1, Raise e2 => e1 = e2
  | _, _ => False
  end.

(** The identifiers of the targets a run returned. *)
Definition target_ids (r : result (list Target * entropy))
  : option (list Z) :=
  match r with
  | Ok (ts, _) => Some (id <$> ts)
  | Raise _ => None
  end.

End ExtractSpec.
End ExtractSpec.
Export ExtractSpec.

(** ** The scorers seen at one pixel

    The expressions that [coastal_score] and [hardrock_score] evaluate at
    a single pixel, used to state the pixel-wise properties. *)

Module Pixel.

(** [(1.0 - x / maximum).clip(0, 1)] *)
Definition subscore (maximum x : fval) : fval :=
  clip (fsub (Fin 1) (fdiv x maximum)) 0 1.

(** One pixel of [_percentile_scale], given the two percentile values. *)
Definition scaled (lo hi x : fval) : fval :=
  clip (if feqb (fsub hi lo) (Fin 0) then Fin 0
        else fdiv (fsub x lo) (fsub hi lo)) 0 1.

(** [(ndwi < ndwi_water_max).astype("float32")] *)
Definition water (ndwi_water_max ndwi : fval) : fval :=
  of_bool (flt ndwi ndwi_water_max).


(** [((slope >= slope_min) & (slope <= slope_max)).astype("float32")] *)
Definition relief (slope_min slope_max slope : fval) : fval :=
  of_bool (fge slope slope_min && fle slope slope_max).

(** The weighted sum of the hardrock sub-scores; [geology] is the
    lithology pixel when the layer is present. *)
Definition hardrock_sum (w_line w_relief w_exposure w_geo : fval)
    (line relief exposure : fval) (geology : option fval) : fval :=
  let s := fadd (fadd (fmul line w_line) (fmul relief w_relief))
                (fmul exposure w_exposure) in
  match geology with
  | Some g => fadd s (fmul g w_geo)
  | None => s
  end.

(** The water mask applied to a weighted sum, then the final clip. *)
Definition masked (sum mask : fval) : fval := clip (fmul sum mask) 0 1.

End Pixel.
Export Pixel.

(** ** Conditions on the parameters

    What the scorers need from the parameter record in order to return:
    a percentile in range, and the weight entries they read. *)

Module ParamsOk.

Local Open Scope string_scope.









End ParamsOk.
Export ParamsOk.

(** ** Ranking of the evidence candidates

    The order in which [evidence_chips] is specified to rank its
    candidates, stated on candidates paired with their position in the
    candidate list. *)

Module Ranking.

(** [enumerate(l, start=n)] *)
Fixpoint enumerate_from {A} (n : nat) (l : list A) : list (nat * A) :=
  match l with
  | [] => []
  | x :: l' => (n, x) :: enumerate_from (S n) l'
  end.

Definition candidate : Type := nat * (string * fval).

Definition position (x : candidate) : nat := fst x.
Definition label (x : candidate) : string := fst (snd x).
Definition metric (x : candidate) : fval := snd (snd x).

(** [x] is ranked before [y]: its metric is strictly greater, or the
    metrics are equal and [x] comes first in the candidate list. *)
Definition outranks (x y : candidate) : Prop :=
  flt (metric y) (metric x) = true \/
  (feqb (metric x) (metric y) = true /\ (position x < position y)%nat).

(** The order of the sort keys, on positioned candidates. *)
Definition candidate_lt (x y : candidate) : bool :=
  flt (metric x) (metric y).

End Ranking.
Export Ranking.

(** ** Concrete inputs

    The grid of the repository's tests, and small rasters on it. *)

Module Examples.

Local Open Scope string_scope.

(** [Affine.translation(77.0, 28.0) * Affine.scale(0.01, -0.01)] with
    CRS EPSG:4326, as [make_da] of test_targets.py. *)
Definition test_grid (h w : nat) : Grid :=
  mkGrid h w (mkAffine 0.01 0 77 0 (-0.01) 28) (Some "EPSG:4326").

Definition raster (h w : nat) (vals : list fval) : DataArray :=
  mkDA vals (test_grid h w).


(** The evidence of [test_evidence_chips_deterministic]. *)
Definition test_evidence : gmap string fval :=
  list_to_map
    [("pct_near_coast", Fin 0.8); ("pct_low_slope", Fin 0.6);
     ("pct_low_ndvi", Fin 0.4); ("pct_high_bsi", Fin 0.9);
     ("pct_near_river", Fin 0.1)].

(** The 2x2 block of pixels in the upper left corner of the test grid,
    as the vectorizer of [GridWorld] returns it. *)
Definition corner_block : list GridWorld.Box :=
  [GridWorld.mkBox 77.00 27.99 77.01 28.00;
   GridWorld.mkBox 77.01 27.99 77.02 28.00;
   GridWorld.mkBox 77.00 27.98 77.01 27.99;
   GridWorld.mkBox 77.01 27.98 77.02 27.99].

(** Two roads: one crossing the corner block, one far away. *)
Definition test_roads : @GeoDataFrame GridWorld.grid_world :=
  @mkGDF GridWorld.grid_world (Some "EPSG:4326")
    [Some [GridWorld.mkBox 77.00 27.99 77.05 27.99];
     Some [GridWorld.mkBox 77.50 27.00 77.60 27.00]].

(** A frame without rows. *)
Definition no_lines : @GeoDataFrame GridWorld.grid_world :=
  @mkGDF GridWorld.grid_world (Some "EPSG:4326") [].

(** The score raster of [test_extract_targets_min_area_filters]: 0.95 on
    the 2x2 corner block of a 10x10 grid, 0 elsewhere. *)
Definition corner_score : DataArray :=
  raster 10 10
    ((fun p : nat * nat =>
        if ((fst p <? 2) && (snd p <? 2))%nat then Fin 0.95 else Fin 0)
     <$> GridWorld.pixels (test_grid 10 10)).

(** The evidence layers and thresholds of the same test. *)
Definition test_layers : gmap string DataArray :=
  list_to_map
    [("ndvi", corner_score); ("ndwi", corner_score); ("bsi", corner_score);
     ("slope", corner_score); ("dist_coast", corner_score);
     ("dist_river", corner_score)].

Definition test_thresholds : gmap string fval :=
  list_to_map
    [("slope_max", Fin 5); ("ndvi_max", Fin 0.2);
     ("bsi_threshold_value", Fin 0.5); ("coast_max_m", Fin 30000);
     ("river_max_m", Fin 10000)].

(** Two states of the operating system's randomness. *)
Definition entropy_a : entropy := fun _ => 0%Z.
Definition entropy_b : entropy := fun _ => 1%Z.

(** The extractor on the corner block, in the grid world. *)
Definition extract_corner (min_area_km2 : Q) (rng : entropy)
  : result (list (@Target GridWorld.grid_world) * entropy) :=
  @extract_targets GridWorld.grid_world corner_score (Fin 0.9)
    (Fin min_area_km2) "coastal" test_layers test_thresholds None None rng.

(** A one-row raster of the given values. *)
Definition row (vals : list fval) : DataArray := raster 1 (length vals) vals.

(** The parameter record that leaves every option at its default. *)
Definition no_params : Params :=
  {| numeric := ∅; textual := ∅; weights_entry := None |}.


(** A constant 2x2 raster, [np.ones((2, 2)) * c]. *)
Definition ones (c : Q) : DataArray :=
  raster 2 2 [Fin c; Fin c; Fin c; Fin c].

End Examples.
Export Examples.

(** ** utils.py *)

Module Utils.

Local Open Scope string_scope.

Definition fmin (x y : fval) : fval := if flt y x then y else x.

(** [np.nanmin]: raises on an empty array; NaN when every value is NaN. *)
Definition nanmin (l : list fval) : result fval :=
  match l with
  | [] => Raise ValueError
  | _ :: _ =>
      match List.filter not_nan l with
      | [] => Ok NaN
      | x :: xs => Ok (foldl fmin x xs)
      end
  end.

(** [min_val] and [max_val] are [None] for Python's [None]. *)
Definition normalize_minmax (arr : list fval) (min_val max_val : option fval)
  : result (list fval) :=
  let a := arr in
  min_val ← match min_val with None => nanmin a | Some v => Ok v end;
  max_val ← match max_val with None => nanmax a | Some v => Ok v end;
  if feqb (fsub max_val min_val) (Fin 0) then Ok ((fun _ => Fin 0) <$> a)
  else
    Ok ((fun x => clip (fdiv (fsub x min_val) (fsub max_val min_val)) 0 1)
        <$> a).


Section Cast.
(** What the platform makes of a float that [uint8] cannot hold (NaN, an
    infinity, a value outside [(-1, 256)]): C leaves that conversion
    undefined, and numpy returns whatever the hardware does. *)
Variable cast_invalid : fval -> Z.

(** [x.astype(np.uint8)]: truncation toward zero where that fits. *)
Definition astype_uint8 (x : fval) : Z :=
  match x with
  | Fin q =>
      let t := Z.quot (Qnum q) (Z.pos (Qden q)) in
      if ((0 <=? t) && (t <=? 255))%Z then t else cast_invalid x
  | _ => cast_invalid x
  end.

Definition scale_to_uint8 (arr : list fval) (pmin pmax : fval)
  : result (list Z) :=
  let a := arr in
  lo ← nanpercentile a pmin;
  hi ← nanpercentile a pmax;
  if feqb (fsub hi lo) (Fin 0) then Ok ((fun _ => 0%Z) <$> a)
  else
    let scaled :=
      (fun x => clip (fdiv (fsub x lo) (fsub hi lo)) 0 1) <$> a in
    Ok ((fun s => astype_uint8 (fmul s (Fin 255))) <$> scaled).

End Cast.

End Utils.
Export Utils.

(** ** features.py: the spectral indices and the lineament density *)

(** scikit-image and [scipy.ndimage.uniform_filter], which
    [lineament_density] calls. *)
Class ImageLib : Type := {
  (** [skimage.feature.canny(img, sigma)] *)
  canny : list fval -> Grid -> Q -> list bool;
  (** [skimage.morphology.skeletonize(edges)] *)
  skeletonize : list bool -> Grid -> list bool;
  (** [scipy.ndimage.uniform_filter(img, size)] *)
  uniform_filter : list fval -> Grid -> Z -> list fval
}.

Module Indices.

Local Open Scope string_scope.

(** The Sentinel-2 composite: a [DataArray] with a leading [band]
    dimension, given by its band labels, each with its pixel buffer. *)
Record BandArray : Type := mkBands {
  band : list (string * list fval);
  band_rio : Grid
}.

(** [{b: i for i, b in enumerate(s2_da.band.values)}] *)
Definition band_map (s2_da : BandArray) : gmap string nat :=
  foldl (fun m ib => <[fst (snd ib) := fst ib]> m) ∅
    (enumerate_from 0 (band s2_da)).

(** [s2_da.isel(band=i)]; an index taken from [band_map] is always in
    range. *)
Definition isel (s2_da : BandArray) (i : nat) : DataArray :=
  {| values := default [] (snd <$> band s2_da !! i); rio := band_rio s2_da |}.


Section Lineaments.
Context `{ImageLib}.

Definition lineament_density (hillshade_da : DataArray) : result DataArray :=
  let img := values hillshade_da in
  img ← normalize_minmax img None None;
  let edges := canny img (rio hillshade_da) 2 in
  let skel := of_bool <$> skeletonize edges (rio hillshade_da) in
  let density := uniform_filter skel (rio hillshade_da) 15 in
  density ← normalize_minmax density None None;
  Ok (copy_data hillshade_da density).

End Lineaments.




End Indices.
Export Indices.

(** ** Notions used to state the properties of the utilities *)

Module UtilsSpec.

(** The value is a number or NaN, not an infinity. *)
Definition no_inf (x : fval) : bool :=
  match x with Inf _ => false | _ => true end.

End UtilsSpec.
Export UtilsSpec.

(** ** Notions used to state the properties of the spectral indices *)

Module IndicesSpec.


(** A stand-in for the image library: edges where the image exceeds one
    half, no thinning, no smoothing. *)
#[export] Instance plain_images : ImageLib := {|
  canny := fun img _ _ => (fun x => flt (Fin (1 # 2)) x) <$> img;
  skeletonize := fun edges _ => edges;
  uniform_filter := fun img _ _ => img
|}.

End IndicesSpec.
Export IndicesSpec.

(** ** db.py, main.py and tasks.py: a run and its progress

    The [runs] table is a map from run identifiers to rows.  A row
    keeps the columns that the progress tracking reads and writes; the
    columns that [process_run] fills in together when a run completes
    (the output paths, the overlay bounds and the parameters) are one
    field.  Statements on the database are taken to succeed. *)

Module Service.

Local Open Scope string_scope.

(** A JSON progress record: its ["steps"] member, if it has one, and
    its other members (each by its JSON text). *)
Record Progress : Type := mkProgress {
  steps : option (gmap string string);
  other_members : gmap string string
}.

Record RunRow (Output : Type) : Type := mkRunRow {
  run_status : string;
  run_progress : option Progress;
  run_error : option string;
  run_output : option Output
}.
Arguments mkRunRow {Output}.
Arguments run_status {Output}.
Arguments run_progress {Output}.
Arguments run_error {Output}.
Arguments run_output {Output}.

Definition pipeline_steps : list string :=
  ["fetch_imagery"; "fetch_dem"; "fetch_osm"; "compute_features"; "score";
   "extract_targets"; "generate_outputs"].

Definition _progress_template : Progress :=
  {| steps :=
       Some (list_to_map
               [("fetch_imagery", "pending"); ("fetch_dem", "pending");
                ("fetch_osm", "pending"); ("compute_features", "pending");
                ("score", "pending"); ("extract_targets", "pending");
                ("generate_outputs", "pending")]);
     other_members := ∅ |}.

(** The truth value of [run.get("progress")]: false for SQL NULL and
    for the empty object. *)
Definition progress_truthy (p : option Progress) : bool :=
  match p with
  | None => false
  | Some p =>
      not_none (steps p) || negb (bool_decide (other_members p = ∅))
  end.

(** The loop of [_update_progress] over the keys of the steps. *)
Definition mark_running (step : string) (steps : gmap string string)
  : gmap string string :=
  map_imap
    (fun k v =>
       Some (if String.eqb k step then "running"
             else if String.eqb v "running" then "done" else v))
    steps.

Section Runs.
Context {Output : Type}.

Definition Db : Type := gmap string (RunRow Output).

Definition get_run (db : Db) (run_id : string) : option (RunRow Output) :=
  db !! run_id.

(** [update_run(run_id, **fields)], the fields given as the change
    they make to the row: [UPDATE runs SET ... WHERE id = run_id]. *)
Definition update_run (db : Db) (run_id : string)
    (fields : RunRow Output -> RunRow Output) : Db :=
  alter fields run_id db.

Definition set_progress (p : Progress) (row : RunRow Output) : RunRow Output :=
  {| run_status := run_status row; run_progress := Some p;
     run_error := run_error row; run_output := run_output row |}.

Definition set_status (s : string) (row : RunRow Output) : RunRow Output :=
  {| run_status := s; run_progress := run_progress row;
     run_error := run_error row; run_output := run_output row |}.

Definition set_error (e : string) (row : RunRow Output) : RunRow Output :=
  {| run_status := run_status row; run_progress := run_progress row;
     run_error := Some e; run_output := run_output row |}.

Definition set_output (o : Output) (row : RunRow Output) : RunRow Output :=
  {| run_status := run_status row; run_progress := run_progress row;
     run_error := run_error row; run_output := Some o |}.

Definition _update_progress (db : Db) (run_id step : string) : Db :=
  match get_run db run_id with
  | None => db
  | Some run =>
      let progress :=
        if progress_truthy (run_progress run)
        then default _progress_template (run_progress run)
        else _progress_template in
      let steps0 :=
        match steps progress with
        | Some s => s
        | None => default ∅ (steps _progress_template)
        end in
      let progress :=
        {| steps := Some (mark_running step steps0);
           other_members := other_members progress |} in
      update_run db run_id (set_progress progress)
  end.

(** The code of [run_pipeline] between two progress reports either
    completes or raises an exception, given by its text. *)
Definition Stage : Type := option string.

(** [run_pipeline] as the database sees it: the steps reported through
    [progress_cb], each followed by a stage, until a stage raises. *)
Fixpoint report_steps (progress_cb : Db -> string -> Db) (db : Db)
    (steps : list string) (stages : list Stage) : Db * option string :=
  match steps with
  | [] => (db, None)
  | step :: steps' =>
      let db := progress_cb db step in
      match stages with
      | Some msg :: _ => (db, Some msg)
      | None :: stages' => report_steps progress_cb db steps' stages'
      | [] => report_steps progress_cb db steps' []
      end
  end.

(** [setup] is the code before the first report; [output] is what the
    pipeline returns when no stage raises. *)
Definition run_pipeline (progress_cb : Db -> string -> Db) (db : Db)
    (setup : Stage) (stages : list Stage) (output : Output)
  : Db * (string + Output) :=
  match setup with
  | Some msg => (db, inl msg)
  | None =>
      match report_steps progress_cb db pipeline_steps stages with
      | (db, Some msg) => (db, inl msg)
      | (db, None) => (db, inr output)
      end
  end.

Definition all_done : Progress :=
  {| steps := Some (foldl (fun m step => <[step := "done"]> m) ∅
                      pipeline_steps);
     other_members := ∅ |}.

(** [process_run]; [insert] is the outcome of [insert_targets]. *)
Definition process_run (db : Db) (run_id : string) (setup : Stage)
    (stages : list Stage) (output : Output) (insert : Stage) : Db :=
  let db := update_run db run_id (set_status "running") in
  let progress_cb := fun db step => _update_progress db run_id step in
  match run_pipeline progress_cb db setup stages output with
  | (db, inr result) =>
      match insert with
      | None =>
          update_run db run_id
            (fun row =>
               set_progress all_done (set_output result
                                        (set_status "completed" row)))
      | Some e => update_run db run_id
                    (fun row => set_error e (set_status "failed" row))
      end
  | (db, inl e) =>
      update_run db run_id (fun row => set_error e (set_status "failed" row))
  end.

End Runs.

(** The steps of a run whose pipeline is in its [n]-th step (counting
    from 0): the earlier steps are done, the later ones pending. *)
Definition steps_at (n : nat) : gmap string string :=
  list_to_map
    (imap (fun i step =>
             (step, if (i <? n)%nat then "done"
                    else if (i =? n)%nat then "running" else "pending"))
       pipeline_steps).

End Service.
Export Service.

(** A database holding one run, as [create_run_endpoint] stores it. *)
Module ServiceExamples.

Local Open Scope string_scope.

Definition queued_run : RunRow nat :=
  mkRunRow "queued" (Some _progress_template) None None.

Definition one_run : @Db nat := {["r1" := queued_run]}.

End ServiceExamples.
Export ServiceExamples.

(** ** main.py: the area of interest of a request *)

Module Api.

Local Open Scope string_scope.

(** A JSON value as Python holds it after parsing; an object is the
    list of its members in order, with distinct names. *)
#[local] Unset Elimination Schemes.
Inductive Json : Type :=
  | JNull
  | JBool (b : bool)
  | JNum (q : Q)
  | JStr (s : string)
  | JList (items : list Json)
  | JObj (members : list (string * Json)).
#[local] Set Elimination Schemes.

Definition Dict : Type := list (string * Json).

(** [d.get(key)]: [None] when the key is missing. *)
Fixpoint dict_get (d : Dict) (key : string) : option Json :=
  match d with
  | [] => None
  | (k, v) :: d' => if String.eqb k key then Some v else dict_get d' key
  end.

(** The truth value of a JSON value in a condition. *)
Definition truthy (j : Json) : bool :=
  match j with
  | JNull => false
  | JBool b => b
  | JNum q => negb (Qeq_bool q 0)
  | JStr s => negb (String.eqb s "")
  | JList items => match items with [] => false | _ :: _ => true end
  | JObj members => match members with [] => false | _ :: _ => true end
  end.

(** What a request handler can raise: an [HTTPException], answered
    with its status code, or another exception, given by its class. *)
Inductive ApiError : Type :=
  | HTTPException (status_code : Z) (detail : string)
  | Unhandled (exception : string).

Inductive response (A : Type) : Type :=
  | Return (a : A)
  | Throw (e : ApiError).
Arguments Return {A} a.
Arguments Throw {A} e.

(** [j == s] for a string [s]. *)
Definition is_str (j : option Json) (s : string) : bool :=
  match j with
  | Some (JStr t) => String.eqb t s
  | _ => false
  end.

(** [x[0]] *)
Definition first_item (x : Json) : response Json :=
  match x with
  | JList (item :: _) => Return item
  | JList [] => Throw (Unhandled "IndexError")
  | JStr (String c _) => Return (JStr (String c ""))
  | JStr EmptyString => Throw (Unhandled "IndexError")
  | JObj _ => Throw (Unhandled "KeyError")
  | _ => Throw (Unhandled "TypeError")
  end.

Definition _normalize_aoi (aoi_geojson : Dict) : response Dict :=
  if is_str (dict_get aoi_geojson "type") "FeatureCollection" then
    let features := default (JList []) (dict_get aoi_geojson "features") in
    if negb (truthy features) then
      Throw (HTTPException 400 "AOI FeatureCollection has no features")
    else
      match first_item features with
      | Throw e => Throw e
      | Return (JObj feature) =>
          let geom := default JNull (dict_get feature "geometry") in
          if negb (truthy geom) then
            Throw (HTTPException 400 "AOI feature missing geometry")
          else
            Return [("type", JStr "Feature"); ("geometry", geom);
                    ("properties",
                     default (JObj []) (dict_get feature "properties"))]
      | Return _ => Throw (Unhandled "AttributeError")
      end
  else if is_str (dict_get aoi_geojson "type") "Feature" then
    Return aoi_geojson
  else
    Return [("type", JStr "Feature"); ("geometry", JObj aoi_geojson);
            ("properties", JObj [])].

(** A feature collection with the given features. *)
Definition feature_collection (features : list Json) : Dict :=
  [("type", JStr "FeatureCollection"); ("features", JList features)].

End Api.
Export Api.

(** ** stac.py: the choice of the Sentinel-2 scenes *)

Module Stac.

Local Open Scope string_scope.

(** The ["eo:cloud_cover"] property of a STAC item: missing, JSON
    [null], or a number. *)
Inductive CloudCover : Type :=
  | CloudMissing
  | CloudNull
  | CloudValue (q : Q).

(** A STAC item: its identifier, its cloud cover and its assets (each
    asset key with its href). *)
Record Item : Type := mkItem {
  item_id : string;
  cloud_cover : CloudCover;
  assets : gmap string string
}.

(** [cc is None or cc <= cloud_cover_max], for
    [cc = it.properties.get("eo:cloud_cover")] *)
Definition cloud_ok (cloud_cover_max : Q) (it : Item) : bool :=
  match cloud_cover it with
  | CloudValue cc => Qle_bool cc cloud_cover_max
  | _ => true
  end.

(** The sort key [i.properties.get("eo:cloud_cover", 1000)], which is
    [None] for a [null] cloud cover. *)
Definition cloud_key (it : Item) : option Q :=
  match cloud_cover it with
  | CloudMissing => Some 1000
  | CloudNull => None
  | CloudValue q => Some q
  end.

Section SortBy.
Context {A : Type} (key : A -> Q).

Fixpoint insert_asc (x : A) (l : list A) : list A :=
  match l with
  | [] => [x]
  | y :: l' => if Qle_bool (key x) (key y) then x :: l else y :: insert_asc x l'
  end.

(** The stable ascending sort of [list.sort(key=...)] on numeric keys. *)
Definition sort_asc (l : list A) : list A := foldr insert_asc [] l.

End SortBy.

(** [items.sort(key=...)] on the cloud cover.  Sorting two or more
    items compares every key with another one, and Python raises
    [TypeError] when it compares [None]; the result is [None] then. *)
Definition sort_items (items : list Item) : option (list Item) :=
  if (2 <=? length items)%nat
     && existsb (fun it => negb (not_none (cloud_key it))) items
  then None
  else Some (sort_asc (fun it => default 0 (cloud_key it)) items).

(** [l[:n]] *)
Definition slice_to {A} (l : list A) (n : Z) : list A :=
  if (0 <=? n)%Z then take (Z.to_nat n) l
  else take (Z.to_nat (Z.of_nat (length l) + n)) l.

(** [search_items], on the items that the STAC search yields. *)
Definition search_items (found : list Item) (max_items : Z)
    (cloud_cover_max : option Q) : option (list Item) :=
  let items := found in
  match items with
  | [] => Some []
  | _ :: _ =>
      let items :=
        match cloud_cover_max with
        | Some cloud_cover_max =>
            let filtered := List.filter (cloud_ok cloud_cover_max) items in
            match filtered with [] => items | _ :: _ => filtered end
        | None => items
        end in
      items ← sort_items items;
      Some (slice_to items max_items)
  end.

Definition BAND_ALIASES : gmap string (list string) :=
  list_to_map
    [("B2", ["B02"; "B2"]); ("B3", ["B03"; "B3"]); ("B4", ["B04"; "B4"]);
     ("B8", ["B08"; "B8"]); ("B11", ["B11"; "B011"; "B11"])].

(** The loop of [_get_asset] over the aliases. *)
Fixpoint first_asset (item : Item) (aliases : list string) : option string :=
  match aliases with
  | [] => None
  | key :: aliases' =>
      if has_key (assets item) key then assets item !! key
      else first_asset item aliases'
  end.

Definition _get_asset (item : Item) (band : string) : result string :=
  let aliases := get BAND_ALIASES band [band] in
  match first_asset item aliases with
  | Some asset => Ok asset
  | None => Raise (KeyError band)
  end.

(** The number by which the items are ordered: the cloud cover, or
    1000 when the item has none. *)
Definition cloudiness (it : Item) : Q := default 0 (cloud_key it).

(** The items among which [search_items] chooses. *)
Definition candidates (found : list Item) (cloud_cover_max : option Q)
  : list Item :=
  match cloud_cover_max with
  | Some m =>
      if existsb (cloud_ok m) found then List.filter (cloud_ok m) found
      else found
  | None => found
  end.

End Stac.
Export Stac.

(** Scenes with various cloud covers. *)
Module StacExamples.

Local Open Scope string_scope.

Definition clear_scene : Item := mkItem "clear" (CloudValue 5) ∅.
Definition hazy_scene : Item := mkItem "hazy" (CloudValue 30) ∅.
Definition overcast_scene : Item := mkItem "overcast" (CloudValue 90) ∅.
Definition unrated_scene : Item := mkItem "unrated" CloudMissing ∅.
Definition null_scene : Item := mkItem "null" CloudNull ∅.

End StacExamples.
Export StacExamples.

(** ** osm.py: roads, rivers and the coastline *)

Module Osm.

Local Open Scope string_scope.

(** An element of an Overpass response: its ["type"], the coordinates
    of its ["geometry"] as [(lon, lat)] (empty when the member is
    missing, [null] or empty) and its ["tags"] ([None] when missing). *)
Record Element : Type := mkElement {
  el_type : option string;
  el_geometry : list (Q * Q);
  el_tags : option (gmap string string)
}.

Section Osm.
Context `{GeoLib}.
(** [shapely.geometry.LineString(coords)], which raises on a single
    coordinate. *)
Variable LineString : list (Q * Q) -> result geom.

(** The loop over [data.get("elements", [])]. *)
Fixpoint classify (elements : list Element)
  : result (list geom * list geom * list geom) :=
  match elements with
  | [] => Ok ([], [], [])
  | el :: elements' =>
      if negb (bool_decide (el_type el = Some "way")) then classify elements'
      else
        match el_geometry el with
        | [] => classify elements'
        | coords =>
            line ← LineString coords;
            '(roads, rivers, coast) ← classify elements';
            let tags := default ∅ (el_tags el) in
            if has_key tags "highway" then Ok (line :: roads, rivers, coast)
            else if bool_decide (tags !! "waterway" = Some "river")
                    || bool_decide (tags !! "waterway" = Some "stream")
            then Ok (roads, line :: rivers, coast)
            else if bool_decide (tags !! "natural" = Some "coastline")
            then Ok (roads, rivers, line :: coast)
            else Ok (roads, rivers, coast)
        end
  end.

Definition frame (lines : list geom) : GeoDataFrame :=
  {| gdf_crs := Some "EPSG:4326"; gdf_geometry := Some <$> lines |}.

(** [fetch_osm_lines]; [response] is the parsed answer of the Overpass
    service, [None] when the request or the parsing raised. *)
Definition fetch_osm_lines (response : option (list Element))
  : result (GeoDataFrame * GeoDataFrame * GeoDataFrame) :=
  match response with
  | None => Ok (frame [], frame [], frame [])
  | Some elements =>
      '(roads, rivers, coast) ← classify elements;
      Ok (frame roads, frame rivers, frame coast)
  end.

(** A way that [classify] turns into a line. *)
Definition is_way (el : Element) : bool :=
  bool_decide (el_type el = Some "way")
  && match el_geometry el with [] => false | _ :: _ => true end.


End Osm.

End Osm.
Export Osm.

(** ** Notions used to state further properties of the targets *)

Module TargetSpec.

Local Open Scope string_scope.

Section TargetSpec.
Context `{GeoLib}.

(** [s] is listed before [t]: its mean score is larger, or the mean
    scores are equal and its area is not smaller. *)
Definition ranks_before (s t : Target) : Prop :=
  flt (mean_score t) (mean_score s) = true \/
  (feqb (mean_score s) (mean_score t) = true /\ area_km2 t <= area_km2 s).


(** The mean scores of the targets a run returned, in order. *)
Definition target_means (r : result (list Target * entropy))
  : option (list fval) :=
  match r with
  | Ok (ts, _) => Some (mean_score <$> ts)
  | Raise _ => None
  end.

End TargetSpec.

(** The evidence metrics that are fractions of the pixels of a target. *)
Definition fraction_keys : list string :=
  ["pct_low_slope"; "pct_low_ndvi"; "pct_high_bsi"; "pct_near_coast";
   "pct_near_river"; "pct_lineament_high"; "pct_relief";
   "pct_geology_match"].

End TargetSpec.
Export TargetSpec.

(** Ways as the Overpass service returns them, and lines in the grid
    world. *)
Module OsmExamples.

Local Open Scope string_scope.

Definition box_line (coords : list (Q * Q)) : result (list GridWorld.Box) :=
  Ok (GridWorld.gw_polygon coords).




Definition bus_stop : Element :=
  mkElement (Some "node") [] (Some {["highway" := "bus_stop"]}).

End OsmExamples.
Export OsmExamples.

(** A score raster with two blocks above the threshold. *)
Module TargetExamples.

Local Open Scope string_scope.

(** 0.95 on the 2x2 corner block of a 10x10 grid, 0.99 on the 2x2 block
    at rows and columns 5 and 6, 0 elsewhere. *)
Definition two_blocks : DataArray :=
  raster 10 10
    ((fun p : nat * nat =>
        if ((fst p <? 2) && (snd p <? 2))%nat then Fin 0.95
        else if ((5 <=? fst p) && (fst p <? 7)
                 && (5 <=? snd p) && (snd p <? 7))%nat then Fin 0.99
        else Fin 0)
     <$> GridWorld.pixels (test_grid 10 10)).

Definition two_blocks_layers : gmap string DataArray :=
  list_to_map
    [("ndvi", two_blocks); ("ndwi", two_blocks); ("bsi", two_blocks);
     ("slope", two_blocks); ("dist_coast", two_blocks);
     ("dist_river", two_blocks)].

Definition extract_two_blocks
  : result (list (@Target GridWorld.grid_world) * entropy) :=
  @extract_targets GridWorld.grid_world two_blocks (Fin 0.9) (Fin 4)
    "coastal" two_blocks_layers test_thresholds (Some test_roads) None
    entropy_a.

End TargetExamples.
Export TargetExamples.

(** A hardrock run on the two blocks, and geology features that name
    no favourable lithology. *)
Module RunExamples.

Local Open Scope string_scope.

(** Vegetation and water indices that are low everywhere. *)
Definition low_index : DataArray :=
  raster 10 10 (replicate 100 (Fin 0.05)).


Definition run_two_blocks
    (geology : option (list (@Feature GridWorld.grid_world)))
  : result (@RunResult GridWorld.grid_world * entropy) :=
  @run_hardrock GridWorld.grid_world low_index low_index two_blocks
    two_blocks two_blocks geology no_params (Some test_roads) None entropy_a.

(** The number of targets of a run, and the geology weight it reports. *)
Definition run_summary (r : result (@RunResult GridWorld.grid_world * entropy))
  : option (nat * option fval) :=
  match r with
  | Ok (res, _) =>
      Some (length (targets res),
            weights (score_meta res) !! "geology_boost")
  | Raise _ => None
  end.

End RunExamples.
Export RunExamples.

(** * Properties *)

(** ** Facts about the number model *)

Section FloatFacts.

Lemma Qlt_bool_false (a b : Q) : QMicromega.Qlt_bool a b = false <-> b <= a.
Proof.
  split; intros Hab.
  - apply Qnot_lt_le. intros Hlt.
    apply QMicromega.Qlt_bool_iff in Hlt. congruence.
  - destruct (QMicromega.Qlt_bool a b) eqn:E; [|reflexivity].
    apply QMicromega.Qlt_bool_iff in E. lra.
Qed.

Lemma Qle_bool_false (a b : Q) : Qle_bool a b = false <-> b < a.
Proof.
  split; intros Hab.
  - apply Qnot_le_lt. intros Hle.
    apply Qle_bool_iff in Hle. congruence.
  - destruct (Qle_bool a b) eqn:E; [|reflexivity].
    apply Qle_bool_iff in E. lra.
Qed.

Lemma Qred_zero (q : Q) : q == 0 -> Qred q = 0.
Proof. intros Hq. apply (Qred_complete q 0 Hq). Qed.


Lemma clip_nan_iff (x : fval) (lo hi : Q) : clip x lo hi = NaN <-> x = NaN.
Proof.
  destruct x as [|s|q]; simpl; [tauto| |].
  - destruct s; split; discriminate.
  - destruct (QMicromega.Qlt_bool q lo), (QMicromega.Qlt_bool hi q);
      split; discriminate.
Qed.

Lemma clip_range (x : fval) (lo hi : Q) :
  lo <= hi -> x <> NaN -> in_range lo hi (clip x lo hi).
Proof.
  intros Hlh Hx. destruct x as [|s|q]; simpl; [congruence| |].
  - destruct s; simpl; lra.
  - destruct (QMicromega.Qlt_bool q lo) eqn:E1; simpl; [lra|].
    apply Qlt_bool_false in E1.
    destruct (QMicromega.Qlt_bool hi q) eqn:E2; simpl; [lra|].
    apply Qlt_bool_false in E2. lra.
Qed.

Lemma clip_nan_or_range (x : fval) (lo hi : Q) :
  lo <= hi -> clip x lo hi = NaN \/ in_range lo hi (clip x lo hi).
Proof.
  intros Hlh. destruct x as [|s|q]; [left; reflexivity| |];
    right; apply clip_range; auto; discriminate.
Qed.



Lemma fmul_nan_r (x : fval) : fmul x NaN = NaN.
Proof. destruct x; reflexivity. Qed.



Lemma fsub_nan_r (x : fval) : fsub x NaN = NaN.
Proof. destruct x; reflexivity. Qed.

Lemma fdiv_nan_l (y : fval) : fdiv NaN y = NaN.
Proof. reflexivity. Qed.

Lemma fdiv_nan_r (x : fval) : fdiv x NaN = NaN.
Proof. destruct x; reflexivity. Qed.

Lemma fmul_fin_zero (a : Q) : fmul (Fin a) (Fin 0) = Fin 0.
Proof. simpl. f_equal. apply Qred_zero. ring. Qed.


Lemma fmul_fin_one (a : Q) : fmul (Fin a) (Fin 1) = Fin (Qred a).
Proof. simpl. f_equal. apply Qred_complete. ring. Qed.

Lemma flt_nan_l (y : fval) : flt NaN y = false.
Proof. reflexivity. Qed.

Lemma flt_nan_r (x : fval) : flt x NaN = false.
Proof. destruct x; reflexivity. Qed.

Lemma fle_nan_r (x : fval) : fle x NaN = false.
Proof. destruct x; reflexivity. Qed.


(** On numbers the order is total. *)
Lemma flt_false_fle (x y : fval) :
  x <> NaN -> y <> NaN -> flt x y = false -> fle y x = true.
Proof.
  destruct x as [|s|a], y as [|t|b]; simpl; try congruence; intros _ _.
  - destruct s, t; auto.
  - destruct s; auto.
  - destruct t; auto.
  - intros Hlt. apply Qlt_bool_false in Hlt. apply Qle_bool_iff. exact Hlt.
Qed.

End FloatFacts.

(** ** Facts about percentiles *)

Section NumpyFacts.

Lemma finite_inv (x : fval) : is_finite x = true -> exists q, x = Fin q.
Proof. destruct x; try discriminate; eauto. Qed.

Lemma insert_sorted_perm (x : fval) (l : list fval) :
  Permutation (insert_sorted x l) (x :: l).
Proof.
  induction l as [|y l IH]; simpl; [reflexivity|].
  destruct (fle x y); [reflexivity|].
  rewrite IH. apply perm_swap.
Qed.

Lemma sort_values_perm (l : list fval) : Permutation (sort_values l) l.
Proof.
  induction l as [|x l IH]; simpl; [reflexivity|].
  rewrite insert_sorted_perm. by constructor.
Qed.

Lemma sort_values_length (l : list fval) : length (sort_values l) = length l.
Proof. apply Permutation_length, sort_values_perm. Qed.




Lemma fle_fin (a b : Q) : fle (Fin a) (Fin b) = true <-> a <= b.
Proof. simpl. apply Qle_bool_iff. Qed.


Lemma fle_trans_finite (x y z : fval) :
  is_finite y = true -> fle x y = true -> fle y z = true -> fle x z = true.
Proof.
  intros [qy ->]%finite_inv.
  destruct x as [|s|qx], z as [|t|qz]; simpl; try done.
  - destruct s, t; done.
  - intros H1 H2. apply Qle_bool_iff in H1, H2. apply Qle_bool_iff. lra.
Qed.

Lemma fle_total_finite (x y : fval) :
  is_finite x = true -> is_finite y = true -> fle x y = false -> fle y x = true.
Proof.
  intros [qx ->]%finite_inv [qy ->]%finite_inv. simpl.
  intros Hxy%Qle_bool_false. apply Qle_bool_iff. lra.
Qed.

Lemma insert_sorted_ascending (x : fval) (l : list fval) :
  is_finite x = true -> Forall (fun y => is_finite y = true) l ->
  ascending l -> ascending (insert_sorted x l).
Proof.
  intros Hx Hfin Hs. induction Hs as [|y l Hs IH Hy]; simpl.
  { repeat constructor. }
  apply Forall_cons in Hfin as [Hfy Hfin].
  destruct (fle x y) eqn:E.
  - constructor; [by constructor|]. constructor; [done|].
    eapply Forall_impl; [exact Hy|]. intros z Hz. simpl in Hz.
    by apply (fle_trans_finite x y z).
  - constructor; [by apply IH|].
    eapply Permutation_Forall; [symmetry; apply insert_sorted_perm|].
    constructor; [|done]. by apply fle_total_finite.
Qed.

Lemma sort_values_ascending (l : list fval) :
  Forall (fun y => is_finite y = true) l -> ascending (sort_values l).
Proof.
  induction 1 as [|x l Hx Hfin IH]; simpl; [constructor|].
  apply insert_sorted_ascending; [done| |done].
  eapply Permutation_Forall; [symmetry; apply sort_values_perm|done].
Qed.





End NumpyFacts.

(** ** Results, lookups and the inversion of [_percentile_scale] *)

Section ResultFacts.

Lemma bind_ok {A B} (m : result A) (f : A -> result B) (b : B) :
  m ≫= f = Ok b -> exists a, m = Ok a /\ f a = Ok b.
Proof. destruct m as [a|e]; simpl; [eauto | discriminate]. Qed.


Lemma is_ok_getitem {V} (d : gmap string V) (k : string) :
  is_ok (getitem d k) = has_key d k.
Proof.
  unfold getitem, has_key. destruct (d !! k); reflexivity.
Qed.



Lemma percentile_scale_values arr p_low p_high out :
  _percentile_scale arr p_low p_high = Ok out ->
  exists lo hi,
    nanpercentile (values arr) p_low = Ok lo /\
    nanpercentile (values arr) p_high = Ok hi /\
    values out = scaled lo hi <$> values arr /\ rio out = rio arr.
Proof.
  unfold _percentile_scale. intros Hs.
  apply bind_ok in Hs as (lo & Hlo & Hs).
  apply bind_ok in Hs as (hi & Hhi & Hs).
  exists lo, hi. split; [done|]. split; [done|].
  injection Hs as <-. simpl. split; [|done].
  unfold scaled. destruct (feqb (fsub hi lo) (Fin 0));
    rewrite <- list_fmap_compose; done.
Qed.

End ResultFacts.

(** ** The Percentile Normalizer *)

Section PercentileScale.

Lemma scaled_nan_or_range (lo hi x : fval) :
  scaled lo hi x = NaN \/ in_range 0 1 (scaled lo hi x).
Proof. unfold scaled. apply clip_nan_or_range. lra. Qed.

Lemma scaled_finite (lo hi x : Q) : in_range 0 1 (scaled (Fin lo) (Fin hi) (Fin x)).
Proof.
  unfold scaled. apply clip_range; [lra|]. simpl.
  destruct (Qeq_bool (Qred (hi - lo)) 0); discriminate.
Qed.









Lemma inject_nat_le (k n : nat) :
  (k <= n)%nat -> inject_Z (Z.of_nat k) <= inject_Z (Z.of_nat n).
Proof. intros Hk. rewrite <- Zle_Qle. lia. Qed.

Lemma inject_nat_pos (n : nat) : (1 <= n)%nat -> 0 < inject_Z (Z.of_nat n).
Proof. intros Hn. change 0 with (inject_Z 0). rewrite <- Zlt_Qlt. lia. Qed.






End PercentileScale.


(** ** The scorers, pixel by pixel *)

Section ScoringFacts.

Local Open Scope string_scope.



Lemma hardrock_score_pixel ndvi ndwi slope lineaments geology_mask params
    score info :
  hardrock_score ndvi ndwi slope lineaments geology_mask params
    = Ok (score, info) ->
  exists lo hi w_line w_relief w_exposure w_geo,
    nanpercentile (values lineaments)
      (get (numeric params) "lineament_percentile" (Fin 70)) = Ok lo /\
    nanpercentile (values lineaments) (Fin 98) = Ok hi /\
    hardrock_weights
      (default hardrock_default_weights (weights_entry params))
      (not_none geology_mask)
      = Ok (w_line, w_relief, w_exposure, w_geo) /\
    weights (meta info)
      = list_to_map
          [("lineaments", w_line); ("relief", w_relief);
           ("exposure", w_exposure); ("geology_boost", w_geo)] /\
    forall i,
      values score !! i =
        ln ← values lineaments !! i;
        sl ← values slope !! i;
        nd ← values ndvi !! i;
        g ← match geology_mask with
            | Some gm => Some <$> values gm !! i
            | None => Some None
            end;
        nw ← values ndwi !! i;
        Some (masked
                (hardrock_sum w_line w_relief w_exposure w_geo
                   (scaled lo hi ln)
                   (relief (get (numeric params) "slope_min" (Fin 2))
                      (get (numeric params) "slope_max" (Fin 25)) sl)
                   (subscore (get (numeric params) "ndvi_max" (Fin 0.4)) nd)
                   g)
                (water (get (numeric params) "ndwi_water_max" (Fin 0.1)) nw)).
Proof.
  intros Hs. unfold hardrock_score in Hs.
  apply bind_ok in Hs as (line & Hline & Hs).
  apply bind_ok in Hs as ([[[w_line w_relief] w_exposure] w_geo] & Hw & Hs).
  apply percentile_scale_values in Hline as (lo & hi & Hlo & Hhi & Hv & _).
  injection Hs as <- <-. simpl.
  exists lo, hi, w_line, w_relief, w_exposure, w_geo.
  repeat (split; [assumption|]). split; [reflexivity|].
  intros i. unfold da_map, da_zip, copy_data, proximity, water_mask_of.
  destruct geology_mask as [gm|]; simpl; rewrite Hv;
    repeat (rewrite list_lookup_fmap || rewrite lookup_zip_with).
  - destruct (values lineaments !! i), (values slope !! i),
      (values ndvi !! i), (values gm !! i), (values ndwi !! i); reflexivity.
  - destruct (values lineaments !! i), (values slope !! i),
      (values ndvi !! i), (values ndwi !! i); reflexivity.
Qed.


End ScoringFacts.

(** ** The water mask of the coastal scorer *)

Section WaterMask.













End WaterMask.

(** ** Missing values in the scorers *)

Section NanPolicy.


Lemma subscore_nan (m : fval) : subscore m NaN = NaN.
Proof. reflexivity. Qed.







(** The same for a missing slope value in the hardrock scorer (the
    relief test is false on NaN), and for a missing lineament value when
    the two percentile values coincide. *)
Example hardrock_nan_slope :
  score_values
    (hardrock_score (row [Fin 0.1]) (row [Fin 0]) (row [NaN]) (row [Fin 0.5])
       None no_params)
    = Ok [Fin (3 # 17)].
Proof. reflexivity. Qed.
End NanPolicy.

(** ** The weights of the hardrock scorer *)

Section HardrockWeights.



Lemma hardrock_weights_absent_geo (weights : gmap string fval)
    (w_line w_relief w_exposure w_geo : fval) :
  hardrock_weights weights false = Ok (w_line, w_relief, w_exposure, w_geo) ->
  w_geo = Fin 0.
Proof.
  unfold hardrock_weights. simpl. intros H.
  apply bind_ok in H as (wl & _ & H).
  apply bind_ok in H as (wr & _ & H).
  apply bind_ok in H as (we & _ & H).
  apply bind_ok in H as (a & _ & H).
  apply bind_ok in H as (b & _ & H).
  apply bind_ok in H as (c & _ & H).
  by injection H.
Qed.




End HardrockWeights.

(** ** Sorting and the evidence chips *)

Section SortFacts.
Context {A : Type} (lt : A -> A -> bool).

Lemma insert_desc_perm (x : A) (l : list A) :
  Permutation (insert_desc lt x l) (x :: l).
Proof.
  induction l as [|y l IH]; simpl; [reflexivity|].
  destruct (lt x y); [|reflexivity].
  rewrite IH. apply perm_swap.
Qed.

Lemma sort_reverse_perm (l : list A) : Permutation (sort_reverse lt l) l.
Proof.
  induction l as [|x l IH]; simpl; [reflexivity|].
  rewrite insert_desc_perm. by constructor.
Qed.

Lemma sort_reverse_length (l : list A) :
  length (sort_reverse lt l) = length l.
Proof. apply Permutation_length, sort_reverse_perm. Qed.

Lemma insert_desc_fmap {B : Type} (f : B -> A) (x : B) (k : list B) :
  f <$> insert_desc (fun x y => lt (f x) (f y)) x k
  = insert_desc lt (f x) (f <$> k).
Proof.
  induction k as [|y k IH]; [reflexivity|].
  cbn [insert_desc]. rewrite fmap_cons. cbn [insert_desc].
  destruct (lt (f x) (f y)).
  - by rewrite fmap_cons, IH.
  - by rewrite !fmap_cons.
Qed.

Lemma sort_reverse_fmap {B : Type} (f : B -> A) (l : list B) :
  f <$> sort_reverse (fun x y => lt (f x) (f y)) l
  = sort_reverse lt (f <$> l).
Proof.
  induction l as [|x l IH]; [reflexivity|].
  rewrite fmap_cons. unfold sort_reverse in *. cbn [foldr].
  by rewrite insert_desc_fmap, IH.
Qed.

End SortFacts.

Section SortedFacts.
Context {A : Type} (R : A -> A -> Prop).

Lemma StronglySorted_take (n : nat) (l : list A) :
  StronglySorted R l -> StronglySorted R (take n l).
Proof.
  intros Hs. revert n. induction Hs as [|x l Hs IH Hx]; intros [|n]; simpl;
    try constructor; [apply IH|].
  by apply Forall_take.
Qed.

Lemma StronglySorted_filter (p : A -> bool) (l : list A) :
  StronglySorted R l -> StronglySorted R (List.filter p l).
Proof.
  induction 1 as [|x l Hs IH Hx]; simpl; [constructor|].
  destruct (p x); [|done]. constructor; [done|].
  rewrite Forall_forall in *. intros y Hy. apply Hx.
  apply list_elem_of_In in Hy. apply filter_In in Hy as [Hy _].
  by apply list_elem_of_In.
Qed.

Lemma StronglySorted_app_inv (l1 l2 : list A) :
  StronglySorted R (l1 ++ l2) ->
  forall x y, x ∈ l1 -> y ∈ l2 -> R x y.
Proof.
  induction l1 as [|z l1 IH]; intros Hs x y Hx Hy; [inversion Hx|].
  inversion Hs as [|? ? Hs' Hz]; subst.
  apply elem_of_cons in Hx as [->|Hx]; [|by apply IH].
  rewrite Forall_forall in Hz. apply Hz. apply elem_of_app. by right.
Qed.

End SortedFacts.

Section RankingFacts.

Lemma flt_fin (a b : Q) : flt (Fin a) (Fin b) = true <-> a < b.
Proof. simpl. apply QMicromega.Qlt_bool_iff. Qed.

Lemma feqb_fin (a b : Q) : feqb (Fin a) (Fin b) = true <-> a == b.
Proof. simpl. apply Qeq_bool_iff. Qed.

Lemma outranks_fin (i j : nat) (l1 l2 : string) (a b : Q) :
  outranks (i, (l1, Fin a)) (j, (l2, Fin b)) <-> b < a \/ (a == b /\ (i < j)%nat).
Proof.
  unfold outranks, metric, position. cbn [fst snd].
  by rewrite flt_fin, feqb_fin.
Qed.

Lemma outranks_trans (x y z : candidate) :
  is_finite (metric x) = true -> is_finite (metric y) = true ->
  is_finite (metric z) = true ->
  outranks x y -> outranks y z -> outranks x z.
Proof.
  destruct x as [i [l1 mx]], y as [j [l2 my]], z as [k [l3 mz]].
  unfold metric. cbn [snd].
  intros [a ->]%finite_inv [b ->]%finite_inv [c ->]%finite_inv.
  rewrite !outranks_fin. intros [H1|[H1 H1']] [H2|[H2 H2']].
  - left. lra.
  - left. lra.
  - left. lra.
  - right. split; [lra|lia].
Qed.

Lemma not_lt_outranks (x y : candidate) :
  is_finite (metric x) = true -> is_finite (metric y) = true ->
  candidate_lt x y = false -> (position x < position y)%nat -> outranks x y.
Proof.
  destruct x as [i [l1 mx]], y as [j [l2 my]].
  unfold candidate_lt, metric_lt, metric, position. cbn [fst snd].
  intros [a ->]%finite_inv [b ->]%finite_inv Hlt Hij.
  apply outranks_fin. simpl in Hlt. apply Qlt_bool_false in Hlt.
  destruct (Qlt_le_dec b a) as [Hba|Hab]; [by left|].
  right. split; [lra|done].
Qed.

Lemma lt_outranks (x y : candidate) : candidate_lt x y = true -> outranks y x.
Proof. intros H. by left. Qed.

Lemma insert_desc_ranked (x : candidate) (l : list candidate) :
  is_finite (metric x) = true ->
  Forall (fun z => is_finite (metric z) = true) l ->
  Forall (fun z => (position x < position z)%nat) l ->
  StronglySorted outranks l ->
  StronglySorted outranks (insert_desc candidate_lt x l).
Proof.
  intros Hx Hfin Hpos Hs.
  induction Hs as [|y l Hs IH Hy]; simpl; [repeat constructor|].
  apply Forall_cons in Hfin as [Hfy Hfin].
  apply Forall_cons in Hpos as [Hpy Hpos].
  destruct (candidate_lt x y) eqn:E.
  - constructor; [by apply IH|].
    eapply Permutation_Forall; [symmetry; apply insert_desc_perm|].
    constructor; [by apply lt_outranks|done].
  - assert (Hxy : outranks x y) by by apply not_lt_outranks.
    constructor; [by constructor|]. constructor; [done|].
    rewrite Forall_forall in *. intros z Hz.
    apply (outranks_trans x y z); auto.
Qed.

Lemma sort_reverse_ranked (l : list candidate) :
  Forall (fun z => is_finite (metric z) = true) l ->
  StronglySorted (fun x y => (position x < position y)%nat) l ->
  StronglySorted outranks (sort_reverse candidate_lt l).
Proof.
  intros Hfin Hs. induction Hs as [|x l Hs IH Hx]; [constructor|].
  apply Forall_cons in Hfin as [Hfx Hfin]. simpl.
  apply insert_desc_ranked; [done| | |by apply IH].
  - eapply Permutation_Forall; [symmetry; apply sort_reverse_perm|done].
  - eapply Permutation_Forall; [symmetry; apply sort_reverse_perm|done].
Qed.

Lemma enumerate_from_lookup {A} (n i : nat) (l : list A) :
  enumerate_from n l !! i = (fun x => ((n + i)%nat, x)) <$> l !! i.
Proof.
  revert n i. induction l as [|x l IH]; intros n [|i]; simpl; try done.
  - by rewrite Nat.add_0_r.
  - rewrite IH. by replace (S n + i)%nat with (n + S i)%nat by lia.
Qed.

Lemma enumerate_from_snd {A} (n : nat) (l : list A) :
  snd <$> enumerate_from n l = l.
Proof.
  revert n. induction l as [|x l IH]; intros n; [done|].
  simpl. by rewrite IH.
Qed.

Lemma elem_of_enumerate {A} (l : list A) (k : nat) (c : A) :
  (k, c) ∈ enumerate_from 0 l <-> l !! k = Some c.
Proof.
  rewrite list_elem_of_lookup. split.
  - intros [i Hi]. rewrite enumerate_from_lookup in Hi.
    destruct (l !! i) eqn:E; [|discriminate]. simpl in Hi. by injection Hi as <- <-.
  - intros Hk. exists k. rewrite enumerate_from_lookup, Hk. done.
Qed.

Lemma enumerate_from_ascending {A} (n : nat) (l : list A) :
  StronglySorted (fun x y : nat * A => (fst x < fst y)%nat) (enumerate_from n l).
Proof.
  revert n. induction l as [|x l IH]; intros n; simpl; constructor; [apply IH|].
  apply Forall_forall. intros [j y] Hj.
  apply list_elem_of_lookup in Hj as [i Hi].
  rewrite enumerate_from_lookup in Hi.
  destruct (l !! i); [|discriminate]. simpl in Hi. injection Hi as <- <-.
  simpl. lia.
Qed.

End RankingFacts.

Section EvidenceChips.

Lemma filter_fmap {A B} (f : A -> B) (p : B -> bool) (l : list A) :
  List.filter p (f <$> l) = f <$> List.filter (fun x => p (f x)) l.
Proof.
  induction l as [|x l IH]; [done|].
  rewrite fmap_cons. simpl. destruct (p (f x)); by rewrite IH.
Qed.

Lemma filter_length_le {A} (p : A -> bool) (l : list A) :
  (length (List.filter p l) <= length l)%nat.
Proof.
  induction l as [|x l IH]; simpl; [done|]. destruct (p x); simpl; lia.
Qed.

Lemma filter_all {A} (p : A -> bool) (l : list A) :
  Forall (fun x => p x = true) l -> List.filter p l = l.
Proof.
  induction 1 as [|x l Hx _ IH]; simpl; [done|]. by rewrite Hx, IH.
Qed.

Lemma elem_of_take_l {A} (n : nat) (l : list A) (x : A) :
  x ∈ take n l -> x ∈ l.
Proof.
  intros Hx. rewrite <- (take_drop n l). apply elem_of_app. by left.
Qed.

Lemma outranks_positive (x y : candidate) :
  is_finite (metric x) = true -> is_finite (metric y) = true ->
  outranks x y -> fgt (metric y) (Fin 0) = true ->
  fgt (metric x) (Fin 0) = true.
Proof.
  destruct x as [i [l1 mx]], y as [j [l2 my]]. unfold metric, fgt. cbn [snd].
  intros [a ->]%finite_inv [b ->]%finite_inv.
  rewrite outranks_fin, !flt_fin. intros [H|[H _]] Hb; lra.
Qed.

(** C7.  Evidence chip selection depends on the evidence only through
    the mode's ordered candidate list.  For candidate metrics that are
    numbers it returns the labels of at most 3 candidates, each with a
    metric strictly greater than 0, ordered descending by metric with
    ties broken by position in the candidate list, and no candidate
    with a positive metric is left out unless three candidates ranked
    before it were selected.  On the coastal metrics near_coast 0.8,
    low_slope 0.6, low_ndvi 0.4, high_bsi 0.9, near_river 0.1 the
    selected labels are, in order, the high-BSI, the near-coastline
    and the low-slope label. *)
Theorem evidence_chips_ranked :
  (forall evidence mode,
     Forall (fun c => is_finite (snd c) = true)
       (chip_candidates evidence mode) ->
     exists sel : list candidate,
       evidence_chips evidence mode = label <$> sel /\
       (length sel <= 3)%nat /\
       Forall (fun x =>
                 chip_candidates evidence mode !! position x = Some (snd x)
                 /\ fgt (metric x) (Fin 0) = true) sel /\
       StronglySorted outranks sel /\
       (forall k c,
          chip_candidates evidence mode !! k = Some c ->
          fgt (snd c) (Fin 0) = true ->
          (k, c) ∉ sel ->
          length sel = 3%nat /\ Forall (fun x => outranks x (k, c)) sel)) /\
  (forall evidence evidence' mode,
     chip_candidates evidence mode = chip_candidates evidence' mode ->
     evidence_chips evidence mode = evidence_chips evidence' mode) /\
  evidence_chips test_evidence "coastal"
  = ["High sandiness (BSI top 30%)"; "Near coastline (<30 km)";
     "Low slope (<=5°)"].
Proof.
  split; [|split; [|reflexivity]].
  2:{ intros ev ev' mode Hc. unfold evidence_chips. by rewrite Hc. }
  intros evidence mode Hfin.
  set (cands := chip_candidates evidence mode) in *.
  set (sorted := sort_reverse candidate_lt (enumerate_from 0 cands)).
  set (pos := fun x : candidate => fgt (metric x) (Fin 0)).
  assert (Hperm : Permutation sorted (enumerate_from 0 cands))
    by apply sort_reverse_perm.
  assert (Hfin' : Forall (fun z => is_finite (metric z) = true) sorted).
  { eapply Permutation_Forall; [symmetry; exact Hperm|].
    apply Forall_forall. intros [k c] Hk. apply elem_of_enumerate in Hk.
    rewrite Forall_forall in Hfin. apply Hfin.
    eapply list_elem_of_lookup_2; eauto. }
  assert (Hsorted : StronglySorted outranks sorted).
  { apply sort_reverse_ranked; [|apply enumerate_from_ascending].
    eapply Permutation_Forall; [exact Hperm|exact Hfin']. }
  exists (List.filter pos (take 3 sorted)).
  split; [|split; [|split; [|split]]].
  - unfold evidence_chips. fold cands.
    rewrite <- (enumerate_from_snd 0 cands) at 1.
    rewrite <- (sort_reverse_fmap metric_lt snd).
    fold candidate_lt. fold sorted.
    rewrite <- fmap_take, filter_fmap, <- list_fmap_compose. reflexivity.
  - etransitivity; [apply filter_length_le|]. rewrite length_take. lia.
  - apply Forall_forall. intros [k c] Hx.
    apply list_elem_of_In, filter_In in Hx as [Hx Hp].
    split; [|exact Hp]. apply elem_of_enumerate. rewrite <- Hperm.
    apply list_elem_of_In in Hx. by apply elem_of_take_l in Hx.
  - by apply StronglySorted_filter, StronglySorted_take.
  - intros k c Hk Hc Hnot.
    assert (Hin : (k, c) ∈ sorted).
    { rewrite Hperm. by apply elem_of_enumerate. }
    rewrite <- (take_drop 3 sorted) in Hin, Hsorted.
    apply elem_of_app in Hin as [Hin|Hin].
    { exfalso. apply Hnot. apply list_elem_of_In, filter_In.
      split; [by apply list_elem_of_In|exact Hc]. }
    assert (Hout : Forall (fun x => outranks x (k, c)) (take 3 sorted)).
    { apply Forall_forall. intros x Hx.
      by apply (StronglySorted_app_inv _ _ _ Hsorted). }
    assert (Hall : Forall (fun x => pos x = true) (take 3 sorted)).
    { rewrite Forall_forall in *. intros x Hx.
      apply (outranks_positive x (k, c)); auto.
      - apply Hfin'. by apply elem_of_take_l in Hx.
      - apply Hfin'. rewrite <- (take_drop 3 sorted).
        apply elem_of_app. by right. }
    rewrite (filter_all _ _ Hall). split; [|exact Hout].
    rewrite length_take.
    assert (3 < length sorted \/ 3 = length sorted \/ length sorted < 3)%nat
      as [H|[H|H]] by lia; [lia|lia|].
    rewrite drop_ge in Hin by lia. inversion Hin.
Qed.

(** On the metrics of [test_evidence_chips_deterministic]. *)
Lemma evidence_chips_ranked_witness :
  Forall (fun c => is_finite (snd c) = true)
    (chip_candidates test_evidence "coastal") /\
  exists sel : list candidate,
    evidence_chips test_evidence "coastal" = label <$> sel /\
    (length sel <= 3)%nat /\
    StronglySorted outranks sel.
Proof.
  assert (Hfin : Forall (fun c => is_finite (snd c) = true)
                   (chip_candidates test_evidence "coastal"))
    by (repeat constructor).
  split; [exact Hfin|].
  destruct (proj1 evidence_chips_ranked test_evidence "coastal" Hfin)
    as (sel & Hchips & Hlen & _ & Hsorted & _).
  exists sel. auto.
Defined.

Section Evidence.
Context `{GeoLib}.

Lemma mean_bool_finite (l : list bool) :
  l <> [] -> is_finite (mean_bool l) = true.
Proof.
  intros Hl. unfold mean_bool, of_nat. simpl.
  destruct (Qeq_bool (inject_Z (Z.of_nat (length l))) 0) eqn:E; [|done].
  apply Qeq_bool_iff in E. destruct l; [done|].
  simpl length in E. unfold Qeq in E. simpl in E. lia.
Qed.

Lemma pct_finite (layers : gmap string DataArray) (poly_mask : list bool)
    (name op : string) (thr v : fval) :
  _pct layers poly_mask name op thr = Ok v -> is_finite v = true.
Proof.
  unfold _pct. intros Hp. apply bind_ok in Hp as (arr & _ & Hp).
  destruct (select poly_mask (values arr)) as [|x vals]; [by injection Hp as <-|].
  repeat (match type of Hp with
          | (if ?b then _ else _) = _ => destruct b
          end);
    injection Hp as <-; try reflexivity; by apply mean_bool_finite.
Qed.

Lemma compute_evidence_candidates_finite (poly_mask : list bool)
    (layers : gmap string DataArray) (thresholds : gmap string fval)
    (mode : string) (ev : gmap string fval) :
  compute_evidence poly_mask layers thresholds mode = Ok ev ->
  Forall (fun c => is_finite (snd c) = true) (chip_candidates ev mode).
Proof.
  unfold compute_evidence, chip_candidates. intros Hev.
  destruct (String.eqb mode "coastal").
  - repeat (apply bind_ok in Hev as (? & ? & Hev)).
    injection Hev as <-.
    repeat match goal with
    | Hp : _pct _ _ _ _ _ = Ok _ |- _ => apply pct_finite in Hp
    end.
    repeat constructor; assumption.
  - apply bind_ok in Hev as (slope & _ & Hev).
    apply bind_ok in Hev as (pct_relief & Hrelief & Hev).
    assert (Hfr : is_finite pct_relief = true).
    { destruct (select poly_mask (values slope)) as [|x vals];
        [by injection Hrelief as <-|].
      apply bind_ok in Hrelief as (? & _ & Hrelief).
      apply bind_ok in Hrelief as (? & _ & Hrelief).
      injection Hrelief as <-. by apply mean_bool_finite. }
    apply bind_ok in Hev as (ndvi_mean & _ & Hev).
    apply bind_ok in Hev as (ndwi_mean & _ & Hev).
    apply bind_ok in Hev as (slope_mean & _ & Hev).
    apply bind_ok in Hev as (lineament_mean & _ & Hev).
    apply bind_ok in Hev as (geology_mask_mean & _ & Hev).
    apply bind_ok in Hev as (lineament_threshold_value & _ & Hev).
    apply bind_ok in Hev as (pct_lineament_high & Hline & Hev).
    apply bind_ok in Hev as (ndvi_max & _ & Hev).
    apply bind_ok in Hev as (pct_low_ndvi & Hndvi & Hev).
    apply bind_ok in Hev as (pct_geology_match & Hgeo & Hev).
    injection Hev as <-.
    assert (Hfg : is_finite pct_geology_match = true).
    { destruct (has_key layers "geology_mask");
        [by eapply pct_finite|by injection Hgeo as <-]. }
    apply pct_finite in Hline, Hndvi.
    change (get _ "pct_geology_match" (Fin 0)) with pct_geology_match.
    destruct (fgt pct_geology_match (Fin 0)); repeat constructor; assumption.
Qed.

End Evidence.
End EvidenceChips.

(** ** The grid world meets the contracts of the libraries *)

Section GridWorldFacts.
Import GridWorld.


Lemma qmax_r (a b : Q) : b <= qmax a b.
Proof.
  unfold qmax. destruct (Qle_bool a b) eqn:E; [lra|].
  apply Qle_bool_false in E. lra.
Qed.







End GridWorldFacts.

(** ** Distance from a target to roads and rivers *)

Section Utm.




Lemma trunc_floor_nonneg (q : Q) :
  0 <= q -> Z.quot (Qnum q) (Z.pos (Qden q)) = Qfloor q.
Proof.
  intros Hq. destruct q as [n d]. simpl.
  apply Z.quot_div_nonneg; [|lia].
  unfold Qle in Hq. simpl in Hq. lia.
Qed.


Section DistanceToLines.
Context `{GeoLib}.




End DistanceToLines.


End Utm.

(** ** The distance transform *)

Section DistanceRaster.
Context `{GeoLib}.

Lemma distance_raster_sentinel (lines_gdf : option GeoDataFrame)
    (ref_da : DataArray) :
  crs (rio ref_da) = None \/ lines_gdf = None \/
  (exists d, lines_gdf = Some d /\ gdf_empty d = true) ->
  distance_raster lines_gdf ref_da = Ok (sentinel_raster ref_da).
Proof.
  unfold distance_raster.
  intros [Hc|[->|(d & -> & Hd)]].
  - by rewrite Hc.
  - by destruct (crs (rio ref_da)).
  - rewrite Hd. by destruct (crs (rio ref_da)).
Qed.

Lemma distance_raster_is_ok (lines_gdf : option GeoDataFrame)
    (ref_da : DataArray) :
  (forall d, lines_gdf = Some d -> is_Some (gdf_crs d)) ->
  is_ok (distance_raster lines_gdf ref_da) = true.
Proof.
  intros Hcrs. unfold distance_raster.
  destruct (crs (rio ref_da)) as [c|]; [|done].
  destruct lines_gdf as [d|]; [|done].
  destruct (gdf_empty d); [done|].
  destruct (Hcrs d eq_refl) as [src Hsrc]. unfold to_crs. rewrite Hsrc. simpl.
  destruct (present_geometries _); [done|].
  by destruct (resolution (rio ref_da)).
Qed.

(** What the code computes when there is something to rasterize. *)
Lemma distance_raster_values (d : GeoDataFrame) (ref_da out : DataArray)
    (c : string) (gdf_proj : GeoDataFrame) :
  crs (rio ref_da) = Some c -> gdf_empty d = false ->
  to_crs d c = Ok gdf_proj -> present_geometries gdf_proj <> [] ->
  distance_raster (Some d) ref_da = Ok out ->
  values out
  = (fun x => fmul x (Fin (Qabs (fst (resolution (rio ref_da))))))
    <$> distance_transform_edt
          (negb <$> rasterize (present_geometries gdf_proj) (rio ref_da))
          (rio ref_da).
Proof.
  intros Hc Hd Hp Hne. unfold distance_raster. rewrite Hc, Hd, Hp. simpl.
  destruct (present_geometries gdf_proj) as [|g gs]; [done|].
  destruct (resolution (rio ref_da)) as [xres yres]. simpl.
  by intros [= <-].
Qed.

(** C8.  When the reference grid has no CRS, or the feature set is
    absent or empty, [distance_raster] returns the constant raster of
    1,000,000 over the grid; it raises only for a non-empty feature set
    that itself has no CRS.  Whatever it returns is non-negative
    everywhere, and exactly 0 on every pixel into which a feature was
    rasterized (the distance transform being non-negative, and 0 on
    the zero pixels of its input). *)
Theorem distance_raster_spec :
  (forall lines_gdf ref_da,
     crs (rio ref_da) = None \/ lines_gdf = None \/
     (exists d, lines_gdf = Some d /\ gdf_empty d = true) ->
     exists out,
       distance_raster lines_gdf ref_da = Ok out /\
       values out
       = replicate (height (rio ref_da) * width (rio ref_da)) (Fin 1000000))
  /\
  (forall lines_gdf ref_da,
     (forall d, lines_gdf = Some d -> is_Some (gdf_crs d)) ->
     is_ok (distance_raster lines_gdf ref_da) = true) /\
  ((forall nonzero grid,
      Forall2 (fun (b : bool) d => nonneg d /\ (b = false -> d = Fin 0))
        nonzero (distance_transform_edt nonzero grid)) ->
   forall lines_gdf ref_da out,
     distance_raster lines_gdf ref_da = Ok out ->
     Forall nonneg (values out) /\
     forall c d gdf_proj i,
       crs (rio ref_da) = Some c -> lines_gdf = Some d ->
       gdf_empty d = false -> to_crs d c = Ok gdf_proj ->
       present_geometries gdf_proj <> [] ->
       rasterize (present_geometries gdf_proj) (rio ref_da) !! i = Some true ->
       values out !! i = Some (Fin 0)).
Proof.
  split; [|split].
  - intros lines_gdf ref_da Hs. exists (sentinel_raster ref_da).
    split; [by apply distance_raster_sentinel|reflexivity].
  - apply distance_raster_is_ok.
  - intros Hedt lines_gdf ref_da out Hout. split.
    + unfold distance_raster in Hout.
      assert (Hsent : Forall nonneg (values (sentinel_raster ref_da))).
      { simpl. apply Forall_replicate. exists 1000000. split; [done|lra]. }
      destruct (crs (rio ref_da)) as [c|]; [|by injection Hout as <-].
      destruct lines_gdf as [d|]; [|by injection Hout as <-].
      destruct (gdf_empty d); [by injection Hout as <-|].
      apply bind_ok in Hout as (gdf_proj & Hp & Hout).
      destruct (present_geometries gdf_proj) as [|g gs] eqn:Eg;
        [by injection Hout as <-|].
      destruct (resolution (rio ref_da)) as [xres yres].
      injection Hout as <-. simpl. apply Forall_fmap.
      specialize (Hedt (negb <$> rasterize (g :: gs) (rio ref_da)) (rio ref_da)).
      apply Forall2_Forall_r with (Q := nonneg) in Hedt.
      2:{ apply Forall_true. intros b y [Hy _]. exact Hy. }
      eapply Forall_impl; [exact Hedt|].
      intros v (q & -> & Hq). simpl. eexists. split; [reflexivity|].
      rewrite Qred_correct. apply Qmult_le_0_compat; [done|apply Qabs_nonneg].
    + intros c d gdf_proj i Hc -> Hd Hp Hne Hi.
      rewrite (distance_raster_values d ref_da out c gdf_proj Hc Hd Hp Hne Hout).
      specialize (Hedt (negb <$> rasterize (present_geometries gdf_proj)
                                    (rio ref_da)) (rio ref_da)).
      assert (Hz : (negb <$> rasterize (present_geometries gdf_proj)
                                (rio ref_da)) !! i = Some false).
      { by rewrite list_lookup_fmap, Hi. }
      destruct (Forall2_lookup_l _ _ _ _ _ Hedt Hz) as (v & Hv & _ & Hv0).
      rewrite list_lookup_fmap, Hv, (Hv0 eq_refl). simpl.
      rewrite Qred_zero by ring. reflexivity.
Qed.

End DistanceRaster.

Section DistanceRasterGridWorld.
Import GridWorld.

Lemma sqrt_down_nonneg (n : Z) : 0 <= sqrt_down n.
Proof.
  unfold sqrt_down. rewrite Qred_correct. unfold Qle. simpl.
  pose proof (Z.sqrt_nonneg (n * 1000000000000)). lia.
Qed.

(** The distance transform of the grid world meets the contract. *)
Lemma gw_edt_contract (nonzero : list bool) (grid : Grid) :
  Forall2 (fun (b : bool) d => nonneg d /\ (b = false -> d = Fin 0))
    nonzero (gw_edt nonzero grid).
Proof.
  unfold gw_edt. apply Forall2_same_length_lookup_2.
  { by rewrite length_imap. }
  intros i b d Hb Hd. rewrite list_lookup_imap, Hb in Hd. simpl in Hd.
  injection Hd as <-. destruct b; simpl.
  - split; [|discriminate].
    match goal with |- nonneg (match ?z with _ => _ end) => destruct z end.
    + eexists. split; [reflexivity|]. unfold nat_q.
      change 0 with (inject_Z 0). rewrite <- Zle_Qle. lia.
    + eexists. split; [reflexivity|]. apply sqrt_down_nonneg.
  - split; [|reflexivity]. exists 0. split; [reflexivity|lra].
Qed.

(** Without a feature set the raster is the sentinel; with the two test
    roads the distance is not negative, and 0 on the first pixel, which
    the first road crosses. *)
Lemma distance_raster_spec_witness :
  (exists out,
     @distance_raster grid_world None (raster 2 2 []) = Ok out /\
     values out = replicate 4 (Fin 1000000)) /\
  (exists out,
     @distance_raster grid_world (Some test_roads) (raster 3 8 []) = Ok out /\
     Forall nonneg (values out) /\
     values out !! 0%nat = Some (Fin 0)).
Proof.
  split.
  - apply (proj1 (@distance_raster_spec grid_world) None (raster 2 2 [])).
    right. by left.
  - destruct (@distance_raster grid_world (Some test_roads) (raster 3 8 []))
      as [out|e] eqn:E; [|discriminate E].
    exists out. split; [reflexivity|].
    destruct (proj2 (proj2 (@distance_raster_spec grid_world))
                gw_edt_contract (Some test_roads) (raster 3 8 []) out E)
      as [Hnn Hzero].
    split; [exact Hnn|].
    apply (Hzero "EPSG:4326" test_roads test_roads 0%nat);
      try reflexivity.
    discriminate.
Defined.

End DistanceRasterGridWorld.

(** ** The target extractor *)

Section ExtractFacts.
Context `{GeoLib}.

Section LoopFacts.
Variables (score_da : DataArray) (min_area_km2 : fval) (mode : string)
  (evidence_layers : gmap string DataArray) (thresholds : gmap string fval)
  (roads_gdf rivers_gdf : option GeoDataFrame).

Local Abbreviation loop := (targets_loop score_da min_area_km2 mode evidence_layers
                    thresholds roads_gdf rivers_gdf).

Local Abbreviation emit' := (emit score_da mode evidence_layers thresholds
                               roads_gdf rivers_gdf).

Lemma targets_loop_cons (poly : geom) (val : Z) (shapes : list (geom * Z))
    (rng : entropy) :
  loop ((poly, val) :: shapes) rng
  = if (val =? 1)%Z && negb (flt (Fin (_area_km2 poly)) min_area_km2)
    then emit' poly rng (loop shapes)
    else loop shapes rng.
Proof.
  cbn [targets_loop]. destruct (val =? 1)%Z; [|reflexivity].
  cbn [negb andb]. destruct (flt (Fin (_area_km2 poly)) min_area_km2);
    reflexivity.
Qed.

Lemma qualifying_cons (poly : geom) (val : Z) (shapes : list (geom * Z)) :
  qualifying min_area_km2 ((poly, val) :: shapes)
  = if (val =? 1)%Z && negb (flt (Fin (_area_km2 poly)) min_area_km2)
    then (poly, val) :: qualifying min_area_km2 shapes
    else qualifying min_area_km2 shapes.
Proof. reflexivity. Qed.

Lemma emit_inv (poly : geom) (rng rng' : entropy)
    (rest : entropy -> result (list Target * entropy)) (ts : list Target) :
  emit' poly rng rest = Ok (ts, rng') ->
  exists t ts',
    ts = t :: ts' /\ rest (snd (uuid4 rng)) = Ok (ts', rng') /\
    geometry t = poly /\ area_km2 t = _area_km2 poly /\
    id t = fst (uuid4 rng).
Proof.
  unfold emit. intros He.
  apply bind_ok in He as (max_score & _ & He).
  apply bind_ok in He as (evidence & _ & He).
  apply bind_ok in He as (d_road & _ & He).
  apply bind_ok in He as (d_river & _ & He).
  apply bind_ok in He as ([ts' rng''] & Hrest & He).
  injection He as <- <-. eexists _, ts'. by repeat split.
Qed.

(** The loop emits one target per qualifying shape, in order, with the
    area it measured. *)
Lemma targets_loop_inv (shapes : list (geom * Z)) (rng rng' : entropy)
    (ts : list Target) :
  loop shapes rng = Ok (ts, rng') ->
  geometry <$> ts = fst <$> qualifying min_area_km2 shapes /\
  Forall (fun t => area_km2 t = _area_km2 (geometry t) /\
                   flt (Fin (area_km2 t)) min_area_km2 = false) ts.
Proof.
  revert rng rng' ts.
  induction shapes as [|[poly val] shapes IH]; intros rng rng' ts Hl.
  { injection Hl as <- <-. split; [reflexivity|constructor]. }
  rewrite targets_loop_cons in Hl. rewrite qualifying_cons.
  destruct ((val =? 1)%Z && negb (flt (Fin (_area_km2 poly)) min_area_km2))
    eqn:Eq; [|by apply IH in Hl].
  apply emit_inv in Hl as (t & ts' & -> & Hrest & Hg & Ha & _).
  apply IH in Hrest as [Hgs Has].
  split; [rewrite !fmap_cons; by rewrite Hg, Hgs|].
  constructor; [|exact Has]. rewrite Hg. split; [exact Ha|].
  rewrite Ha. apply andb_true_iff in Eq as [_ Eq].
  by apply negb_true_iff in Eq.
Qed.

(** Nothing qualifies: the loop returns at once, without drawing. *)
Lemma targets_loop_none (shapes : list (geom * Z)) (rng : entropy) :
  qualifying min_area_km2 shapes = [] -> loop shapes rng = Ok ([], rng).
Proof.
  induction shapes as [|[poly val] shapes IH]; [reflexivity|].
  rewrite targets_loop_cons, qualifying_cons.
  destruct ((val =? 1)%Z && negb (flt (Fin (_area_km2 poly)) min_area_km2));
    [discriminate|exact IH].
Qed.

Lemma is_ok_bind {A B} (m : result A) (f : A -> result B) :
  is_ok m = true -> (forall a, m = Ok a -> is_ok (f a) = true) ->
  is_ok (m ≫= f) = true.
Proof. destruct m as [a|e]; simpl; [auto|discriminate]. Qed.

Lemma is_ok_mean (layers : gmap string DataArray) (mask : list bool)
    (name : string) :
  is_ok (_mean layers mask name) = has_key layers name.
Proof. unfold _mean, getitem, has_key. by destruct (layers !! name). Qed.

Lemma is_ok_pct (layers : gmap string DataArray) (mask : list bool)
    (name op : string) (thr : fval) :
  is_ok (_pct layers mask name op thr) = has_key layers name.
Proof.
  unfold _pct, getitem, has_key.
  destruct (layers !! name) as [arr|]; [|reflexivity]. simpl.
  destruct (select mask (values arr)); [reflexivity|].
  repeat match goal with
         | |- context [if ?b then _ else _] => destruct b
         end; reflexivity.
Qed.

Lemma is_ok_nanmax (l : list fval) : l <> [] -> is_ok (nanmax l) = true.
Proof.
  destruct l as [|x l]; [done|]. intros _. unfold nanmax.
  by destruct (List.filter not_nan (x :: l)).
Qed.

Lemma is_ok_distance_to_lines (g : geom) (gdf : option GeoDataFrame) :
  lines_ready gdf = true -> is_ok (_distance_to_lines g gdf) = true.
Proof.
  unfold lines_ready, _distance_to_lines. destruct gdf as [d|]; [|done].
  destruct (gdf_empty d); [done|]. simpl. intros Hc.
  destruct (centroid g) as [cx cy]. unfold to_crs.
  by destruct (gdf_crs d).
Qed.

Lemma is_ok_compute_evidence (mask : list bool) :
  evidence_ready mode evidence_layers thresholds = true ->
  is_ok (compute_evidence mask evidence_layers thresholds mode) = true.
Proof.
  unfold evidence_ready, compute_evidence.
  destruct (String.eqb mode "coastal"); cbn [forallb]; intros Hr;
    repeat match type of Hr with
           | _ && _ = true => apply andb_true_iff in Hr as [Hr ?]
           end;
    repeat match goal with
           | Hk : _ && _ = true |- _ => apply andb_true_iff in Hk as [? ?]
           end.
  - repeat (apply is_ok_bind;
            [first [by rewrite is_ok_mean | by rewrite is_ok_pct
                   | by rewrite is_ok_getitem]
            |intros ? _]).
    reflexivity.
  - apply is_ok_bind; [by rewrite is_ok_getitem|intros slope _].
    apply is_ok_bind.
    { destruct (select mask (values slope)); [reflexivity|].
      repeat (apply is_ok_bind; [by rewrite is_ok_getitem|intros ? _]).
      reflexivity. }
    intros pct_relief _.
    repeat (apply is_ok_bind;
            [first [by rewrite is_ok_mean | by rewrite is_ok_pct
                   | by rewrite is_ok_getitem
                   | destruct (has_key evidence_layers "geology_mask") eqn:Eg;
                     [first [by rewrite is_ok_mean | by rewrite is_ok_pct]
                     |reflexivity]]
            |intros ? _]).
    reflexivity.
Qed.

(** The loop returns when every qualifying shape covers a pixel and the
    evidence layers and feature sets are usable. *)
Lemma targets_loop_ok (shapes : list (geom * Z)) (rng : entropy) :
  evidence_ready mode evidence_layers thresholds = true ->
  lines_ready roads_gdf = true -> lines_ready rivers_gdf = true ->
  Forall (fun pv => select (_geom_mask (fst pv) score_da) (values score_da)
                    <> [])
    (qualifying min_area_km2 shapes) ->
  is_ok (loop shapes rng) = true.
Proof.
  intros Hev Hroads Hrivers. revert rng.
  induction shapes as [|[poly val] shapes IH]; intros rng Hcov; [reflexivity|].
  rewrite targets_loop_cons. rewrite qualifying_cons in Hcov.
  destruct ((val =? 1)%Z && negb (flt (Fin (_area_km2 poly)) min_area_km2));
    [|by apply IH].
  apply Forall_cons in Hcov as [Hpoly Hcov]. unfold emit.
  apply is_ok_bind; [by apply is_ok_nanmax|intros max_score _].
  apply is_ok_bind; [by apply is_ok_compute_evidence|intros evidence _].
  apply is_ok_bind; [by apply is_ok_distance_to_lines|intros d_road _].
  apply is_ok_bind; [by apply is_ok_distance_to_lines|intros d_river _].
  apply is_ok_bind; [by apply IH|]. by intros [ts' rng'] _.
Qed.

(** The randomness reaches the result only through the identifiers. *)
Lemma targets_loop_ids (shapes : list (geom * Z)) (rng1 rng2 : entropy) :
  same_up_to_ids (loop shapes rng1) (loop shapes rng2).
Proof.
  revert rng1 rng2.
  induction shapes as [|[poly val] shapes IH]; intros rng1 rng2;
    [reflexivity|].
  rewrite !targets_loop_cons.
  destruct ((val =? 1)%Z && negb (flt (Fin (_area_km2 poly)) min_area_km2));
    [|by apply IH].
  unfold emit.
  destruct (nanmax _) as [max_score|e]; [|reflexivity].
  cbn [mbind result_bind].
  destruct (compute_evidence _ _ _ _) as [evidence|e]; [|reflexivity].
  cbn [mbind result_bind].
  destruct (_distance_to_lines poly roads_gdf) as [d_road|e];
    [|reflexivity].
  cbn [mbind result_bind].
  destruct (_distance_to_lines poly rivers_gdf) as [d_river|e];
    [|reflexivity].
  cbn [mbind result_bind].
  specialize (IH (snd (uuid4 rng1)) (snd (uuid4 rng2))).
  unfold same_up_to_ids in *.
  destruct (loop shapes (snd (uuid4 rng1))) as [[ts1 r1]|e1],
    (loop shapes (snd (uuid4 rng2))) as [[ts2 r2]|e2];
    cbn [mbind result_bind]; try done.
  rewrite !fmap_cons. by rewrite IH.
Qed.

End LoopFacts.
Lemma cleaned_mask_inv (score_da : DataArray) (threshold min_area_km2 : fval)
    (mask : list bool) :
  cleaned_mask score_da threshold min_area_km2 = Ok mask ->
  exists m, min_area_km2 = Fin m /\ ~ pixel_area_km2 (rio score_da) == 0.
Proof.
  unfold cleaned_mask, py_div. intros Hc.
  destruct (Qeq_bool (pixel_area_km2 (rio score_da)) 0) eqn:Ep;
    [discriminate|].
  apply Qeq_bool_neq in Ep.
  destruct min_area_km2 as [|s|m]; try discriminate. eauto.
Qed.

Lemma cleaned_mask_ok (score_da : DataArray) (threshold : fval) (m : Q) :
  ~ pixel_area_km2 (rio score_da) == 0 ->
  is_ok (cleaned_mask score_da threshold (Fin m)) = true.
Proof.
  intros Hp. unfold cleaned_mask, py_div.
  destruct (Qeq_bool (pixel_area_km2 (rio score_da)) 0) eqn:Ep.
  { by apply Qeq_bool_iff in Ep. }
  cbn [mbind result_bind fdiv]. rewrite Ep. reflexivity.
Qed.

Lemma qualifying_all (min_area_km2 : fval) (shapes : list (geom * Z)) :
  Forall (fun pv => snd pv = 1%Z /\
                    flt (Fin (_area_km2 (fst pv))) min_area_km2 = false)
    shapes ->
  qualifying min_area_km2 shapes = shapes.
Proof.
  intros Hall. unfold qualifying. apply filter_all.
  eapply Forall_impl; [exact Hall|]. intros [poly val] [Hv Ha]. simpl in *.
  by rewrite Hv, Ha.
Qed.

Lemma qualifying_none (min_area_km2 : fval) (shapes : list (geom * Z)) :
  Forall (fun pv => flt (Fin (_area_km2 (fst pv))) min_area_km2 = true)
    shapes ->
  qualifying min_area_km2 shapes = [].
Proof.
  unfold qualifying. induction 1 as [|[poly val] l Ha _ IH]; [reflexivity|].
  simpl in *. rewrite Ha, andb_false_r. exact IH.
Qed.

(** C6.  Whenever [extract_targets] returns, the minimum area is a
    number and every target has an exact area at least that minimum;
    the targets are, up to order, the vectorized shapes of the cleaned
    mask that have value 1 and an exact area not below the minimum, one
    target per shape.  If every vectorized shape has an exact area
    below the minimum (as for a 2x2 block that is too small), the
    result is the empty list.  If every vectorized shape is large
    enough and covers a pixel, and the evidence layers and feature sets
    are usable, the extractor returns exactly one target per shape,
    that is per connected component.  The cleaned mask exists for every
    finite minimum on a grid whose pixel area is not 0. *)
Theorem extract_targets_area_filter :
  (forall score_da threshold min_area_km2 mode evidence_layers thresholds
          roads_gdf rivers_gdf rng ts rng',
     extract_targets score_da threshold min_area_km2 mode evidence_layers
       thresholds roads_gdf rivers_gdf rng = Ok (ts, rng') ->
     exists m mask,
       min_area_km2 = Fin m /\
       cleaned_mask score_da threshold min_area_km2 = Ok mask /\
       Forall (fun t => m <= area_km2 t /\
                        area_km2 t = _area_km2 (geometry t)) ts /\
       geometry <$> ts
         ≡ₚ fst <$> qualifying min_area_km2 (shapes mask (rio score_da))) /\
  (forall score_da threshold min_area_km2 mode evidence_layers thresholds
          roads_gdf rivers_gdf rng mask,
     cleaned_mask score_da threshold min_area_km2 = Ok mask ->
     Forall (fun pv => flt (Fin (_area_km2 (fst pv))) min_area_km2 = true)
       (shapes mask (rio score_da)) ->
     extract_targets score_da threshold min_area_km2 mode evidence_layers
       thresholds roads_gdf rivers_gdf rng = Ok ([], rng)) /\
  (forall score_da threshold min_area_km2 mode evidence_layers thresholds
          roads_gdf rivers_gdf rng mask,
     cleaned_mask score_da threshold min_area_km2 = Ok mask ->
     evidence_ready mode evidence_layers thresholds = true ->
     lines_ready roads_gdf = true -> lines_ready rivers_gdf = true ->
     Forall (fun pv =>
               snd pv = 1%Z /\
               flt (Fin (_area_km2 (fst pv))) min_area_km2 = false /\
               select (_geom_mask (fst pv) score_da) (values score_da) <> [])
       (shapes mask (rio score_da)) ->
     exists ts rng',
       extract_targets score_da threshold min_area_km2 mode evidence_layers
         thresholds roads_gdf rivers_gdf rng = Ok (ts, rng') /\
       geometry <$> ts ≡ₚ fst <$> shapes mask (rio score_da)) /\
  (forall score_da threshold m,
     ~ pixel_area_km2 (rio score_da) == 0 ->
     is_ok (cleaned_mask score_da threshold (Fin m)) = true).
Proof.
  split; [|split; [|split]].
  - intros score_da threshold min_area_km2 mode evidence_layers thresholds
      roads_gdf rivers_gdf rng ts rng' He.
    unfold extract_targets in He.
    apply bind_ok in He as (mask & Hmask & He).
    apply bind_ok in He as ([ts0 rng0] & Hloop & He).
    injection He as <- <-.
    destruct (cleaned_mask_inv _ _ _ _ Hmask) as (m & -> & _).
    apply targets_loop_inv in Hloop as [Hg Ha].
    exists m, mask. split; [reflexivity|]. split; [exact Hmask|]. split.
    + eapply Permutation_Forall; [symmetry; apply sort_reverse_perm|].
      eapply Forall_impl; [exact Ha|]. intros t [Ht Hlt]. split; [|exact Ht].
      simpl in Hlt. by apply Qlt_bool_false in Hlt.
    + rewrite <- Hg. apply fmap_Permutation, sort_reverse_perm.
  - intros score_da threshold min_area_km2 mode evidence_layers thresholds
      roads_gdf rivers_gdf rng mask Hmask Hsmall.
    unfold extract_targets. rewrite Hmask. cbn [mbind result_bind].
    rewrite targets_loop_none by (by apply qualifying_none). reflexivity.
  - intros score_da threshold min_area_km2 mode evidence_layers thresholds
      roads_gdf rivers_gdf rng mask Hmask Hev Hroads Hrivers Hall.
    assert (Hq : qualifying min_area_km2 (shapes mask (rio score_da))
                 = shapes mask (rio score_da)).
    { apply qualifying_all. eapply Forall_impl; [exact Hall|].
      intros pv (Hv & Ha & _). by split. }
    pose proof (targets_loop_ok score_da min_area_km2 mode evidence_layers
                  thresholds roads_gdf rivers_gdf
                  (shapes mask (rio score_da)) rng Hev Hroads Hrivers) as Hok.
    rewrite Hq in Hok.
    destruct (targets_loop score_da min_area_km2 mode evidence_layers
                thresholds roads_gdf rivers_gdf (shapes mask (rio score_da))
                rng) as [[ts0 rng0]|e] eqn:Hloop.
    2:{ exfalso. assert (false = true); [|discriminate]. apply Hok.
        eapply Forall_impl; [exact Hall|]. by intros pv (_ & _ & Hs). }
    exists (sort_reverse target_key_lt ts0), rng0. split.
    + unfold extract_targets. rewrite Hmask. cbn [mbind result_bind].
      by rewrite Hloop.
    + apply targets_loop_inv in Hloop as [Hg _]. rewrite Hq in Hg.
      rewrite <- Hg. apply fmap_Permutation, sort_reverse_perm.
  - apply cleaned_mask_ok.
Qed.

(** C2 (amended).  For fixed inputs, two invocations of
    [extract_targets] that differ only in the randomness behind
    [uuid.uuid4()] raise the same error or return the same targets in
    the same order with every field equal except [id]. *)
Theorem extract_targets_ids_only score_da threshold min_area_km2 mode
    evidence_layers thresholds roads_gdf rivers_gdf (rng1 rng2 : entropy) :
  same_up_to_ids
    (extract_targets score_da threshold min_area_km2 mode evidence_layers
       thresholds roads_gdf rivers_gdf rng1)
    (extract_targets score_da threshold min_area_km2 mode evidence_layers
       thresholds roads_gdf rivers_gdf rng2).
Proof.
  unfold extract_targets.
  destruct (cleaned_mask score_da threshold min_area_km2) as [mask|e];
    [|reflexivity].
  cbn [mbind result_bind].
  pose proof (targets_loop_ids score_da min_area_km2 mode evidence_layers
                thresholds roads_gdf rivers_gdf (shapes mask (rio score_da))
                rng1 rng2) as Hids.
  unfold same_up_to_ids in *.
  destruct (targets_loop _ _ _ _ _ _ _ _ rng1) as [[ts1 r1]|e1],
    (targets_loop _ _ _ _ _ _ _ _ rng2) as [[ts2 r2]|e2];
    cbn [mbind result_bind]; try done.
  change target_key_lt
    with (fun x y : Target => target_key_lt (erase_id x) (erase_id y)).
  by rewrite !(sort_reverse_fmap target_key_lt erase_id), Hids.
Qed.

End ExtractFacts.

Section ExtractGridWorld.
Import GridWorld.

Lemma corner_mask_10 :
  @cleaned_mask grid_world corner_score (Fin 0.9) (Fin 10)
  = Ok (replicate 100 false).
Proof. vm_compute. reflexivity. Qed.

Lemma corner_mask_4 :
  @cleaned_mask grid_world corner_score (Fin 0.9) (Fin 4)
  = Ok ([true; true] ++ replicate 8 false ++ [true; true]
        ++ replicate 88 false)%list.
Proof. vm_compute. reflexivity. Qed.

Lemma corner_shapes_4 :
  @shapes grid_world
    ([true; true] ++ replicate 8 false ++ [true; true]
     ++ replicate 88 false)%list
    (rio corner_score)
  = [(corner_block, 1%Z)].
Proof. vm_compute. reflexivity. Qed.

(** The repository's test: with a minimum of 10 km² the corner block
    (4 pixels of about 1.23 km²) yields no target.  With a minimum of
    4 km² it yields exactly one target, the block itself. *)
Lemma extract_targets_area_filter_witness :
  extract_corner 10 entropy_a = Ok ([], entropy_a) /\
  exists ts rng',
    extract_corner 4 entropy_a = Ok (ts, rng') /\
    geometry <$> ts ≡ₚ [corner_block].
Proof.
  split.
  - apply (proj1 (proj2 (@extract_targets_area_filter grid_world))
             corner_score (Fin 0.9) (Fin 10) "coastal" test_layers
             test_thresholds None None entropy_a _ corner_mask_10).
    vm_compute. constructor.
  - destruct (proj1 (proj2 (proj2 (@extract_targets_area_filter grid_world)))
                corner_score (Fin 0.9) (Fin 4) "coastal" test_layers
                test_thresholds None None entropy_a _ corner_mask_4)
      as (ts & rng' & Hts & Hperm).
    + vm_compute. reflexivity.
    + reflexivity.
    + reflexivity.
    + rewrite corner_shapes_4. constructor; [|constructor].
      split; [reflexivity|]. split; [vm_compute; reflexivity|].
      vm_compute. discriminate.
    + exists ts, rng'. split; [exact Hts|].
      rewrite corner_shapes_4 in Hperm. exact Hperm.
Defined.

(** C2 as stated fails: the identifier of a target is drawn from the
    operating system's randomness, so two invocations on the same
    inputs return different identifiers. *)
Lemma extract_targets_ids_counterexample :
  target_ids (extract_corner 4 entropy_a)
    = Some [302240678275694148452352%Z] /\
  target_ids (extract_corner 4 entropy_b)
    = Some [302240678275694148452353%Z].
Proof. split; vm_compute; reflexivity. Qed.

End ExtractGridWorld.

(** ** The geology layer *)

Section Geology.
Context `{GeoLib}.



(** A feature whose ["properties"] member is JSON [null] aborts the
    rasterization, whatever else the collection holds after it. *)
Lemma rasterize_geology_null_properties (g : option geom)
    (features : list Feature) (ref_da : DataArray) :
  _rasterize_geology
    (Some ({| properties := PropsNull; feat_geometry := g |} :: features))
    ref_da
  = Raise AttributeError.
Proof. reflexivity. Qed.

Lemma compute_evidence_no_geology (mask : list bool)
    (layers : gmap string DataArray) (thresholds : gmap string fval)
    (ev : gmap string fval) :
  has_key layers "geology_mask" = false ->
  compute_evidence mask layers thresholds "hardrock" = Ok ev ->
  ev !! "geology_mask_mean" = Some (Fin 0) /\
  ev !! "pct_geology_match" = Some (Fin 0) /\
  "Favorable lithology match" ∉ evidence_chips ev "hardrock".
Proof.
  intros Hk Hev. unfold compute_evidence in Hev.
  change (String.eqb "hardrock" "coastal") with false in Hev. cbv iota in Hev.
  rewrite Hk in Hev.
  apply bind_ok in Hev as (slope & _ & Hev).
  apply bind_ok in Hev as (pct_relief & _ & Hev).
  apply bind_ok in Hev as (ndvi_mean & _ & Hev).
  apply bind_ok in Hev as (ndwi_mean & _ & Hev).
  apply bind_ok in Hev as (slope_mean & _ & Hev).
  apply bind_ok in Hev as (lineament_mean & _ & Hev).
  apply bind_ok in Hev as (geology_mask_mean & [= <-] & Hev).
  apply bind_ok in Hev as (lineament_threshold_value & _ & Hev).
  apply bind_ok in Hev as (pct_lineament_high & _ & Hev).
  apply bind_ok in Hev as (ndvi_max & _ & Hev).
  apply bind_ok in Hev as (pct_low_ndvi & _ & Hev).
  apply bind_ok in Hev as (pct_geology_match & [= <-] & Hev).
  injection Hev as <-.
  split; [reflexivity|]. split; [reflexivity|].
  unfold evidence_chips.
  set (cands := sort_reverse metric_lt _).
  intros Hin. apply list_elem_of_fmap in Hin as ([l v] & Hl & Hin).
  simpl in Hl. subst l.
  apply list_elem_of_In, filter_In in Hin as [Hin _].
  apply list_elem_of_In, elem_of_take_l in Hin.
  unfold cands in Hin. rewrite (sort_reverse_perm metric_lt) in Hin.
  unfold chip_candidates in Hin.
  change (String.eqb "hardrock" "coastal") with false in Hin. cbv iota in Hin.
  change (get _ "pct_geology_match" (Fin 0)) with (Fin 0) in Hin.
  change (fgt (Fin 0) (Fin 0)) with false in Hin. cbv iota in Hin.
  rewrite app_nil_r in Hin.
  repeat (apply elem_of_cons in Hin as [Hin|Hin]; [discriminate Hin|]).
  inversion Hin.
Qed.

Section LoopEvidence.
Variables (score_da : DataArray) (min_area_km2 : fval) (mode : string)
  (evidence_layers : gmap string DataArray) (thresholds : gmap string fval)
  (roads_gdf rivers_gdf : option GeoDataFrame).

Local Abbreviation recorded' :=
  (recorded score_da mode evidence_layers thresholds roads_gdf rivers_gdf).

Lemma targets_loop_recorded (shapes : list (geom * Z)) (rng rng' : entropy)
    (ts : list Target) :
  targets_loop score_da min_area_km2 mode evidence_layers thresholds
    roads_gdf rivers_gdf shapes rng = Ok (ts, rng') ->
  Forall recorded' ts.
Proof.
  revert rng rng' ts.
  induction shapes as [|[poly val] shapes IH]; intros rng rng' ts Hl.
  { injection Hl as <- <-. constructor. }
  rewrite targets_loop_cons in Hl.
  destruct ((val =? 1)%Z && negb (flt (Fin (_area_km2 poly)) min_area_km2));
    [|by apply IH in Hl].
  unfold emit in Hl.
  apply bind_ok in Hl as (max_score & Hmax & Hl).
  apply bind_ok in Hl as (evidence & Hev & Hl).
  apply bind_ok in Hl as (d_road & Hroad & Hl).
  apply bind_ok in Hl as (d_river & Hriver & Hl).
  apply bind_ok in Hl as ([ts' rng''] & Hrest & Hl).
  injection Hl as <- <-. constructor; [|by apply IH in Hrest].
  unfold recorded. simpl. by repeat split.
Qed.

Lemma extract_targets_recorded (threshold : fval) (rng rng' : entropy)
    (ts : list Target) :
  extract_targets score_da threshold min_area_km2 mode evidence_layers
    thresholds roads_gdf rivers_gdf rng = Ok (ts, rng') ->
  Forall recorded' ts.
Proof.
  unfold extract_targets. intros He.
  apply bind_ok in He as (mask & _ & He).
  apply bind_ok in He as ([ts0 rng0] & Hloop & He).
  injection He as <- <-.
  eapply Permutation_Forall; [symmetry; apply sort_reverse_perm|].
  by apply targets_loop_recorded in Hloop.
Qed.

End LoopEvidence.


(** Without a lithology layer the run reports geology weight 0, and
    every target reports the two geology metrics as 0 and carries no
    lithology chip. *)
Lemma run_hardrock_no_lithology ndvi ndwi slope lineaments ref_da params
    roads rivers rng res rng' :
  run_hardrock ndvi ndwi slope lineaments ref_da None params roads rivers rng
    = Ok (res, rng') ->
  weights (score_meta res) !! "geology_boost" = Some (Fin 0) /\
  Forall (fun t =>
            evidence t !! "geology_mask_mean" = Some (Fin 0) /\
            evidence t !! "pct_geology_match" = Some (Fin 0) /\
            "Favorable lithology match" ∉ evidence_summary t)
    (targets res).
Proof.
  unfold run_hardrock. cbn [_rasterize_geology mbind result_bind].
  intros Hr.
  apply bind_ok in Hr as ([score info] & Hscore & Hr).
  apply bind_ok in Hr as (lp & _ & Hr).
  apply bind_ok in Hr as (ltv & _ & Hr).
  apply bind_ok in Hr as (threshold_value & _ & Hr).
  apply bind_ok in Hr as ([ts rng0] & Hext & Hr).
  injection Hr as <- <-. cbn [score_meta targets weights].
  destruct (hardrock_score_pixel _ _ _ _ _ _ _ _ Hscore)
    as (lo & hi & w1 & w2 & w3 & w4 & _ & _ & Hw & Hmeta & _).
  apply hardrock_weights_absent_geo in Hw. subst w4.
  split; [by rewrite Hmeta|].
  apply extract_targets_recorded in Hext.
  eapply Forall_impl; [exact Hext|].
  intros t (Hev & Hsum & _). rewrite Hsum.
  by apply compute_evidence_no_geology in Hev.
Qed.

(** C10: a collection holding a feature whose properties are JSON
    [null] does not reach the no-lithology path: the rasterization,
    and with it the run, raises. *)
Theorem geology_null_properties_raises (g : option geom)
    (features : list Feature) ndvi ndwi slope lineaments ref_da params
    roads rivers rng :
  matches_keyword (lower (join " " [])) = false /\
  _rasterize_geology
    (Some ({| properties := PropsNull; feat_geometry := g |} :: features))
    ref_da
  = Raise AttributeError /\
  run_hardrock ndvi ndwi slope lineaments ref_da
    (Some ({| properties := PropsNull; feat_geometry := g |} :: features))
    params roads rivers rng
  = Raise AttributeError.
Proof. split; [reflexivity|]. split; reflexivity. Qed.

End Geology.

(** ** Min-max normalization *)

Section MinMaxFacts.









Lemma elem_of_filter_not_nan (l : list fval) (x : fval) :
  x ∈ List.filter not_nan l <-> x ∈ l /\ x <> NaN.
Proof.
  rewrite !list_elem_of_In, filter_In. unfold not_nan.
  destruct x; simpl; intuition congruence.
Qed.

Lemma no_inf_filter (l : list fval) :
  Forall (fun x => no_inf x = true) l ->
  Forall (fun x => is_finite x = true) (List.filter not_nan l).
Proof.
  intros Hl. apply Forall_forall. intros x Hx.
  apply elem_of_filter_not_nan in Hx as [Hx Hn].
  rewrite Forall_forall in Hl. specialize (Hl x Hx). by destruct x.
Qed.




(** [normalize_minmax] maps every pixel through [scaled], with the two
    bounds it resolved. *)
Lemma normalize_minmax_inv (arr : list fval) (min_val max_val : option fval)
    (out : list fval) :
  normalize_minmax arr min_val max_val = Ok out ->
  exists lo hi,
    match min_val with None => nanmin arr | Some v => Ok v end = Ok lo /\
    match max_val with None => nanmax arr | Some v => Ok v end = Ok hi /\
    out = scaled lo hi <$> arr.
Proof.
  unfold normalize_minmax. intros Hn.
  apply bind_ok in Hn as (lo & Hlo & Hn).
  apply bind_ok in Hn as (hi & Hhi & Hn).
  exists lo, hi. split; [exact Hlo|]. split; [exact Hhi|].
  unfold scaled. destruct (feqb (fsub hi lo) (Fin 0)); by injection Hn as <-.
Qed.







Lemma scaled_mono (lo hi x y : Q) :
  lo <= hi -> x <= y ->
  exists a b, scaled (Fin lo) (Fin hi) (Fin x) = Fin a /\
              scaled (Fin lo) (Fin hi) (Fin y) = Fin b /\ a <= b.
Proof.
  intros Hlh Hxy. unfold scaled. simpl.
  destruct (Qeq_bool (Qred (hi - lo)) 0) eqn:E.
  { exists 0, 0. repeat split; lra. }
  apply Qeq_bool_neq in E. rewrite Qred_correct in E.
  assert (Hpos : 0 < hi - lo) by lra.
  set (u := Qred (Qred (x - lo) / Qred (hi - lo))).
  set (v := Qred (Qred (y - lo) / Qred (hi - lo))).
  assert (Huv : u <= v).
  { unfold u, v. rewrite !Qred_correct.
    apply Qmult_le_compat_r; [lra|].
    apply Qlt_le_weak, Qinv_lt_0_compat. exact Hpos. }
  unfold clip.
  destruct (QMicromega.Qlt_bool u 0) eqn:Eu0;
    destruct (QMicromega.Qlt_bool v 0) eqn:Ev0;
    destruct (QMicromega.Qlt_bool 1 u) eqn:Eu1;
    destruct (QMicromega.Qlt_bool 1 v) eqn:Ev1;
    repeat match goal with
           | H : QMicromega.Qlt_bool _ _ = true |- _ =>
               apply QMicromega.Qlt_bool_iff in H
           | H : QMicromega.Qlt_bool _ _ = false |- _ =>
               apply Qlt_bool_false in H
           end;
    eexists _, _; (split; [reflexivity|]); (split; [reflexivity|]); lra.
Qed.

End MinMaxFacts.

Section NormalizeMinMax.

(** Whatever the bounds, [normalize_minmax] keeps the shape of its
    input and returns, at every pixel, NaN or a number of [[0, 1]]. *)
Theorem normalize_minmax_range (arr : list fval)
    (min_val max_val : option fval) (out : list fval) :
  normalize_minmax arr min_val max_val = Ok out ->
  length out = length arr /\
  Forall (fun v => v = NaN \/ in_range 0 1 v) out.
Proof.
  intros Hn. apply normalize_minmax_inv in Hn as (lo & hi & _ & _ & ->).
  split; [by rewrite length_fmap|].
  apply Forall_fmap, Forall_forall. intros x _. apply scaled_nan_or_range.
Qed.

Lemma normalize_minmax_range_witness :
  normalize_minmax [Fin 2; NaN; Fin 4; Fin 3] None None
    = Ok [Fin 0; NaN; Fin 1; Fin (1 # 2)] /\
  length [Fin 0; NaN; Fin 1; Fin (1 # 2)] = 4%nat /\
  Forall (fun v => v = NaN \/ in_range 0 1 v) [Fin 0; NaN; Fin 1; Fin (1 # 2)].
Proof.
  split; [vm_compute; reflexivity|].
  apply (normalize_minmax_range [Fin 2; NaN; Fin 4; Fin 3] None None).
  vm_compute. reflexivity.
Defined.








End NormalizeMinMax.

(** ** The 8-bit preview *)

Section ScaleToUint8.
Variable cast_invalid : fval -> Z.




Lemma trunc_byte (q : Q) :
  0 <= q -> q <= 255 ->
  (0 <= Z.quot (Qnum q) (Z.pos (Qden q)) <= 255)%Z.
Proof.
  intros H0 H255. rewrite trunc_floor_nonneg by exact H0. split.
  - change 0%Z with (Qfloor 0). by apply Qfloor_resp_le.
  - change 255%Z with (Qfloor 255). by apply Qfloor_resp_le.
Qed.


End ScaleToUint8.


(** ** The spectral indices *)

Section IndicesFacts.

Local Open Scope string_scope.

Lemma band_map_fold (l : list (string * list fval)) (n : nat)
    (m0 : gmap string nat) (b : string) :
  foldl (fun m ib => <[fst (snd ib) := fst ib]> m) m0 (enumerate_from n l) !! b
  = match last (List.filter (fun ib => String.eqb (fst (snd ib)) b)
                  (enumerate_from n l)) with
    | Some ib => Some (fst ib)
    | None => m0 !! b
    end.
Proof.
  revert n m0. induction l as [|[b' vals] l IH]; intros n m0; [done|].
  cbn [enumerate_from foldl List.filter fst snd]. rewrite IH.
  destruct (String.eqb b' b) eqn:E.
  - apply String.eqb_eq in E as ->.
    destruct (List.filter _ (enumerate_from (S n) l)) as [|ib rest] eqn:Ef.
    + simpl. by rewrite lookup_insert_eq.
    + rewrite last_cons_cons.
      destruct (last (ib :: rest)) eqn:El; [done|]. by apply last_None in El.
  - apply String.eqb_neq in E.
    destruct (last _); [done|]. by rewrite lookup_insert_ne.
Qed.

Lemma elem_of_enumerate_from {A} (l : list A) (n i : nat) (x : A) :
  (i, x) ∈ enumerate_from n l -> (n <= i)%nat /\ l !! (i - n)%nat = Some x.
Proof.
  revert n. induction l as [|y l IH]; intros n Hin; [inversion Hin|].
  cbn [enumerate_from] in Hin. apply elem_of_cons in Hin as [[= -> ->]|Hin].
  - split; [lia|]. by rewrite Nat.sub_diag.
  - apply IH in Hin as [Hle Hl]. split; [lia|].
    replace (i - n)%nat with (S (i - S n)) by lia. exact Hl.
Qed.

(** The index that [band_map] gives for a label is in range and points
    at a band with that label. *)
Lemma band_map_lookup (s2_da : BandArray) (b : string) (i : nat) :
  band_map s2_da !! b = Some i ->
  exists vals, band s2_da !! i = Some (b, vals) /\
               values (isel s2_da i) = vals.
Proof.
  unfold band_map. rewrite band_map_fold, lookup_empty.
  destruct (last _) as [[j [b' vals]]|] eqn:El; [|done].
  intros [= <-]. apply last_Some_elem_of in El.
  apply list_elem_of_In, filter_In in El as [Hin Hb]. simpl in Hb.
  apply String.eqb_eq in Hb as ->.
  apply list_elem_of_In, elem_of_enumerate_from in Hin as [_ Hl]. simpl in *.
  rewrite Nat.sub_0_r in Hl. exists vals. split; [exact Hl|].
  unfold isel. simpl. by rewrite Hl.
Qed.








End IndicesFacts.

(** ** The lineament density *)

Section LineamentFacts.
Context `{ImageLib}.

Lemma is_ok_normalize_minmax (arr : list fval) :
  arr <> [] -> is_ok (normalize_minmax arr None None) = true.
Proof.
  intros Hne. unfold normalize_minmax, nanmin, nanmax.
  destruct arr as [|x arr]; [done|].
  destruct (List.filter not_nan (x :: arr)); cbn [mbind result_bind];
    by destruct (feqb _ _).
Qed.

(** Whatever the edge detector, the thinning and the smoothing
    return, the lineament density is on the grid of the hillshade and
    holds, at every pixel, NaN or a number of [[0, 1]]. *)
Theorem lineament_density_range (hillshade_da out : DataArray) :
  lineament_density hillshade_da = Ok out ->
  rio out = rio hillshade_da /\
  Forall (fun v => v = NaN \/ in_range 0 1 v) (values out).
Proof.
  unfold lineament_density. intros Hl.
  apply bind_ok in Hl as (img & _ & Hl).
  apply bind_ok in Hl as (density & Hd & Hl).
  injection Hl as <-. split; [reflexivity|].
  by apply normalize_minmax_range in Hd as [_ Hd].
Qed.

(** A hillshade without pixels makes [lineament_density] raise
    [ValueError]; on any other hillshade it returns, provided the three
    image operations return arrays of the shape of their input. *)
Theorem lineament_density_returns (hillshade_da : DataArray) :
  (forall img grid sigma, length (canny img grid sigma) = length img) ->
  (forall edges grid, length (skeletonize edges grid) = length edges) ->
  (forall img grid size, length (uniform_filter img grid size) = length img) ->
  (values hillshade_da = [] ->
   lineament_density hillshade_da = Raise ValueError) /\
  (values hillshade_da <> [] ->
   exists out, lineament_density hillshade_da = Ok out /\
               length (values out) = length (values hillshade_da)).
Proof.
  intros Hcanny Hskel Hfilter. unfold lineament_density. split.
  { intros ->. reflexivity. }
  intros Hne.
  destruct (normalize_minmax (values hillshade_da) None None) as [img|e] eqn:Ei.
  2:{ pose proof (is_ok_normalize_minmax _ Hne) as Hok.
      by rewrite Ei in Hok. }
  cbn [mbind result_bind].
  apply normalize_minmax_range in Ei as [Hlen _].
  set (density := uniform_filter _ _ _).
  assert (Hd : length density = length (values hillshade_da)).
  { unfold density. by rewrite Hfilter, length_fmap, Hskel, Hcanny. }
  destruct (normalize_minmax density None None) as [out|e] eqn:Eo.
  2:{ assert (Hdne : density <> []).
      { intros E. rewrite E in Hd. destruct (values hillshade_da); done. }
      pose proof (is_ok_normalize_minmax _ Hdne) as Hok.
      by rewrite Eo in Hok. }
  cbn [mbind result_bind]. eexists. split; [reflexivity|]. simpl.
  apply normalize_minmax_range in Eo as [Hlo _]. congruence.
Qed.

End LineamentFacts.

Lemma lineament_density_range_witness :
  lineament_density (raster 1 3 [Fin (1 # 5); Fin (9 # 10); Fin (3 # 5)])
    = Ok (raster 1 3 [Fin 0; Fin 1; Fin 1]) /\
  Forall (fun v => v = NaN \/ in_range 0 1 v) [Fin 0; Fin 1; Fin 1].
Proof.
  split; [vm_compute; reflexivity|].
  apply (lineament_density_range
           (raster 1 3 [Fin (1 # 5); Fin (9 # 10); Fin (3 # 5)])
           (raster 1 3 [Fin 0; Fin 1; Fin 1])).
  vm_compute. reflexivity.
Defined.

Lemma lineament_density_returns_witness :
  lineament_density (raster 0 0 []) = Raise ValueError /\
  exists out,
    lineament_density (raster 1 3 [Fin (1 # 5); Fin (9 # 10); Fin (3 # 5)])
      = Ok out /\
    length (values out) = 3%nat.
Proof.
  split.
  - apply (lineament_density_returns (raster 0 0 []));
      first [reflexivity | intros; apply length_fmap].
  - apply (lineament_density_returns
             (raster 1 3 [Fin (1 # 5); Fin (9 # 10); Fin (3 # 5)]));
      first [discriminate | reflexivity | intros; apply length_fmap].
Defined.

(** ** The progress of a run *)

Section ProgressFacts.
Context {Output : Type}.
Implicit Types (db : @Db Output) (row : RunRow Output).

Local Open Scope string_scope.

Lemma mark_running_lookup (step k : string) (s : gmap string string) :
  mark_running step s !! k
  = (fun v => if String.eqb k step then "running"
              else if String.eqb v "running" then "done" else v) <$> s !! k.
Proof.
  unfold mark_running. rewrite map_lookup_imap. by destruct (s !! k).
Qed.

Lemma mark_running_unique (step k : string) (s : gmap string string) :
  mark_running step s !! k = Some "running" -> k = step.
Proof.
  rewrite mark_running_lookup. destruct (s !! k) as [v|]; [|done]. simpl.
  destruct (String.eqb k step) eqn:Ek; [by apply String.eqb_eq in Ek|].
  destruct (String.eqb v "running") eqn:Ev; [done|].
  intros [= ->]. done.
Qed.

Lemma update_run_lookup db (run_id : string)
    (fields : RunRow Output -> RunRow Output) :
  update_run db run_id fields !! run_id = fields <$> db !! run_id.
Proof. unfold update_run, Db in *. apply lookup_alter_eq. Qed.

Lemma update_run_other db (run_id other : string)
    (fields : RunRow Output -> RunRow Output) :
  other <> run_id -> update_run db run_id fields !! other = db !! other.
Proof. intros Hne. unfold update_run, Db in *. by apply lookup_alter_ne. Qed.

Lemma update_progress_lookup db (run_id step : string) row
    (s : gmap string string) (others : gmap string string) :
  db !! run_id = Some row ->
  run_progress row = Some {| steps := Some s; other_members := others |} ->
  _update_progress db run_id step !! run_id
  = Some (set_progress {| steps := Some (mark_running step s);
                          other_members := others |} row).
Proof.
  intros Hrow Hp. unfold _update_progress, get_run.
  rewrite Hrow. cbn beta iota. rewrite Hp.
  cbn [progress_truthy not_none orb default steps other_members].
  by rewrite update_run_lookup, Hrow.
Qed.

Lemma update_progress_other db (run_id step other : string) :
  other <> run_id ->
  _update_progress db run_id step !! other = db !! other.
Proof.
  intros Hne. unfold _update_progress, get_run.
  destruct (db !! run_id); [|done]. by rewrite update_run_other.
Qed.

(** After [_update_progress] no step other than the reported one
    is marked as running: the reported step is running if the record
    lists it, a step that was running is done, and every other step,
    the rest of the row and the other runs are as they were.  For an
    unknown run nothing is written. *)
Theorem update_progress_one_running db (run_id step : string) :
  (forall row, db !! run_id = Some row ->
     exists row' s',
       _update_progress db run_id step !! run_id = Some row' /\
       run_status row' = run_status row /\ run_error row' = run_error row /\
       run_output row' = run_output row /\
       steps <$> run_progress row' = Some (Some s') /\
       (forall k, s' !! k = Some "running" -> k = step) /\
       (forall s0, steps <$> run_progress row = Some (Some s0) ->
          forall k,
            s' !! k
            = (fun v => if String.eqb k step then "running"
                        else if String.eqb v "running" then "done" else v)
              <$> s0 !! k)) /\
  (forall other, other <> run_id ->
     _update_progress db run_id step !! other = db !! other) /\
  (db !! run_id = None -> _update_progress db run_id step = db).
Proof.
  split; [|split].
  - intros row Hrow. unfold _update_progress, get_run.
    rewrite Hrow, update_run_lookup, Hrow. cbn [fmap option_fmap option_map].
    eexists _, _. split; [reflexivity|]. repeat split.
    + intros k. apply mark_running_unique.
    + intros s0 Hs0 k. rewrite mark_running_lookup.
      destruct (run_progress row) as [[[s|] others]|]; try discriminate.
      injection Hs0 as <-. reflexivity.
  - intros other. apply update_progress_other.
  - intros Hnone. unfold _update_progress, get_run. by rewrite Hnone.
Qed.

Lemma set_progress_twice (p p' : Progress) row :
  set_progress p (set_progress p' row) = set_progress p row.
Proof. reflexivity. Qed.

Lemma report_steps_raise (run_id : string) (l : list string) (n : nat)
    db row (s others : gmap string string) (msg : string) (rest : list Stage) :
  db !! run_id = Some row ->
  run_progress row = Some {| steps := Some s; other_members := others |} ->
  (n < length l)%nat ->
  exists db',
    report_steps (fun db step => _update_progress db run_id step) db l
      (replicate n None ++ Some msg :: rest) = (db', Some msg) /\
    db' !! run_id
    = Some (set_progress
              {| steps := Some (foldl (fun s step => mark_running step s) s
                                  (take (S n) l));
                 other_members := others |} row).
Proof.
  revert n db row s. induction l as [|step l IH]; intros n db row s Hrow Hp Hn;
    [simpl in Hn; lia|].
  pose proof (update_progress_lookup db run_id step row s others Hrow Hp)
    as Hup.
  destruct n as [|n]; cbn [replicate app report_steps take foldl].
  - eexists. split; [reflexivity|]. by rewrite take_0.
  - destruct (IH n (_update_progress db run_id step) _ (mark_running step s)
                Hup eq_refl ltac:(simpl in Hn; lia)) as (db' & Hr & Hl).
    exists db'. split; [exact Hr|]. by rewrite Hl.
Qed.

Lemma steps_at_prefix (n : nat) :
  (n < 7)%nat ->
  foldl (fun s step => mark_running step s)
    (default ∅ (steps _progress_template)) (take (S n) pipeline_steps)
  = steps_at n.
Proof.
  intros Hn.
  do 7 (destruct n as [|n];
        [apply map_to_list_inj; vm_compute; reflexivity|]).
  lia.
Qed.


(** [process_run] always leaves an existing run in a final state:
    completed, with every step done and the output recorded, when no
    stage raises and the targets are stored; failed, with the text of
    the exception as its error, otherwise.  The other runs are not
    touched. *)
Theorem process_run_final db (run_id : string) row (setup : Stage)
    (stages : list Stage) (output : Output) (insert : Stage) :
  db !! run_id = Some row ->
  (exists row',
     process_run db run_id setup stages output insert !! run_id = Some row' /\
     ((run_status row' = "completed" /\ run_progress row' = Some all_done /\
       run_output row' = Some output /\ run_error row' = run_error row /\
       setup = None /\ insert = None /\
       Forall (fun stage => stage = None) (take 7 stages)) \/
      (run_status row' = "failed" /\ run_output row' = run_output row /\
       exists msg, run_error row' = Some msg /\
                   (setup = Some msg \/ Some msg ∈ take 7 stages \/
                    insert = Some msg)))) /\
  (forall other, other <> run_id ->
     process_run db run_id setup stages output insert !! other = db !! other).
Proof.
  intros Hrow.
  set (cb := fun (db : @Db Output) step => _update_progress db run_id step).
  assert (Hsteps : forall l stages db0 row0,
            db0 !! run_id = Some row0 ->
            exists row1,
              (report_steps cb db0 l stages).1 !! run_id = Some row1 /\
              run_output row1 = run_output row0 /\
              run_error row1 = run_error row0 /\
              (forall other, other <> run_id ->
                 (report_steps cb db0 l stages).1 !! other = db0 !! other) /\
              match (report_steps cb db0 l stages).2 with
              | Some msg => Some msg ∈ take (length l) stages
              | None => Forall (fun stage => stage = None)
                          (take (length l) stages)
              end).
  { induction l as [|step l IH]; intros stages0 db0 row0 Hrow0.
    { exists row0. simpl. repeat split; auto. }
    destruct (proj1 (update_progress_one_running db0 run_id step) row0 Hrow0)
      as (row1 & s' & Hrow1 & _ & Herr & Hout & _).
    pose proof (update_progress_other db0 run_id step) as Hother.
    destruct stages0 as [|[msg|] stages0]; cbn [report_steps take length].
    - destruct (IH [] _ row1 Hrow1) as (row2 & H2 & Ho2 & He2 & Hoth2 & Hres).
      exists row2. split; [exact H2|]. split; [congruence|].
      split; [congruence|]. split.
      + intros other Hne. rewrite Hoth2 by done. by apply Hother.
      + rewrite take_nil in Hres. exact Hres.
    - exists row1. simpl. split; [exact Hrow1|]. split; [done|].
      split; [done|]. split; [exact Hother|]. set_solver.
    - destruct (IH stages0 _ row1 Hrow1)
        as (row2 & H2 & Ho2 & He2 & Hoth2 & Hres).
      exists row2. split; [exact H2|]. split; [congruence|].
      split; [congruence|]. split.
      + intros other Hne. rewrite Hoth2 by done. by apply Hother.
      + destruct (report_steps cb _ l stages0).2; [set_solver|].
        by constructor. }
  unfold process_run, run_pipeline. fold cb.
  set (db1 := update_run db run_id (set_status "running")).
  assert (Hrow1 : db1 !! run_id = Some (set_status "running" row))
    by (unfold db1; by rewrite update_run_lookup, Hrow).
  assert (Hoth1 : forall other, other <> run_id -> db1 !! other = db !! other)
    by (intros other Hne; unfold db1; by rewrite update_run_other).
  destruct setup as [msg|].
  { split.
    - eexists. rewrite update_run_lookup, Hrow1. split; [reflexivity|].
      right. simpl. repeat split. exists msg. auto.
    - intros other Hne. rewrite update_run_other by done. by apply Hoth1. }
  destruct (Hsteps pipeline_steps stages db1 _ Hrow1)
    as (row2 & H2 & Ho2 & He2 & Hoth2 & Hres).
  destruct (report_steps cb db1 pipeline_steps stages) as [db2 [msg|]];
    cbn [fst snd] in *.
  { split.
    - eexists. rewrite update_run_lookup, H2. split; [reflexivity|].
      right. simpl. split; [done|]. split; [done|]. exists msg. auto.
    - intros other Hne. rewrite update_run_other, Hoth2 by done.
      by apply Hoth1. }
  destruct insert as [msg|].
  { split.
    - eexists. rewrite update_run_lookup, H2. split; [reflexivity|].
      right. simpl. split; [done|]. split; [done|]. exists msg. auto.
    - intros other Hne. rewrite update_run_other, Hoth2 by done.
      by apply Hoth1. }
  split.
  - eexists. rewrite update_run_lookup, H2. split; [reflexivity|].
    left. simpl. repeat split; done.
  - intros other Hne. rewrite update_run_other, Hoth2 by done.
    by apply Hoth1.
Qed.

(** When the stage that follows the report of step [n] raises,
    the run is marked failed with the text of the exception, and its
    progress is left as it was at that moment: the steps before [n]
    done, step [n] still running, the later steps pending. *)
Theorem process_run_failed_step db (run_id : string) row (n : nat)
    (msg : string) (rest : list Stage) (output : Output) (insert : Stage) :
  db !! run_id = Some row ->
  run_progress row = Some _progress_template ->
  (n < 7)%nat ->
  process_run db run_id None (replicate n None ++ Some msg :: rest) output
    insert !! run_id
  = Some {| run_status := "failed";
            run_progress :=
              Some {| steps := Some (steps_at n); other_members := ∅ |};
            run_error := Some msg;
            run_output := run_output row |}.
Proof.
  intros Hrow Hp Hn. unfold process_run, run_pipeline.
  set (db1 := update_run db run_id (set_status "running")).
  assert (Hrow1 : db1 !! run_id = Some (set_status "running" row))
    by (unfold db1; by rewrite update_run_lookup, Hrow).
  destruct (report_steps_raise run_id pipeline_steps n db1 _
              (default ∅ (steps _progress_template)) ∅ msg rest Hrow1)
    as (db2 & -> & H2); [cbn [set_status run_progress]; rewrite Hp; reflexivity|exact Hn|].
  rewrite update_run_lookup, H2, steps_at_prefix by exact Hn.
  reflexivity.
Qed.

End ProgressFacts.

Lemma update_progress_one_running_witness :
  exists row' s',
    _update_progress one_run "r1" "fetch_dem" !! "r1" = Some row' /\
    run_status row' = run_status queued_run /\
    run_error row' = run_error queued_run /\
    run_output row' = run_output queued_run /\
    steps <$> run_progress row' = Some (Some s') /\
    (forall k, s' !! k = Some "running"%string -> k = "fetch_dem"%string) /\
    (forall s0, steps <$> run_progress queued_run = Some (Some s0) ->
       forall k,
         s' !! k
         = (fun v => if String.eqb k "fetch_dem" then "running"%string
                     else if String.eqb v "running" then "done"%string else v)
           <$> s0 !! k).
Proof.
  apply (proj1 (update_progress_one_running one_run "r1" "fetch_dem")
           queued_run).
  vm_compute. reflexivity.
Defined.

Lemma process_run_final_witness :
  exists row',
    process_run one_run "r1" None [None; None; Some "boom"%string] 0%nat None
      !! "r1" = Some row' /\
    ((run_status row' = "completed"%string /\
      run_progress row' = Some all_done /\
      run_output row' = Some 0%nat /\ run_error row' = run_error queued_run /\
      @None string = None /\ @None string = None /\
      Forall (fun stage : Stage => stage = None)
        (take 7 [None; None; Some "boom"%string])) \/
     (run_status row' = "failed"%string /\
      run_output row' = run_output queued_run /\
      exists msg, run_error row' = Some msg /\
                  (@None string = Some msg \/
                   Some msg ∈ take 7 [None; None; Some "boom"%string] \/
                   @None string = Some msg))).
Proof.
  apply (proj1 (process_run_final one_run "r1" queued_run None
                  [None; None; Some "boom"%string] 0%nat None
                  ltac:(vm_compute; reflexivity))).
Defined.

Lemma process_run_failed_step_witness :
  process_run one_run "r1" None [None; None; Some "boom"%string] 0%nat None
    !! "r1"
  = Some {| run_status := "failed";
            run_progress :=
              Some {| steps := Some (steps_at 2); other_members := ∅ |};
            run_error := Some "boom"%string;
            run_output := None |}.
Proof.
  apply (process_run_failed_step one_run "r1" queued_run 2 "boom" [] 0%nat
           None).
  - vm_compute. reflexivity.
  - reflexivity.
  - lia.
Defined.

(** ** The area of interest of a request *)

Section NormalizeAoi.

Local Open Scope string_scope.

(** Whatever [_normalize_aoi] returns is a GeoJSON feature, and
    normalizing it again returns it unchanged. *)
Theorem normalize_aoi_idempotent (aoi_geojson feature : Dict) :
  _normalize_aoi aoi_geojson = Return feature ->
  dict_get feature "type" = Some (JStr "Feature") /\
  _normalize_aoi feature = Return feature.
Proof.
  unfold _normalize_aoi at 1.
  destruct (is_str (dict_get aoi_geojson "type") "FeatureCollection") eqn:Ec.
  - destruct (negb (truthy _)); [discriminate|].
    destruct (first_item _) as [[| | | | |f]|e]; try discriminate.
    destruct (negb (truthy _)); [discriminate|].
    intros [= <-]. split; reflexivity.
  - destruct (is_str (dict_get aoi_geojson "type") "Feature") eqn:Ef.
    + intros [= <-]. split.
      * unfold is_str in Ef.
        destruct (dict_get aoi_geojson "type") as [[| | |t| |]|]; try done.
        by apply String.eqb_eq in Ef as ->.
      * unfold _normalize_aoi. by rewrite Ec, Ef.
    + intros [= <-]. split; reflexivity.
Qed.

Lemma normalize_aoi_idempotent_witness :
  dict_get [("type", JStr "Feature"); ("geometry", JObj [("type", JStr "Point")]);
            ("properties", JObj [])] "type" = Some (JStr "Feature") /\
  _normalize_aoi [("type", JStr "Feature");
                  ("geometry", JObj [("type", JStr "Point")]);
                  ("properties", JObj [])]
  = Return [("type", JStr "Feature");
            ("geometry", JObj [("type", JStr "Point")]);
            ("properties", JObj [])].
Proof.
  apply (normalize_aoi_idempotent [("type", JStr "Point")]). reflexivity.
Defined.

(** Of a feature collection only the first feature is used: the
    features after it do not change the result, be it a feature or an
    error.  A collection whose ["features"] member is missing, [null]
    or empty is refused with status 400, and so is one whose first
    feature has no geometry. *)
Theorem normalize_aoi_collection (aoi_geojson : Dict) :
  dict_get aoi_geojson "type" = Some (JStr "FeatureCollection") ->
  (forall first rest,
     dict_get aoi_geojson "features" = Some (JList (first :: rest)) ->
     _normalize_aoi aoi_geojson = _normalize_aoi (feature_collection [first])) /\
  (dict_get aoi_geojson "features" = None \/
   dict_get aoi_geojson "features" = Some JNull \/
   dict_get aoi_geojson "features" = Some (JList []) ->
   _normalize_aoi aoi_geojson
   = Throw (HTTPException 400 "AOI FeatureCollection has no features")) /\
  (forall feature rest,
     dict_get aoi_geojson "features"
       = Some (JList (JObj feature :: rest)) ->
     dict_get feature "geometry" = None \/
     dict_get feature "geometry" = Some JNull ->
     _normalize_aoi aoi_geojson
     = Throw (HTTPException 400 "AOI feature missing geometry")).
Proof.
  intros Ht.
  assert (Hc : is_str (dict_get aoi_geojson "type") "FeatureCollection" = true)
    by (by rewrite Ht).
  split; [|split].
  - intros first rest Hf. unfold _normalize_aoi at 1. rewrite Hc, Hf.
    reflexivity.
  - intros Hf. unfold _normalize_aoi. rewrite Hc.
    destruct Hf as [->|[->| ->]]; reflexivity.
  - intros feature rest Hf Hg. unfold _normalize_aoi. rewrite Hc, Hf.
    simpl.
    destruct Hg as [->| ->]; reflexivity.
Qed.

Lemma normalize_aoi_collection_witness :
  _normalize_aoi (feature_collection []) 
  = Throw (HTTPException 400 "AOI FeatureCollection has no features").
Proof.
  apply (proj1 (proj2 (normalize_aoi_collection (feature_collection [])
                         eq_refl))).
  right. right. reflexivity.
Defined.

End NormalizeAoi.

(** ** The choice of the Sentinel-2 scenes *)

Section SortAscFacts.
Context {A : Type} (key : A -> Q).

Lemma insert_asc_perm (x : A) (l : list A) :
  Permutation (insert_asc key x l) (x :: l).
Proof.
  induction l as [|y l IH]; simpl; [reflexivity|].
  destruct (Qle_bool (key x) (key y)); [reflexivity|].
  rewrite IH. apply perm_swap.
Qed.

Lemma sort_asc_perm (l : list A) : Permutation (sort_asc key l) l.
Proof.
  induction l as [|x l IH]; simpl; [reflexivity|].
  rewrite insert_asc_perm. by constructor.
Qed.

Lemma insert_asc_sorted (x : A) (l : list A) :
  StronglySorted (fun a b => key a <= key b) l ->
  StronglySorted (fun a b => key a <= key b) (insert_asc key x l).
Proof.
  induction 1 as [|y l Hs IH Hy]; simpl; [repeat constructor|].
  destruct (Qle_bool (key x) (key y)) eqn:E.
  - apply Qle_bool_iff in E. constructor; [by constructor|].
    constructor; [exact E|]. eapply Forall_impl; [exact Hy|].
    intros z Hz. simpl in Hz. lra.
  - apply Qle_bool_false in E. constructor; [exact IH|].
    rewrite (insert_asc_perm x l). constructor; [lra|exact Hy].
Qed.

Lemma sort_asc_sorted (l : list A) :
  StronglySorted (fun a b => key a <= key b) (sort_asc key l).
Proof.
  induction l as [|x l IH]; simpl; [constructor|].
  by apply insert_asc_sorted.
Qed.

End SortAscFacts.

Section SearchItems.

Lemma search_items_candidates (found : list Item) (max_items : Z)
    (cloud_cover_max : option Q) :
  search_items found max_items cloud_cover_max
  = items ← sort_items (candidates found cloud_cover_max);
    Some (slice_to items max_items).
Proof.
  unfold search_items, candidates.
  destruct found as [|it found].
  { destruct cloud_cover_max; unfold slice_to, sort_items; simpl;
      destruct (0 <=? max_items)%Z; by rewrite ?take_nil. }
  destruct cloud_cover_max as [m|]; [|reflexivity].
  destruct (List.filter (cloud_ok m) (it :: found)) as [|it' l] eqn:Ef.
  - assert (Ex : existsb (cloud_ok m) (it :: found) = false).
    { apply not_true_iff_false. intros Hex.
      apply existsb_exists in Hex as (x & Hx & Hok).
      assert (Hin : In x (List.filter (cloud_ok m) (it :: found)))
        by (by apply filter_In).
      by rewrite Ef in Hin. }
    by rewrite Ex.
  - assert (Ex : existsb (cloud_ok m) (it :: found) = true).
    { apply existsb_exists. exists it'.
      apply (filter_In (cloud_ok m)). rewrite Ef. by left. }
    by rewrite Ex.
Qed.

Lemma slice_to_nonneg {A} (l : list A) (n : Z) :
  (0 <= n)%Z -> slice_to l n = take (Z.to_nat n) l.
Proof. intros Hn. unfold slice_to. by apply Z.leb_le in Hn as ->. Qed.

Lemma slice_to_prefix {A} (l : list A) (n : Z) :
  exists k, slice_to l n = take k l.
Proof. unfold slice_to. destruct (0 <=? n)%Z; eauto. Qed.

(** [search_items] returns the least cloudy candidates: its
    result is in ascending order of cloud cover (an item without cloud
    cover counting as 1000), together with the candidates it leaves out
    it makes up the candidates, and no item left out is less cloudy
    than a returned one.  For a limit that is not negative it returns
    as many items as the limit allows. *)
Theorem search_items_least_cloudy (found : list Item) (max_items : Z)
    (cloud_cover_max : option Q) (items : list Item) :
  search_items found max_items cloud_cover_max = Some items ->
  StronglySorted (fun x y => cloudiness x <= cloudiness y) items /\
  (exists left_out,
     items ++ left_out ≡ₚ candidates found cloud_cover_max /\
     forall x y, x ∈ items -> y ∈ left_out -> cloudiness x <= cloudiness y) /\
  ((0 <= max_items)%Z ->
   length items
   = Nat.min (Z.to_nat max_items)
       (length (candidates found cloud_cover_max))).
Proof.
  rewrite search_items_candidates. unfold sort_items.
  destruct (_ && _); [discriminate|]. cbn [mbind option_bind].
  intros [= <-]. fold cloudiness.
  set (sorted := sort_asc cloudiness (candidates found cloud_cover_max)).
  pose proof (sort_asc_sorted cloudiness (candidates found cloud_cover_max))
    as Hs. fold sorted in Hs.
  pose proof (sort_asc_perm cloudiness (candidates found cloud_cover_max))
    as Hp. fold sorted in Hp.
  destruct (slice_to_prefix sorted max_items) as [k Hk].
  split; [|split].
  - rewrite Hk. by apply StronglySorted_take.
  - exists (drop k sorted). rewrite Hk, take_drop. split; [exact Hp|].
    apply (StronglySorted_app_inv (fun x y => cloudiness x <= cloudiness y)).
    by rewrite take_drop.
  - intros Hn. rewrite slice_to_nonneg by exact Hn.
    rewrite length_take. f_equal. by apply Permutation_length.
Qed.


Lemma search_items_least_cloudy_witness :
  StronglySorted (fun x y => cloudiness x <= cloudiness y)
    [clear_scene; hazy_scene] /\
  (exists left_out,
     [clear_scene; hazy_scene] ++ left_out
       ≡ₚ candidates [overcast_scene; hazy_scene; unrated_scene; clear_scene]
            (Some 40) /\
     forall x y, x ∈ [clear_scene; hazy_scene] -> y ∈ left_out ->
                 cloudiness x <= cloudiness y) /\
  ((0 <= 2)%Z ->
   length [clear_scene; hazy_scene]
   = Nat.min (Z.to_nat 2)
       (length (candidates
                  [overcast_scene; hazy_scene; unrated_scene; clear_scene]
                  (Some 40)))).
Proof.
  apply (search_items_least_cloudy
           [overcast_scene; hazy_scene; unrated_scene; clear_scene] 2
           (Some 40)).
  vm_compute. reflexivity.
Defined.

Lemma candidates_found (found : list Item) (cloud_cover_max : option Q)
    (it : Item) :
  it ∈ candidates found cloud_cover_max -> it ∈ found.
Proof.
  unfold candidates. destruct cloud_cover_max as [m|]; [|done].
  destruct (existsb (cloud_ok m) found); [|done].
  intros Hin. apply list_elem_of_In, filter_In in Hin as [Hin _].
  by apply list_elem_of_In.
Qed.

Lemma search_items_inv (found : list Item) (max_items : Z)
    (cloud_cover_max : option Q) (items : list Item) :
  search_items found max_items cloud_cover_max = Some items ->
  items = slice_to (sort_asc cloudiness (candidates found cloud_cover_max))
            max_items.
Proof.
  rewrite search_items_candidates. unfold sort_items.
  destruct (_ && _); [discriminate|]. cbn [mbind option_bind].
  by intros [= <-].
Qed.

Lemma elem_of_slice_to {A} (l : list A) (n : Z) (x : A) :
  x ∈ slice_to l n -> x ∈ l.
Proof.
  destruct (slice_to_prefix l n) as [k ->]. apply elem_of_take_l.
Qed.

(** With a cloud-cover limit, every returned item is one of the
    items found; as soon as one item found is within the limit (or has
    no cloud cover), every returned item is; and when none is, the
    limit is dropped rather than returning nothing: items found and a
    limit of at least one item always give a result that is not
    empty. *)
Theorem search_items_cloud_filter (found : list Item) (max_items : Z)
    (cloud_cover_max : Q) (items : list Item) :
  search_items found max_items (Some cloud_cover_max) = Some items ->
  (forall it, it ∈ items -> it ∈ found) /\
  ((exists it, it ∈ found /\ cloud_ok cloud_cover_max it = true) ->
   Forall (fun it => cloud_ok cloud_cover_max it = true) items) /\
  (found <> [] -> (1 <= max_items)%Z -> items <> []).
Proof.
  intros Hs. apply search_items_inv in Hs as ->.
  set (cands := candidates found (Some cloud_cover_max)).
  assert (Hin : forall it, it ∈ slice_to (sort_asc cloudiness cands) max_items
                           -> it ∈ cands).
  { intros it Hit. apply elem_of_slice_to in Hit.
    by rewrite (sort_asc_perm cloudiness cands) in Hit. }
  split; [|split].
  - intros it Hit. by eapply candidates_found, Hin.
  - intros (it0 & Hit0 & Hok). apply Forall_forall. intros it Hit.
    apply Hin in Hit. unfold cands, candidates in Hit.
    assert (Ex : existsb (cloud_ok cloud_cover_max) found = true).
    { apply existsb_exists. exists it0. split; [|exact Hok].
      by apply list_elem_of_In. }
    rewrite Ex in Hit. by apply list_elem_of_In, filter_In in Hit as [_ Hit].
  - intros Hne Hmax.
    assert (Hc : cands <> []).
    { unfold cands, candidates.
      destruct (existsb (cloud_ok cloud_cover_max) found) eqn:Ex; [|done].
      apply existsb_exists in Ex as (x & Hx & Hok). intros E.
      assert (Hf : In x (List.filter (cloud_ok cloud_cover_max) found))
        by (by apply filter_In).
      by rewrite E in Hf. }
    rewrite slice_to_nonneg by lia.
    pose proof (Permutation_length (sort_asc_perm cloudiness cands)) as Hl.
    destruct (sort_asc cloudiness cands) as [|x l] eqn:E.
    { destruct cands; [done|discriminate Hl]. }
    replace (Z.to_nat max_items) with (S (Z.to_nat (max_items - 1))) by lia.
    discriminate.
Qed.

Lemma search_items_cloud_filter_witness :
  (forall it, it ∈ [clear_scene; hazy_scene] ->
              it ∈ [overcast_scene; hazy_scene; clear_scene]) /\
  ((exists it, it ∈ [overcast_scene; hazy_scene; clear_scene] /\
               cloud_ok 40 it = true) ->
   Forall (fun it => cloud_ok 40 it = true) [clear_scene; hazy_scene]) /\
  ([overcast_scene; hazy_scene; clear_scene] <> [] -> (1 <= 5)%Z ->
   [clear_scene; hazy_scene] <> []).
Proof.
  apply (search_items_cloud_filter [overcast_scene; hazy_scene; clear_scene]
           5 40).
  vm_compute. reflexivity.
Defined.

(** A [null] cloud cover passes the cloud filter, but it cannot
    be compared: [search_items] fails exactly when it has two or more
    candidates and one of them has a [null] cloud cover. *)
Theorem search_items_null_cloud (found : list Item) (max_items : Z)
    (cloud_cover_max : option Q) :
  (forall m it, cloud_cover it = CloudNull -> cloud_ok m it = true) /\
  (search_items found max_items cloud_cover_max = None <->
   (2 <= length (candidates found cloud_cover_max))%nat /\
   exists it, it ∈ candidates found cloud_cover_max /\
              cloud_cover it = CloudNull).
Proof.
  split.
  { intros m it Hn. unfold cloud_ok. by rewrite Hn. }
  rewrite search_items_candidates. unfold sort_items.
  set (cands := candidates found cloud_cover_max).
  destruct ((2 <=? length cands)%nat
            && existsb (fun it => negb (not_none (cloud_key it))) cands)
    eqn:E; cbn [mbind option_bind].
  - split; [intros _|done].
    apply andb_true_iff in E as [Hl Hex]. apply Nat.leb_le in Hl.
    split; [exact Hl|]. apply existsb_exists in Hex as (it & Hit & Hk).
    exists it. split; [by apply list_elem_of_In|].
    unfold cloud_key in Hk. by destruct (cloud_cover it).
  - split; [done|]. intros (Hl & it & Hit & Hn). exfalso.
    apply andb_false_iff in E as [E|E].
    + apply Nat.leb_gt in E. lia.
    + assert (Ht : existsb (fun it => negb (not_none (cloud_key it))) cands
                   = true).
      { apply existsb_exists. exists it. split; [by apply list_elem_of_In|].
        unfold cloud_key. by rewrite Hn. }
      by rewrite Ht in E.
Qed.

Lemma search_items_null_cloud_witness :
  search_items [clear_scene; null_scene] 5 (Some 40) = None.
Proof.
  apply (proj2 (search_items_null_cloud [clear_scene; null_scene] 5
                  (Some 40))).
  split; [vm_compute; lia|]. exists null_scene. split; [|reflexivity].
  vm_compute. set_solver.
Defined.

End SearchItems.

(** ** Roads, rivers and the coastline *)

Section OsmFacts.
Context `{GeoLib}.
Variable LineString : list (Q * Q) -> result geom.

Local Open Scope string_scope.

Lemma classify_no_ways (elements : list Element) :
  Forall (fun el => is_way el = false) elements ->
  classify LineString elements = Ok ([], [], []).
Proof.
  induction 1 as [|el elements Hel _ IH]; [reflexivity|].
  cbn [classify]. unfold is_way in Hel.
  destruct (bool_decide (el_type el = Some "way")); [|exact IH].
  destruct (el_geometry el); [exact IH|discriminate Hel].
Qed.

(** When the Overpass request fails, or its answer holds no way
    with a geometry, the three feature sets are empty frames: every
    distance raster computed from them is the constant 1,000,000 and
    every target gets a null distance, so the run goes on without
    roads, rivers and coastline. *)
Theorem fetch_osm_lines_outage (response : option (list Element)) :
  (forall elements, response = Some elements ->
     Forall (fun el => is_way el = false) elements) ->
  exists roads rivers coast,
    fetch_osm_lines LineString response = Ok (roads, rivers, coast) /\
    Forall (fun lines =>
              gdf_empty lines = true /\
              (forall ref_da,
                 distance_raster (Some lines) ref_da
                 = Ok (sentinel_raster ref_da)) /\
              (forall g, _distance_to_lines g (Some lines) = Ok None))
      [roads; rivers; coast].
Proof.
  intros Hresp.
  assert (Hf : fetch_osm_lines LineString response
               = Ok (frame [], frame [], frame [])).
  { destruct response as [elements|]; [|reflexivity]. simpl.
    by rewrite (classify_no_ways elements (Hresp elements eq_refl)). }
  exists (frame []), (frame []), (frame []). split; [exact Hf|].
  assert (Hempty : gdf_empty (frame []) = true /\
                   (forall ref_da,
                      distance_raster (Some (frame [])) ref_da
                      = Ok (sentinel_raster ref_da)) /\
                   (forall g, _distance_to_lines g (Some (frame [])) = Ok None)).
  { split; [reflexivity|]. split; [|reflexivity].
    intros ref_da. unfold distance_raster. by destruct (crs (rio ref_da)). }
  repeat constructor; apply Hempty.
Qed.




End OsmFacts.

Lemma fetch_osm_lines_outage_witness :
  exists roads rivers coast,
    @fetch_osm_lines GridWorld.grid_world box_line (Some [bus_stop])
      = Ok (roads, rivers, coast) /\
    Forall (fun lines =>
              gdf_empty lines = true /\
              (forall ref_da,
                 distance_raster (Some lines) ref_da
                 = Ok (sentinel_raster ref_da)) /\
              (forall g, _distance_to_lines g (Some lines) = Ok None))
      [roads; rivers; coast].
Proof.
  apply (@fetch_osm_lines_outage GridWorld.grid_world box_line
           (Some [bus_stop])).
  intros elements [= <-]. repeat constructor.
Defined.


(** ** The order and the scores of the targets *)

Section SortDescending.
Context {A : Type} (lt : A -> A -> bool) (P : A -> Prop).
Hypothesis lt_asym : forall x y, P x -> P y -> lt x y = true -> lt y x = false.
Hypothesis lt_trans :
  forall x y z, P x -> P y -> P z ->
    lt x y = false -> lt y z = false -> lt x z = false.

Lemma insert_desc_sorted (x : A) (l : list A) :
  P x -> Forall P l ->
  StronglySorted (fun a b => lt a b = false) l ->
  StronglySorted (fun a b => lt a b = false) (insert_desc lt x l).
Proof.
  intros Hx Hl Hs. induction Hs as [|y l Hs IH Hy]; simpl;
    [repeat constructor|].
  apply Forall_cons in Hl as [HPy Hl].
  destruct (lt x y) eqn:E.
  - constructor; [by apply IH|].
    rewrite (insert_desc_perm lt x l). constructor; [by apply lt_asym|exact Hy].
  - constructor; [by constructor|]. constructor; [exact E|].
    rewrite Forall_forall in Hy, Hl |- *. intros z Hz.
    apply (lt_trans x y z); auto.
Qed.

Lemma sort_reverse_sorted (l : list A) :
  Forall P l -> StronglySorted (fun a b => lt a b = false) (sort_reverse lt l).
Proof.
  induction 1 as [|x l Hx Hl IH]; simpl; [constructor|].
  apply insert_desc_sorted; [exact Hx| |exact IH].
  by rewrite (sort_reverse_perm lt l).
Qed.

End SortDescending.

Section TargetOrder.
Context `{GeoLib}.

Lemma target_key_lt_false (s t : Target) :
  is_finite (mean_score s) = true -> is_finite (mean_score t) = true ->
  target_key_lt s t = false <-> ranks_before s t.
Proof.
  intros Hs Ht. apply finite_inv in Hs as [a Ha], Ht as [b Hb].
  unfold target_key_lt, ranks_before. rewrite Ha, Hb. simpl.
  destruct (Qeq_bool a b) eqn:E.
  - apply Qeq_bool_iff in E. rewrite Qlt_bool_false. split.
    + intros Hle. right. by split.
    + intros [Hlt|[_ Hle]]; [|exact Hle].
      apply QMicromega.Qlt_bool_iff in Hlt. lra.
  - apply Qeq_bool_neq in E. rewrite Qlt_bool_false. split.
    + intros Hle. left. apply QMicromega.Qlt_bool_iff. lra.
    + intros [Hlt|[Heq _]]; [|done].
      apply QMicromega.Qlt_bool_iff in Hlt. lra.
Qed.

Lemma target_key_lt_true (s t : Target) (a b : Q) :
  mean_score s = Fin a -> mean_score t = Fin b ->
  target_key_lt s t = true <->
  a < b \/ (a == b /\ area_km2 s < area_km2 t).
Proof.
  intros Ha Hb. unfold target_key_lt. rewrite Ha, Hb. simpl.
  destruct (Qeq_bool a b) eqn:E.
  - apply Qeq_bool_iff in E. rewrite QMicromega.Qlt_bool_iff. split.
    + intros Hlt. right. by split.
    + intros [Hlt|[_ Hlt]]; [lra|exact Hlt].
  - apply Qeq_bool_neq in E. rewrite QMicromega.Qlt_bool_iff. split.
    + intros Hlt. by left.
    + intros [Hlt|[Heq _]]; [exact Hlt|done].
Qed.

(** The targets are returned best first: of two targets the
    earlier one has the larger mean score, or the same mean score and
    an area that is not smaller (for targets whose mean score is a
    number). *)
Theorem extract_targets_ranked score_da threshold min_area_km2 mode
    evidence_layers thresholds roads_gdf rivers_gdf rng ts rng' :
  extract_targets score_da threshold min_area_km2 mode evidence_layers
    thresholds roads_gdf rivers_gdf rng = Ok (ts, rng') ->
  Forall (fun t => is_finite (mean_score t) = true) ts ->
  StronglySorted ranks_before ts.
Proof.
  unfold extract_targets. intros He Hfin.
  apply bind_ok in He as (mask & _ & He).
  apply bind_ok in He as ([ts0 rng0] & _ & He). injection He as <- <-.
  assert (Hfin0 : Forall (fun t => is_finite (mean_score t) = true) ts0).
  { eapply Permutation_Forall; [apply sort_reverse_perm|exact Hfin]. }
  pose proof (sort_reverse_sorted target_key_lt
                (fun t => is_finite (mean_score t) = true)) as Hsorted.
  assert (Hs : StronglySorted (fun a b => target_key_lt a b = false)
                 (sort_reverse target_key_lt ts0)).
  { apply Hsorted; [| |exact Hfin0].
    - intros x y Hx Hy Hlt.
      apply finite_inv in Hx as Hx', Hy as Hy'.
      destruct Hx' as [a Ha], Hy' as [b Hb].
      apply (target_key_lt_true x y a b Ha Hb) in Hlt.
      destruct (target_key_lt y x) eqn:E; [|done].
      apply (target_key_lt_true y x b a Hb Ha) in E. lra.
    - intros x y z Hx Hy Hz Hxy Hyz.
      apply finite_inv in Hx as Hx', Hy as Hy', Hz as Hz'.
      destruct Hx' as [a Ha], Hy' as [b Hb], Hz' as [c Hc].
      destruct (target_key_lt x z) eqn:E; [|done].
      apply (target_key_lt_true x z a c Ha Hc) in E.
      assert (Hnxy : ~ (a < b \/ (a == b /\ area_km2 x < area_km2 y))).
      { intros Hlt. apply (target_key_lt_true x y a b Ha Hb) in Hlt.
        congruence. }
      assert (Hnyz : ~ (b < c \/ (b == c /\ area_km2 y < area_km2 z))).
      { intros Hlt. apply (target_key_lt_true y z b c Hb Hc) in Hlt.
        congruence. }
      exfalso.
      destruct (Qlt_le_dec a b) as [?|Hab]; [apply Hnxy; by left|].
      destruct (Qlt_le_dec b c) as [?|Hbc]; [apply Hnyz; by left|].
      destruct (Qlt_le_dec (area_km2 x) (area_km2 y)) as [Hxy'|Hxy'].
      { destruct (Qeq_dec a b) as [Heq|Hne]; [apply Hnxy; by right|].
        destruct E as [?|[? ?]]; lra. }
      destruct (Qlt_le_dec (area_km2 y) (area_km2 z)) as [Hyz'|Hyz'].
      { destruct (Qeq_dec b c) as [Heq|Hne]; [apply Hnyz; by right|].
        destruct E as [?|[? ?]]; lra. }
      destruct E as [?|[? ?]]; lra. }
  revert Hs Hfin. generalize (sort_reverse target_key_lt ts0). clear.
  induction 1 as [|t l Hs IH Ht]; intros Hfin; [constructor|].
  apply Forall_cons in Hfin as [Hft Hfin]. constructor; [by apply IH|].
  rewrite Forall_forall in Ht, Hfin |- *. intros u Hu.
  apply target_key_lt_false; auto.
Qed.

End TargetOrder.

Lemma extract_targets_ranked_witness :
  exists ts rng',
    extract_two_blocks = Ok (ts, rng') /\
    mean_score <$> ts = [Fin (99 # 100); Fin (19 # 20)] /\
    StronglySorted ranks_before ts.
Proof.
  assert (Hm : target_means extract_two_blocks
               = Some [Fin (99 # 100); Fin (19 # 20)])
    by (vm_compute; reflexivity).
  destruct extract_two_blocks as [[ts rng']|e] eqn:Ef; [|discriminate Hm].
  injection Hm as Hm. exists ts, rng'. split; [reflexivity|].
  split; [exact Hm|].
  apply (extract_targets_ranked _ _ _ _ _ _ _ _ _ _ _ Ef).
  destruct ts as [|t1 [|t2 [|t3 ts]]]; try discriminate Hm.
  injection Hm as H1 H2.
  constructor; [by rewrite H1|]. constructor; [by rewrite H2|constructor].
Defined.

(** ** The evidence of a target *)

Section EvidenceFractions.
Context `{GeoLib}.

Local Open Scope string_scope.

Lemma mean_bool_range (l : list bool) :
  l <> [] -> in_range 0 1 (mean_bool l).
Proof.
  intros Hl. unfold mean_bool, of_nat. simpl.
  destruct (Qeq_bool (inject_Z (Z.of_nat (length l))) 0) eqn:E.
  { apply Qeq_bool_iff in E. destruct l; [done|].
    simpl length in E. unfold Qeq in E. simpl in E. lia. }
  simpl. rewrite Qred_correct.
  pose proof (filter_length_le (@Datatypes.id bool) l) as Hle.
  assert (Hpos : 0 < inject_Z (Z.of_nat (length l))).
  { apply inject_nat_pos. destruct l; [done|simpl; lia]. }
  split.
  - apply Qle_shift_div_l; [exact Hpos|]. rewrite Qmult_0_l.
    change 0 with (inject_Z (Z.of_nat 0)). apply inject_nat_le. lia.
  - apply Qle_shift_div_r; [exact Hpos|]. rewrite Qmult_1_l.
    by apply inject_nat_le.
Qed.

Lemma pct_range (layers : gmap string DataArray) (poly_mask : list bool)
    (name op : string) (thr v : fval) :
  _pct layers poly_mask name op thr = Ok v -> in_range 0 1 v.
Proof.
  unfold _pct. intros Hp. apply bind_ok in Hp as (arr & _ & Hp).
  destruct (select poly_mask (values arr)) as [|x vals];
    [injection Hp as <-; simpl; lra|].
  repeat (match type of Hp with
          | (if ?b then _ else _) = _ => destruct b
          end);
    injection Hp as <-; try (simpl; lra); by apply mean_bool_range.
Qed.

(** Every [pct_*] metric of the evidence is a fraction: a number
    between 0 and 1. *)
Theorem compute_evidence_fractions (poly_mask : list bool)
    (layers : gmap string DataArray) (thresholds : gmap string fval)
    (mode : string) (ev : gmap string fval) (k : string) (v : fval) :
  compute_evidence poly_mask layers thresholds mode = Ok ev ->
  k ∈ fraction_keys -> ev !! k = Some v -> in_range 0 1 v.
Proof.
  unfold compute_evidence, fraction_keys. intros Hev Hk Hv.
  destruct (String.eqb mode "coastal").
  - repeat (apply bind_ok in Hev as (? & ? & Hev)).
    injection Hev as <-.
    repeat match goal with
    | Hp : _pct _ _ _ _ _ = Ok _ |- _ => apply pct_range in Hp
    end.
    repeat (apply elem_of_cons in Hk as [->|Hk];
            [vm_compute in Hv; first [discriminate Hv|by injection Hv as <-]|]).
    inversion Hk.
  - apply bind_ok in Hev as (slope & _ & Hev).
    apply bind_ok in Hev as (pct_relief & Hrelief & Hev).
    assert (Hfr : in_range 0 1 pct_relief).
    { destruct (select poly_mask (values slope)) as [|x vals];
        [injection Hrelief as <-; simpl; lra|].
      apply bind_ok in Hrelief as (? & _ & Hrelief).
      apply bind_ok in Hrelief as (? & _ & Hrelief).
      injection Hrelief as <-. by apply mean_bool_range. }
    apply bind_ok in Hev as (ndvi_mean & _ & Hev).
    apply bind_ok in Hev as (ndwi_mean & _ & Hev).
    apply bind_ok in Hev as (slope_mean & _ & Hev).
    apply bind_ok in Hev as (lineament_mean & _ & Hev).
    apply bind_ok in Hev as (geology_mask_mean & _ & Hev).
    apply bind_ok in Hev as (lineament_threshold_value & _ & Hev).
    apply bind_ok in Hev as (pct_lineament_high & Hline & Hev).
    apply bind_ok in Hev as (ndvi_max & _ & Hev).
    apply bind_ok in Hev as (pct_low_ndvi & Hndvi & Hev).
    apply bind_ok in Hev as (pct_geology_match & Hgeo & Hev).
    injection Hev as <-.
    assert (Hfg : in_range 0 1 pct_geology_match).
    { destruct (has_key layers "geology_mask");
        [by eapply pct_range|injection Hgeo as <-; simpl; lra]. }
    apply pct_range in Hline, Hndvi.
    repeat (apply elem_of_cons in Hk as [->|Hk];
            [vm_compute in Hv; first [discriminate Hv|by injection Hv as <-]|]).
    inversion Hk.
Qed.

End EvidenceFractions.

Lemma compute_evidence_fractions_witness :
  exists ev,
    compute_evidence
      ([true; true] ++ replicate 8 false ++ [true; true]
       ++ replicate 88 false)%list
      test_layers test_thresholds "coastal" = Ok ev /\
    ev !! "pct_low_ndvi"%string = Some (Fin 0) /\ in_range 0 1 (Fin 0).
Proof.
  assert (Hl : (compute_evidence
                  ([true; true] ++ replicate 8 false ++ [true; true]
                   ++ replicate 88 false)%list
                  test_layers test_thresholds "coastal"
                ≫= fun ev => Ok (ev !! "pct_low_ndvi"%string))
               = Ok (Some (Fin 0)))
    by (vm_compute; reflexivity).
  destruct (compute_evidence _ _ _ _) as [ev|e] eqn:E; [|discriminate Hl].
  injection Hl as Hl. exists ev. split; [reflexivity|]. split; [exact Hl|].
  apply (compute_evidence_fractions _ _ _ _ ev "pct_low_ndvi" (Fin 0) E);
    [|exact Hl].
  unfold fraction_keys. apply elem_of_cons. right. apply elem_of_cons. by left.
Defined.

Section TargetScores.
Context `{GeoLib}.





End TargetScores.


(** ** The geology layer on a concrete run *)


Lemma run_hardrock_no_lithology_witness :
  exists res rng',
    run_two_blocks None = Ok (res, rng') /\
    weights (score_meta res) !! "geology_boost"%string = Some (Fin 0) /\
    Forall (fun t =>
              evidence t !! "geology_mask_mean"%string = Some (Fin 0) /\
              evidence t !! "pct_geology_match"%string = Some (Fin 0) /\
              "Favorable lithology match"%string ∉ evidence_summary t)
      (targets res).
Proof.
  assert (Hs : run_summary (run_two_blocks None) = Some (2%nat, Some (Fin 0)))
    by (vm_compute; reflexivity).
  destruct (run_two_blocks None) as [[res rng']|e] eqn:E; [|discriminate Hs].
  exists res, rng'. split; [reflexivity|].
  exact (@run_hardrock_no_lithology GridWorld.grid_world low_index low_index
           two_blocks two_blocks two_blocks no_params (Some test_roads) None
           entropy_a res rng' E).
Defined.

(** ** The UTM zone of a position *)

Section UtmZone.

Local Open Scope string_scope.



End UtmZone.

(** ** The assets of a scene *)

Section GetAsset.

Local Open Scope string_scope.

Lemma first_asset_Some (item : Item) (aliases : list string) (asset : string) :
  first_asset item aliases = Some asset ->
  exists key, key ∈ aliases /\ assets item !! key = Some asset.
Proof.
  induction aliases as [|key aliases IH]; [discriminate|]. simpl.
  unfold has_key. destruct (assets item !! key) as [a|] eqn:E.
  - intros [= <-]. exists key. split; [apply elem_of_cons; by left|exact E].
  - intros Hf. destruct (IH Hf) as (k & Hk & Ha). exists k. split; [|exact Ha].
    apply elem_of_cons. by right.
Qed.

Lemma first_asset_None (item : Item) (aliases : list string) :
  first_asset item aliases = None ->
  Forall (fun key => assets item !! key = None) aliases.
Proof.
  induction aliases as [|key aliases IH]; [constructor|]. simpl.
  unfold has_key. destruct (assets item !! key) as [a|] eqn:E; [discriminate|].
  intros Hf. constructor; [exact E|by apply IH].
Qed.

(** [_get_asset] returns the asset stored under one of the spellings of
    the band, the first spelling of the table winning (the zero-padded
    one); when it raises, no spelling is an asset key and the
    [KeyError] names the band that was asked for, not a spelling. *)
Theorem get_asset_aliases (item : Item) (band : string) :
  (forall asset, _get_asset item band = Ok asset ->
     exists key, key ∈ get BAND_ALIASES band [band] /\
                 assets item !! key = Some asset) /\
  (forall e, _get_asset item band = Raise e ->
     e = KeyError band /\
     Forall (fun key => assets item !! key = None)
       (get BAND_ALIASES band [band])) /\
  (forall first rest asset,
     get BAND_ALIASES band [band] = first :: rest ->
     assets item !! first = Some asset ->
     _get_asset item band = Ok asset).
Proof.
  unfold _get_asset. split; [|split].
  - intros asset.
    destruct (first_asset item _) as [a|] eqn:E; [|discriminate].
    intros [= <-]. by apply first_asset_Some.
  - intros e. destruct (first_asset item _) as [a|] eqn:E; [discriminate|].
    intros [= <-]. split; [reflexivity|]. by apply first_asset_None.
  - intros first rest asset -> Ha. simpl. unfold has_key. by rewrite Ha.
Qed.

End GetAsset.

(** ** Percentiles grow with the rank *)

Section PercentileOrder.

Lemma lerp_value (a b t : Q) :
  exists q, _lerp (Fin a) (Fin b) t = Fin q /\ q == a + (b - a) * t.
Proof.
  unfold _lerp. simpl. destruct (Qle_bool (1 # 2) t).
  - eexists. split; [reflexivity|]. rewrite !Qred_correct. ring.
  - eexists. split; [reflexivity|]. rewrite !Qred_correct. ring.
Qed.

Lemma ascending_nth (arr : list fval) (i j : nat) :
  Forall (fun x => is_finite x = true) arr -> ascending arr ->
  (i <= j)%nat -> (j < length arr)%nat ->
  exists a b, nth i arr NaN = Fin a /\ nth j arr NaN = Fin b /\ a <= b.
Proof.
  intros Hf Hs. revert i j.
  induction Hs as [|x arr Hs IH Hx]; intros i j Hij Hj; [simpl in Hj; lia|].
  apply Forall_cons in Hf as [Hfx Hf]. apply finite_inv in Hfx as [a ->].
  destruct j as [|j].
  { assert (i = 0%nat) as -> by lia. exists a, a. repeat split; lra. }
  simpl in Hj. destruct i as [|i].
  - destruct (IH Hf j j ltac:(lia) ltac:(lia)) as (b & _ & Hb & _ & _).
    exists a, b. split; [done|]. split; [exact Hb|].
    rewrite Forall_forall in Hx.
    assert (Hin : Fin b ∈ arr).
    { rewrite <- Hb. apply list_elem_of_In, nth_In. lia. }
    specialize (Hx _ Hin). by apply fle_fin in Hx.
  - destruct (IH Hf i j ltac:(lia) ltac:(lia)) as (a' & b & Ha & Hb & Hab).
    exists a', b. by repeat split.
Qed.

(** The value of a percentile of sorted numbers, between the two
    neighbours of its virtual index. *)
Lemma percentile_sorted (arr : list fval) (q : Q) :
  Forall (fun x => is_finite x = true) arr -> ascending arr -> arr <> [] ->
  0 <= q -> q <= 100 ->
  let n := length arr in
  let virtual := q / 100 * inject_Z (Z.of_nat (n - 1)) in
  let previous := Z.to_nat (Qfloor virtual) in
  let next := Nat.min (previous + 1) (n - 1) in
  exists a b v,
    nth previous arr NaN = Fin a /\ nth next arr NaN = Fin b /\
    _lerp (Fin a) (Fin b) (virtual - inject_Z (Qfloor virtual)) = Fin v /\
    v == a + (b - a) * (virtual - inject_Z (Qfloor virtual)) /\
    a <= b /\ (previous <= n - 1)%nat /\ 0 <= virtual.
Proof.
  intros Hf Hs Hne H0 H100 n virtual previous next.
  assert (Hn : (1 <= n)%nat) by (unfold n; destruct arr; [done|simpl; lia]).
  assert (Hm : 0 <= inject_Z (Z.of_nat (n - 1))).
  { change 0 with (inject_Z (Z.of_nat 0)). apply inject_nat_le. lia. }
  assert (Hv0 : 0 <= virtual).
  { unfold virtual. apply Qmult_le_0_compat; [|exact Hm].
    apply Qle_shift_div_l; lra. }
  assert (Hv1 : virtual <= inject_Z (Z.of_nat (n - 1))).
  { unfold virtual.
    rewrite <- (Qmult_1_l (inject_Z (Z.of_nat (n - 1)))) at 2.
    apply Qmult_le_compat_r; [|exact Hm]. apply Qle_shift_div_r; lra. }
  assert (Hp : (previous <= n - 1)%nat).
  { unfold previous.
    assert (Hfl : (Qfloor virtual <= Z.of_nat (n - 1))%Z).
    { rewrite <- (Qfloor_Z (Z.of_nat (n - 1))). by apply Qfloor_resp_le. }
    lia. }
  destruct (ascending_nth arr previous next Hf Hs) as (a & b & Ha & Hb & Hab).
  { unfold next. lia. }
  { unfold next, n in *. lia. }
  destruct (lerp_value a b (virtual - inject_Z (Qfloor virtual)))
    as (v & Hv & Hval).
  exists a, b, v. repeat split; auto.
Qed.

Lemma nanpercentile_sorted_value (data : list fval) (q : Q) :
  Forall (fun x => no_inf x = true) data ->
  List.filter not_nan data <> [] -> 0 <= q -> q <= 100 ->
  let arr := sort_values (List.filter not_nan data) in
  let n := length arr in
  let virtual := q / 100 * inject_Z (Z.of_nat (n - 1)) in
  let previous := Z.to_nat (Qfloor virtual) in
  let next := Nat.min (previous + 1) (n - 1) in
  Forall (fun x => is_finite x = true) arr /\ ascending arr /\
  exists a b v,
    nanpercentile data (Fin q) = Ok (Fin v) /\
    nth previous arr NaN = Fin a /\ nth next arr NaN = Fin b /\
    v == a + (b - a) * (virtual - inject_Z (Qfloor virtual)) /\
    a <= b /\ (previous <= n - 1)%nat /\ 0 <= virtual.
Proof.
  intros Hinf Hne H0 H100 arr n virtual previous next.
  pose proof (no_inf_filter data Hinf) as Hfin.
  assert (Hf : Forall (fun x => is_finite x = true) arr).
  { unfold arr. by rewrite (sort_values_perm (List.filter not_nan data)). }
  assert (Hs : ascending arr) by (by apply sort_values_ascending).
  assert (Hne' : arr <> []).
  { intros E. apply Hne. apply Permutation_nil.
    rewrite <- E. apply sort_values_perm. }
  split; [exact Hf|]. split; [exact Hs|].
  destruct (percentile_sorted arr q Hf Hs Hne' H0 H100)
    as (a & b & v & Ha & Hb & Hv & Hval & Hab & Hp & Hv0).
  exists a, b, v. split.
  - unfold nanpercentile.
    apply Qle_bool_iff in H0 as ->. apply Qle_bool_iff in H100 as ->.
    cbn [andb]. fold arr. destruct arr as [|x arr']; [done|].
    fold n virtual previous next in Ha, Hb, Hv |- *.
    cbv zeta. fold n. fold virtual. fold previous. fold next.
    by rewrite Ha, Hb, Hv.
  - repeat split; auto.
Qed.

(** A percentile of numbers grows with its rank. *)
Lemma nanpercentile_mono (data : list fval) (p q : Q) :
  Forall (fun x => no_inf x = true) data ->
  List.filter not_nan data <> [] -> 0 <= p -> p <= q -> q <= 100 ->
  exists lo hi,
    nanpercentile data (Fin p) = Ok (Fin lo) /\
    nanpercentile data (Fin q) = Ok (Fin hi) /\ lo <= hi.
Proof.
  intros Hinf Hne H0 Hpq H100.
  assert (Hp100 : p <= 100) by lra. assert (Hq0 : 0 <= q) by lra.
  destruct (nanpercentile_sorted_value data p Hinf Hne H0 Hp100)
    as (Hf & Hs & a & b & lo & Hlo & Ha & Hb & Hvlo & Hab & Hkp & Hvp).
  destruct (nanpercentile_sorted_value data q Hinf Hne Hq0 H100)
    as (_ & _ & c & d & hi & Hhi & Hc & Hd & Hvhi & Hcd & Hkq & Hvq).
  exists lo, hi. split; [exact Hlo|]. split; [exact Hhi|].
  set (arr := sort_values (List.filter not_nan data)) in *.
  set (n := length arr) in *.
  set (vp := p / 100 * inject_Z (Z.of_nat (n - 1))) in *.
  set (vq := q / 100 * inject_Z (Z.of_nat (n - 1))) in *.
  assert (Hm : 0 <= inject_Z (Z.of_nat (n - 1))).
  { change 0 with (inject_Z (Z.of_nat 0)). apply inject_nat_le. lia. }
  assert (Hv : vp <= vq).
  { unfold vp, vq. apply Qmult_le_compat_r; [|exact Hm].
    apply Qmult_le_compat_r; [exact Hpq|].
    apply Qlt_le_weak, Qinv_lt_0_compat. reflexivity. }
  pose proof (Qfloor_resp_le _ _ Hv) as Hfl.
  pose proof (Qfloor_le vp) as Hp1. pose proof (Qlt_floor vp) as Hp2.
  pose proof (Qfloor_le vq) as Hq1. pose proof (Qlt_floor vq) as Hq2.
  rewrite inject_Z_plus in Hp2, Hq2. change (inject_Z 1) with 1 in Hp2, Hq2.
  assert (Hfp : (0 <= Qfloor vp)%Z).
  { change 0%Z with (Qfloor 0). by apply Qfloor_resp_le. }
  destruct (Z.eq_dec (Qfloor vp) (Qfloor vq)) as [Heq|Hneq].
  - rewrite <- Heq in Hc, Hd, Hvhi. rewrite Ha in Hc. rewrite Hb in Hd.
    injection Hc as <-. injection Hd as <-.
    rewrite Hvlo, Hvhi.
    assert (Hg : vp - inject_Z (Qfloor vp) <= vq - inject_Z (Qfloor vp)) by lra.
    assert (Hba : 0 <= b - a) by lra. nra.
  - assert (Hlt : (Qfloor vp < Qfloor vq)%Z) by lia.
    assert (Hlo_b : lo <= b).
    { rewrite Hvlo. assert (0 <= b - a) by lra.
      assert (vp - inject_Z (Qfloor vp) <= 1) by lra. nra. }
    assert (Hhi_c : c <= hi).
    { rewrite Hvhi. assert (0 <= d - c) by lra.
      assert (0 <= vq - inject_Z (Qfloor vq)) by lra. nra. }
    assert (Hbc : b <= c).
    { destruct (ascending_nth arr
                  (Nat.min (Z.to_nat (Qfloor vp) + 1) (n - 1))
                  (Z.to_nat (Qfloor vq)) Hf Hs) as (b' & c' & Hb' & Hc' & Hle).
      - lia.
      - assert (Hn1 : (1 <= n)%nat).
        { unfold n, arr. rewrite sort_values_length.
          destruct (List.filter not_nan data); [done|simpl; lia]. }
        change (Z.to_nat (Qfloor vq) < n)%nat. lia.
      - rewrite Hb in Hb'. rewrite Hc in Hc'. congruence. }
    lra.
Qed.

End PercentileOrder.

(** ** Rescaling between two percentiles and the order of the pixels *)

Section ScaleOrder.

Lemma scaled_antimono (lo hi x y : Q) :
  hi <= lo -> x <= y ->
  exists a b, scaled (Fin lo) (Fin hi) (Fin x) = Fin a /\
              scaled (Fin lo) (Fin hi) (Fin y) = Fin b /\ b <= a.
Proof.
  intros Hlh Hxy. unfold scaled. simpl.
  destruct (Qeq_bool (Qred (hi - lo)) 0) eqn:E.
  { exists 0, 0. repeat split; lra. }
  apply Qeq_bool_neq in E. rewrite Qred_correct in E.
  assert (Hneg : 0 < lo - hi) by lra.
  set (u := Qred (Qred (x - lo) / Qred (hi - lo))).
  set (v := Qred (Qred (y - lo) / Qred (hi - lo))).
  assert (Huv : v <= u).
  { unfold u, v. rewrite !Qred_correct.
    assert (Ei : / (hi - lo) == - / (lo - hi)).
    { field. split; lra. }
    unfold Qdiv. rewrite Ei.
    assert (Hi : 0 < / (lo - hi)) by (by apply Qinv_lt_0_compat).
    nra. }
  unfold clip.
  destruct (QMicromega.Qlt_bool u 0) eqn:Eu0;
    destruct (QMicromega.Qlt_bool v 0) eqn:Ev0;
    destruct (QMicromega.Qlt_bool 1 u) eqn:Eu1;
    destruct (QMicromega.Qlt_bool 1 v) eqn:Ev1;
    rewrite ?QMicromega.Qlt_bool_iff in *;
    repeat match goal with
           | H : QMicromega.Qlt_bool _ _ = false |- _ =>
               apply not_true_iff_false in H;
               rewrite QMicromega.Qlt_bool_iff in H
           end;
    eexists _, _; (split; [reflexivity|]); (split; [reflexivity|]); lra.
Qed.

Lemma holds_number (data : list fval) (i : nat) (x : Q) :
  data !! i = Some (Fin x) -> List.filter not_nan data <> [].
Proof.
  intros Hi E.
  assert (Hin : Fin x ∈ List.filter not_nan data).
  { apply elem_of_filter_not_nan. split; [|done].
    by eapply list_elem_of_lookup_2. }
  rewrite E in Hin. inversion Hin.
Qed.

(** On a raster without infinities, [_percentile_scale] between a
    lower and a higher percentile rank keeps the order of the pixels: a
    pixel with a larger value never gets a smaller score. *)
Theorem percentile_scale_monotone (arr out : DataArray) (p_low p_high : Q)
    (i j : nat) (x y : Q) :
  Forall (fun v => no_inf v = true) (values arr) ->
  0 <= p_low -> p_low <= p_high -> p_high <= 100 ->
  _percentile_scale arr (Fin p_low) (Fin p_high) = Ok out ->
  values arr !! i = Some (Fin x) -> values arr !! j = Some (Fin y) ->
  x <= y ->
  exists a b,
    values out !! i = Some (Fin a) /\ values out !! j = Some (Fin b) /\
    a <= b.
Proof.
  intros Hinf H0 Hp H100 Hs Hi Hj Hxy.
  pose proof (holds_number _ _ _ Hi) as Hne.
  destruct (nanpercentile_mono (values arr) p_low p_high Hinf Hne H0 Hp H100)
    as (lo & hi & Hlo & Hhi & Hle).
  apply percentile_scale_values in Hs as (lo' & hi' & Hlo' & Hhi' & Hv & _).
  rewrite Hlo in Hlo'. rewrite Hhi in Hhi'.
  injection Hlo' as <-. injection Hhi' as <-.
  destruct (scaled_mono lo hi x y Hle Hxy) as (a & b & Ha & Hb & Hab).
  exists a, b. rewrite Hv, !list_lookup_fmap, Hi, Hj. simpl.
  by rewrite Ha, Hb.
Qed.

(** When the lower rank is above the higher one (a [bsi_percentile]
    or [lineament_percentile] above 98, which nothing rules out), the
    order is reversed: a pixel with a larger value never gets a larger
    score. *)
Theorem percentile_scale_reversed (arr out : DataArray) (p_low p_high : Q)
    (i j : nat) (x y : Q) :
  Forall (fun v => no_inf v = true) (values arr) ->
  0 <= p_high -> p_high <= p_low -> p_low <= 100 ->
  _percentile_scale arr (Fin p_low) (Fin p_high) = Ok out ->
  values arr !! i = Some (Fin x) -> values arr !! j = Some (Fin y) ->
  x <= y ->
  exists a b,
    values out !! i = Some (Fin a) /\ values out !! j = Some (Fin b) /\
    b <= a.
Proof.
  intros Hinf H0 Hp H100 Hs Hi Hj Hxy.
  pose proof (holds_number _ _ _ Hi) as Hne.
  destruct (nanpercentile_mono (values arr) p_high p_low Hinf Hne H0 Hp H100)
    as (hi & lo & Hhi & Hlo & Hle).
  apply percentile_scale_values in Hs as (lo' & hi' & Hlo' & Hhi' & Hv & _).
  rewrite Hlo in Hlo'. rewrite Hhi in Hhi'.
  injection Hlo' as <-. injection Hhi' as <-.
  destruct (scaled_antimono lo hi x y Hle Hxy) as (a & b & Ha & Hb & Hab).
  exists a, b. rewrite Hv, !list_lookup_fmap, Hi, Hj. simpl.
  by rewrite Ha, Hb.
Qed.

(** The same for the bytes of a preview. *)
Lemma trunc_mono (a b : Q) :
  0 <= a -> a <= b ->
  (Z.quot (Qnum a) (Z.pos (Qden a)) <= Z.quot (Qnum b) (Z.pos (Qden b)))%Z.
Proof.
  intros H0 Hab. rewrite !trunc_floor_nonneg by lra. by apply Qfloor_resp_le.
Qed.

Variable cast_invalid : fval -> Z.

(** On data without infinities, [scale_to_uint8] between a lower
    and a higher percentile rank keeps the order of the pixels: a pixel
    with a larger value never gets a smaller byte. *)
Theorem scale_to_uint8_monotone (arr : list fval) (out : list Z)
    (pmin pmax : Q) (i j : nat) (x y : Q) :
  Forall (fun v => no_inf v = true) arr ->
  0 <= pmin -> pmin <= pmax -> pmax <= 100 ->
  scale_to_uint8 cast_invalid arr (Fin pmin) (Fin pmax) = Ok out ->
  arr !! i = Some (Fin x) -> arr !! j = Some (Fin y) -> x <= y ->
  exists a b, out !! i = Some a /\ out !! j = Some b /\ (a <= b)%Z.
Proof.
  intros Hinf H0 Hp H100 Hs Hi Hj Hxy.
  pose proof (holds_number _ _ _ Hi) as Hne.
  destruct (nanpercentile_mono arr pmin pmax Hinf Hne H0 Hp H100)
    as (lo & hi & Hlo & Hhi & Hle).
  unfold scale_to_uint8 in Hs.
  apply bind_ok in Hs as (lo' & Hlo' & Hs).
  apply bind_ok in Hs as (hi' & Hhi' & Hs).
  assert (El : lo' = Fin lo) by congruence.
  assert (Eh : hi' = Fin hi) by congruence.
  destruct (feqb (fsub hi' lo') (Fin 0)) eqn:Ed; injection Hs as <-.
  { exists 0%Z, 0%Z. rewrite !list_lookup_fmap, Hi, Hj. by repeat split. }
  destruct (scaled_mono lo hi x y Hle Hxy) as (a & b & Ha & Hb & Hab).
  pose proof (scaled_finite lo hi x) as Hra.
  pose proof (scaled_finite lo hi y) as Hrb.
  rewrite Ha in Hra. rewrite Hb in Hrb. simpl in Hra, Hrb.
  unfold scaled in Ha, Hb. rewrite <- El, <- Eh, Ed in Ha, Hb.
  rewrite !list_lookup_fmap, Hi, Hj. cbn [fmap option_fmap option_map].
  rewrite Ha, Hb. eexists _, _. split; [reflexivity|]. split; [reflexivity|].
  cbn [fmul astype_uint8].
  assert (Bound : forall s, 0 <= s <= 1 ->
            ((0 <=? Z.quot (Qnum (Qred (s * 255)))
                     (Z.pos (Qden (Qred (s * 255))))) &&
             (Z.quot (Qnum (Qred (s * 255)))
                     (Z.pos (Qden (Qred (s * 255)))) <=? 255))%Z = true).
  { intros s [Hs0 Hs1].
    destruct (trunc_byte (Qred (s * 255))) as [B0 B1];
      [rewrite Qred_correct; lra..|].
    apply Z.leb_le in B0, B1. by rewrite B0, B1. }
  rewrite !Bound by done.
  apply trunc_mono; rewrite !Qred_correct; lra.
Qed.

End ScaleOrder.

Lemma percentile_scale_monotone_witness :
  exists a b,
    values (raster 2 2 [Fin 0; NaN; Fin 0; Fin 1]) !! 2%nat = Some (Fin a) /\
    values (raster 2 2 [Fin 0; NaN; Fin 0; Fin 1]) !! 3%nat = Some (Fin b) /\
    a <= b.
Proof.
  apply (percentile_scale_monotone
           (raster 2 2 [Fin (3 # 10); NaN; Fin (1 # 5); Fin (2 # 5)])
           (raster 2 2 [Fin 0; NaN; Fin 0; Fin 1]) 70 98 2 3 (1 # 5) (2 # 5)).
  - repeat constructor.
  - lra.
  - lra.
  - lra.
  - vm_compute. reflexivity.
  - reflexivity.
  - reflexivity.
  - lra.
Defined.

Lemma percentile_scale_reversed_witness :
  exists a b,
    values (raster 2 2 [Fin 1; NaN; Fin 1; Fin 0]) !! 2%nat = Some (Fin a) /\
    values (raster 2 2 [Fin 1; NaN; Fin 1; Fin 0]) !! 3%nat = Some (Fin b) /\
    b <= a.
Proof.
  apply (percentile_scale_reversed
           (raster 2 2 [Fin (3 # 10); NaN; Fin (1 # 5); Fin (2 # 5)])
           (raster 2 2 [Fin 1; NaN; Fin 1; Fin 0]) 99 98 2 3 (1 # 5) (2 # 5)).
  - repeat constructor.
  - lra.
  - lra.
  - lra.
  - vm_compute. reflexivity.
  - reflexivity.
  - reflexivity.
  - lra.
Defined.

Lemma scale_to_uint8_monotone_witness :
  exists a b,
    [0; 255; 0; 127]%Z !! 3%nat = Some a /\
    [0; 255; 0; 127]%Z !! 1%nat = Some b /\ (a <= b)%Z.
Proof.
  apply (scale_to_uint8_monotone (fun _ => 0%Z)
           [Fin 0; Fin 10; NaN; Fin 5] [0; 255; 0; 127]%Z 0 100 3 1 5 10).
  - repeat constructor.
  - lra.
  - lra.
  - lra.
  - vm_compute. reflexivity.
  - reflexivity.
  - reflexivity.
  - lra.
Defined.
